(** * Inventario API: the purchase transaction engine

    A shallow embedding of [src/routes/purchases.js], [src/models/Purchase.js],
    [src/models/Product.js], [src/utils/validationSchemas.js] and
    [src/middleware/auth.js], and the properties of the purchase operation,
    the invoice sequencer, the purchase read routes, the history and sales
    routes and the methods of the models.

    Conventions of the embedding:
    - a JavaScript number is an IEEE-754 binary64 value; it is carried as the
      rational it denotes, and every arithmetic operation returns the exact
      result rounded to the nearest 53-bit significand, ties to even
      (module [JsNumber]);
    - a DECIMAL(p,2) column holds an integer number of cents;
    - the handler is written in a state-and-exception monad over a [World]:
      the persisted tables, the working copy of the open transaction, the log
      of store calls and the counters of the environment's oracles
      (clock, random source, store rejections). *)

From Stdlib Require Import ZArith QArith Qround Qabs Qpower Lqa Lia.
From Stdlib Require Import List String Ascii Bool.
From Stdlib Require Import Decimal DecimalString.
From Stdlib Require Import Permutation.
From Stdlib Require DecimalPos.
Import ListNotations.

Set Implicit Arguments.

(* ================================================================== *)
(** * JavaScript numbers *)
(* ================================================================== *)

Module JsNumber.

Local Open Scope Q_scope.

(** [ilog2 x] is [floor (log2 x)] for a positive rational [x]. *)
Definition ilog2 (x : Q) : Z :=
  let l := (Z.log2 (Qnum x) - Z.log2 (Zpos (Qden x)))%Z in
  if Qle_bool (2 ^ l) x then l else (l - 1)%Z.

(** Nearest integer, ties to the even one. *)
Definition rne (y : Q) : Z :=
  let f := Qfloor y in
  match Qcompare (y - inject_Z f) (1 # 2) with
  | Lt => f
  | Gt => (f + 1)%Z
  | Eq => if Z.even f then f else (f + 1)%Z
  end.

(** Rounding of a positive rational to 53 significant bits. *)
Definition round53 (x : Q) : Q :=
  let e := (ilog2 x - 52)%Z in
  inject_Z (rne (x / 2 ^ e)) * 2 ^ e.

(** [fl x]: the binary64 value nearest to [x] (the exponent range of
    binary64 is not reached by any amount this program handles). *)
Definition fl (x : Q) : Q :=
  match Qcompare x 0 with
  | Eq => 0
  | Gt => Qred (round53 x)
  | Lt => Qred (- round53 (- x))
  end.

(** [a * b] and [a + b] on JavaScript numbers. *)
Definition mul (a b : Q) : Q := fl (a * b).
Definition add (a b : Q) : Q := fl (a + b).

(** [parseFloat] of the text of a DECIMAL(p,2) column holding [c] cents. *)
Definition parseFloat_decimal (c : Z) : Q := fl (inject_Z c / 100).

(** A JavaScript number that holds the integer [n] (exact below 2^53). *)
Definition of_Z (n : Z) : Q := fl (inject_Z n).

(** [x.toFixed(2)] for [0 <= x < 1e21]: the integer [n] for which [n / 100]
    is nearest to [x], the larger one on a tie; the text produced is the
    decimal numeral of [n / 100] with two fraction digits, so a DECIMAL(p,2)
    column that receives it holds [n] cents. *)
Definition toFixed2 (x : Q) : Z :=
  match Qcompare x 0 with
  | Lt => (- Qfloor (- x * 100 + (1 # 2)))%Z
  | _ => Qfloor (x * 100 + (1 # 2))
  end.

(** [Math.floor]. *)
Definition floor (x : Q) : Z := Qfloor x.

(** The unit roundoff of binary64. *)
Definition u53 : Q := 1 # (2 ^ 53).

(** A binary64 value of the interval [0, 1), as [Math.random()] returns. *)
Definition unit_double (r : Q) : Prop := 0 <= r /\ r < 1 /\ fl r == r.

End JsNumber.


(* ================================================================== *)
(** * Text *)
(* ================================================================== *)

Local Open Scope string_scope.
Local Open Scope Z_scope.

(** The decimal numeral of an integer, as a template literal prints it. *)
Definition show_Z (z : Z) : string := NilZero.string_of_int (Z.to_int z).

Fixpoint replicate (n : nat) (c : ascii) : string :=
  match n with
  | O => EmptyString
  | S n' => String c (replicate n' c)
  end.

(** [s.padStart(n, c)] for a one-character filler. *)
Definition padStart (n : nat) (c : ascii) (s : string) : string :=
  replicate (n - String.length s) c ++ s.

(** [l.join(sep)]. *)
Fixpoint join (sep : string) (l : list string) : string :=
  match l with
  | [] => ""
  | [x] => x
  | x :: rest => x ++ sep ++ join sep rest
  end.

Definition is_space (c : ascii) : bool :=
  let n := nat_of_ascii c in
  (Nat.eqb n 32 || (Nat.leb 9 n && Nat.leb n 13))%bool.

(** The white space and line terminators of JavaScript beyond ASCII, by
    the bytes of their UTF-8 encoding: U+00A0 on two bytes, and on three
    bytes U+1680, U+2000 to U+200A, U+2028, U+2029, U+202F, U+205F, U+3000
    and U+FEFF. *)
Definition is_space2 (a b : ascii) : bool :=
  (Nat.eqb (nat_of_ascii a) 194 && Nat.eqb (nat_of_ascii b) 160)%bool.

Definition is_space3 (a b c : ascii) : bool :=
  let x := nat_of_ascii a in
  let y := nat_of_ascii b in
  let z := nat_of_ascii c in
  (Nat.eqb x 225 && Nat.eqb y 154 && Nat.eqb z 128
   || Nat.eqb x 226 && Nat.eqb y 128
      && (Nat.leb 128 z && Nat.leb z 138
          || Nat.eqb z 168 || Nat.eqb z 169 || Nat.eqb z 175)
   || Nat.eqb x 226 && Nat.eqb y 129 && Nat.eqb z 159
   || Nat.eqb x 227 && Nat.eqb y 128 && Nat.eqb z 128
   || Nat.eqb x 239 && Nat.eqb y 187 && Nat.eqb z 191)%bool.

(** [s.trim() === '']: the text, held in UTF-8, is made of white space and
    line terminators only. *)
Fixpoint blank (s : string) : bool :=
  match s with
  | EmptyString => true
  | String a rest =>
      if is_space a then blank rest
      else
        match rest with
        | EmptyString => false
        | String b rest2 =>
            if is_space2 a b then blank rest2
            else
              match rest2 with
              | EmptyString => false
              | String c rest3 =>
                  if is_space3 a b c then blank rest3 else false
              end
        end
  end.

(* ================================================================== *)
(** * Data model ([src/models]) *)
(* ================================================================== *)

Module Product.
Record t := mk {
  id : Z;
  numero_lote : string;
  nombre : string;
  precio : Z;                (* DECIMAL(10,2), in cents *)
  cantidad_disponible : Z;   (* INTEGER *)
  activo : bool
}.
Definition with_cantidad_disponible (q : Z) (p : t) : t :=
  mk (id p) (numero_lote p) (nombre p) (precio p) q (activo p).
End Product.

Module User.
Record t := mk {
  id : Z;
  nombre : string;
  email : string;
  role : string
}.
End User.

Inductive Estado := pendiente | completada | cancelada.

Module Purchase.
Record t := mk {
  id : Z;
  user_id : Z;
  fecha_compra : Z;
  total : Z;                        (* DECIMAL(12,2), in cents *)
  estado : Estado;
  numero_factura : option string;   (* STRING(50), allowNull *)
  created_at : Z
}.
Definition with_numero_factura (nf : option string) (p : t) : t :=
  mk (id p) (user_id p) (fecha_compra p) (total p) (estado p) nf
     (created_at p).
End Purchase.

Module PurchaseDetail.
Record t := mk {
  id : Z;
  purchase_id : Z;
  product_id : Z;
  cantidad : Z;
  precio_unitario : Q;   (* the number handed to the DECIMAL(10,2) column *)
  subtotal : Z           (* DECIMAL(12,2), in cents *)
}.
Definition with_subtotal (s : Z) (d : t) : t :=
  mk (id d) (purchase_id d) (product_id d) (cantidad d)
     (precio_unitario d) s.
End PurchaseDetail.

(** The tables. *)
Record DB := mkDB {
  users : list User.t;
  products : list Product.t;
  purchases : list Purchase.t;
  purchase_details : list PurchaseDetail.t
}.

(** An AUTO_INCREMENT key: larger than every key of the table. *)
Definition next_id (ids : list Z) : Z := fold_right Z.max 0 ids + 1.

(* ================================================================== *)
(** * Requests and responses *)
(* ================================================================== *)

(** A line of [req.body.productos] as JSON.parse leaves it: an object of
    these two keys and no other, in which a field is absent ([None]) or a
    number. *)
Record RawItem := mkRawItem {
  raw_product_id : option Q;
  raw_cantidad : option Q
}.

Record RawBody := mkRawBody { raw_productos : option (list RawItem) }.

(** A validated cart line. *)
Record Item := mkItem { product_id : Z; cantidad : Z }.

(** [req.query] of the list route: the two fields the handler reads, of a
    query that carries no other; a field is absent or the number that its
    text denotes. *)
Record RawQuery := mkRawQuery { raw_page : option Q; raw_limit : option Q }.

(** What [include] joins to a purchase row. *)
Record UserAttrs := mkUserAttrs {
  ua_id : Z; ua_nombre : string; ua_email : string
}.

Record ProductAttrs := mkProductAttrs {
  pa_id : Z; pa_nombre : string; pa_numero_lote : string; pa_precio : Z
}.

Record PurchaseView := mkView {
  pv_purchase : Purchase.t;
  pv_user : option UserAttrs;
  pv_details : list (PurchaseDetail.t * option ProductAttrs)
}.

Record Pagination := mkPagination {
  currentPage : Z;
  totalPages : Z;
  totalItems : Z;
  itemsPerPage : Z;
  hasNextPage : bool;
  hasPrevPage : bool
}.

(** Rejections of a store call, by the name the handler looks at. *)
Inductive StoreError :=
| SequelizeTimeoutError
| LockWaitTimeout                 (* message includes 'Lock wait timeout' *)
| SequelizeValidationError (errors : list string)
| SequelizeUniqueConstraintError
| SequelizeDatabaseError.         (* any other rejection *)

(** Errors a handler can see thrown. *)
Inductive Error :=
| StoreRejected (e : StoreError)
| TypeError                       (* property read on undefined *)
| TransactionFinished             (* rollback or commit of a finished one *)
| LoopBudgetExceeded.             (* never raised by the purchase route *)

(** The JSON bodies, without their [timestamp] and [path] fields. *)
Inductive Payload :=
| Failure (message : string) (errors : list string)
| Created (message : string) (data : option PurchaseView)
| PurchaseData (data : PurchaseView)
| PurchaseList (rows : list PurchaseView) (pagination : Pagination).

Inductive Response :=
| Json (status : Z) (body : Payload)
| Next (e : Error)         (* next(error): left to the error middleware *)
| Rejected (e : Error).    (* the handler itself rejected *)

(* ================================================================== *)
(** * The store, the transaction and the environment *)
(* ================================================================== *)

(** Calls made to the store, in the order they are issued. *)
Inductive Event :=
| EvBegin
| EvSelectProductsForUpdate (ids : list Z)
| EvSelectPurchaseByInvoice (numero_factura : string)
| EvInsertPurchase
| EvInsertDetail (product_id : Z)
| EvUpdateStock (id : Z) (cantidad_disponible : Z)
| EvCommit
| EvRollback
| EvSelectPurchase.

Inductive TxState :=
| NoTx
| Open (working : DB)
| Finished.

(** What the handler does not decide: which store call is rejected (the
    n-th call, by [store_fault]), the clock and the random source. *)
Record Env := mkEnv {
  store_fault : nat -> option StoreError;
  Date_now : nat -> Z;
  Math_random : nat -> Q
}.

Record World := mkWorld {
  persisted : DB;
  tx : TxState;
  log : list Event;
  store_calls : nat;
  clock_reads : nat;
  random_reads : nat
}.

Definition initial_world (db : DB) : World := mkWorld db NoTx [] 0 0 0.

Inductive Result (A : Type) :=
| Ok (a : A)
| Throw (e : Error).
Arguments Ok {A} a.
Arguments Throw {A} e.

Definition M (A : Type) : Type := World -> Result A * World.

Definition ret {A} (a : A) : M A := fun w => (Ok a, w).

Definition throw {A} (e : Error) : M A := fun w => (Throw e, w).

Definition bind {A B} (m : M A) (f : A -> M B) : M B :=
  fun w =>
    match m w with
    | (Ok a, w') => f a w'
    | (Throw e, w') => (Throw e, w')
    end.

Definition try_catch {A} (body : M A) (handler : Error -> M A) : M A :=
  fun w =>
    match body w with
    | (Ok a, w') => (Ok a, w')
    | (Throw e, w') => handler e w'
    end.

Declare Scope monad_scope.
Delimit Scope monad_scope with monad.
Notation "x <- m ;; k" := (bind m (fun x => k))
  (at level 61, m at next level, right associativity) : monad_scope.
Notation "m ;;; k" := (bind m (fun _ => k))
  (at level 61, right associativity) : monad_scope.
Local Open Scope monad_scope.

(** What the route answers: a handler that rejects sends nothing. *)
Definition respond (m : M Response) (w : World) : Response * World :=
  match m w with
  | (Ok r, w') => (r, w')
  | (Throw e, w') => (Rejected e, w')
  end.

Section Store.

Variable env : Env.

(** One call to the store: logged, counted, and rejected when the
    environment says so. *)
Definition store_call (ev : Event) : M unit :=
  fun w =>
    let w' := mkWorld (persisted w) (tx w) (log w ++ [ev])
                      (S (store_calls w)) (clock_reads w) (random_reads w) in
    match store_fault env (store_calls w) with
    | Some e => (Throw (StoreRejected e), w')
    | None => (Ok tt, w')
    end.

Definition set_tx (t : TxState) : M unit :=
  fun w => (Ok tt, mkWorld (persisted w) t (log w) (store_calls w)
                           (clock_reads w) (random_reads w)).

Definition set_persisted (db : DB) : M unit :=
  fun w => (Ok tt, mkWorld db (tx w) (log w) (store_calls w)
                           (clock_reads w) (random_reads w)).

Definition get_tx : M TxState := fun w => (Ok (tx w), w).

Definition get_persisted : M DB := fun w => (Ok (persisted w), w).

(** [Date.now()] / [new Date()]. *)
Definition now : M Z :=
  fun w => (Ok (Date_now env (clock_reads w)),
            mkWorld (persisted w) (tx w) (log w) (store_calls w)
                    (S (clock_reads w)) (random_reads w)).

(** [Math.random()]. *)
Definition random : M Q :=
  fun w => (Ok (Math_random env (random_reads w)),
            mkWorld (persisted w) (tx w) (log w) (store_calls w)
                    (clock_reads w) (S (random_reads w))).

(** [sequelize.transaction()]: the working copy starts as the persisted
    tables. *)
Definition sequelize_transaction : M unit :=
  store_call EvBegin ;;;
  db <- get_persisted ;;
  set_tx (Open db).

(** [transaction.rollback()]: the working copy is dropped. *)
Definition rollback : M unit :=
  t <- get_tx ;;
  match t with
  | Open _ =>
      fun w => (Ok tt, mkWorld (persisted w) Finished (log w ++ [EvRollback])
                               (store_calls w) (clock_reads w)
                               (random_reads w))
  | _ => throw TransactionFinished
  end.

(** [transaction.commit()]: the working copy becomes the persisted tables;
    a rejected commit persists nothing and finishes the transaction. *)
Definition commit : M unit :=
  t <- get_tx ;;
  match t with
  | Open working =>
      set_tx Finished ;;;
      store_call EvCommit ;;;
      set_persisted working
  | _ => throw TransactionFinished
  end.

(** A query run with [{ transaction }]: it sees and changes the working
    copy. *)
Definition in_transaction {A} (ev : Event) (q : DB -> A * DB) : M A :=
  store_call ev ;;;
  t <- get_tx ;;
  match t with
  | Open working =>
      let (a, working') := q working in
      set_tx (Open working') ;;; ret a
  | _ => throw TransactionFinished
  end.

(** A query run without a transaction: it reads the persisted tables. *)
Definition read_persisted {A} (ev : Event) (q : DB -> A) : M A :=
  store_call ev ;;;
  db <- get_persisted ;;
  ret (q db).

End Store.

(* ================================================================== *)
(** * Validation ([src/utils/validationSchemas.js]) *)
(* ================================================================== *)

Definition is_integer (q : Q) : bool := (Qnum q mod Zpos (Qden q) =? 0).

Definition Qltb (a b : Q) : bool := negb (Qle_bool b a).

(** [Number.MAX_SAFE_INTEGER]. *)
Definition MAX_SAFE_INTEGER : Z := 2 ^ 53 - 1.

(** [Joi.number()] refuses a number beyond [Number.MAX_SAFE_INTEGER] on
    either side ('number.unsafe'), before it looks at the rules of the
    key. *)
Definition unsafe (q : Q) : bool :=
  (Qltb (inject_Z MAX_SAFE_INTEGER) q
   || Qltb q (inject_Z (- MAX_SAFE_INTEGER)))%bool.

(** The schemas give no message for 'number.unsafe': the message is Joi's,
    which names the key by its path, between double quotes. *)
Definition unsafe_message (label : string) : string :=
  String "034" (label ++ String "034" " must be a safe number").

Definition item_label (index : nat) (key : string) : string :=
  "productos[" ++ show_Z (Z.of_nat index) ++ "]." ++ key.

(** [purchaseItemSchema], for the item at [index] of the cart:
    [product_id] is a required positive integer, [cantidad] a required
    integer that is at least 1.  The keys are checked in the order of the
    schema and the first failure is reported. *)
Definition purchaseItemSchema (index : nat) (it : RawItem) : string + Item :=
  match raw_product_id it with
  | None => inl "El ID del producto es requerido"
  | Some pid =>
      if unsafe pid then inl (unsafe_message (item_label index "product_id"))
      else if negb (is_integer pid) then
        inl "El ID del producto debe ser un número entero"
      else if negb (Qltb 0 pid) then
        inl "El ID del producto debe ser mayor a 0"
      else
        match raw_cantidad it with
        | None => inl "La cantidad es requerida"
        | Some q =>
            if unsafe q then inl (unsafe_message (item_label index "cantidad"))
            else if negb (is_integer q) then
              inl "La cantidad debe ser un número entero"
            else if Qltb q 1 then
              inl "La cantidad debe ser mayor a 0"
            else inr (mkItem (Qfloor pid) (Qfloor q))
        end
  end.

(** The items of the array, from the one at [index] on. *)
Fixpoint validate_items (index : nat) (l : list RawItem)
  : string + list Item :=
  match l with
  | [] => inr []
  | it :: rest =>
      match purchaseItemSchema index it with
      | inl msg => inl msg
      | inr i =>
          match validate_items (S index) rest with
          | inl msg => inl msg
          | inr items => inr (i :: items)
          end
      end
  end.

(** [purchaseSchema]: [productos] is a required array of items, of at least
    one element. *)
Definition purchaseSchema (body : RawBody) : string + list Item :=
  match raw_productos body with
  | None => inl "Los productos son requeridos"
  | Some l =>
      match validate_items 0 l with
      | inl msg => inl msg
      | inr items =>
          if (List.length items <? 1)%nat then
            inl "Debe incluir al menos un producto"
          else inr items
      end
  end.

(** [queryParamsSchema], for [page] and [limit].  A parameter is carried as
    the number that its text denotes. *)
Definition queryParamsSchema (q : RawQuery) : string + (Z * Z) :=
  let page :=
    match raw_page q with
    | None => inr 1
    | Some p =>
        if unsafe p then inl (unsafe_message "page")
        else if negb (is_integer p) then
          inl "La página debe ser un número entero"
        else if Qltb p 1 then inl "La página debe ser mayor a 0"
        else inr (Qfloor p)
    end in
  match page with
  | inl msg => inl msg
  | inr page =>
      match raw_limit q with
      | None => inr (page, 10)
      | Some l =>
          if unsafe l then inl (unsafe_message "limit")
          else if negb (is_integer l) then
            inl "El límite debe ser un número entero"
          else if Qltb l 1 then inl "El límite debe ser mayor a 0"
          else if Qltb 100 l then inl "El límite no puede exceder 100"
          else inr (page, Qfloor l)
      end
  end.

(* ================================================================== *)
(** * Models ([src/models/Purchase.js]) *)
(* ================================================================== *)

Section Program.

Variable env : Env.

Local Open Scope monad_scope.

(** [generateInvoiceNumber]. *)
Definition generateInvoiceNumber : M string :=
  timestamp <- now env ;;
  r <- random env ;;
  let random :=
    padStart 3 "0" (show_Z (JsNumber.floor (JsNumber.mul r 1000))) in
  ret ("FAC-" ++ show_Z timestamp ++ "-" ++ random).

(** [!purchase.numero_factura]: null or the empty text. *)
Definition falsy (nf : option string) : bool :=
  match nf with
  | None => true
  | Some s => String.eqb s ""
  end.

(** The [beforeCreate] hook of [Purchase]. *)
Definition Purchase_beforeCreate (purchase : Purchase.t) : M Purchase.t :=
  if falsy (Purchase.numero_factura purchase) then
    nf <- generateInvoiceNumber ;;
    ret (Purchase.with_numero_factura (Some nf) purchase)
  else ret purchase.

(** The [beforeSave] hook of [Purchase]. *)
Definition Purchase_beforeSave (purchase : Purchase.t) : M Purchase.t :=
  if (falsy (Purchase.numero_factura purchase)
      || match Purchase.numero_factura purchase with
         | Some s => blank s
         | None => false
         end)%bool
  then
    nf <- generateInvoiceNumber ;;
    ret (Purchase.with_numero_factura (Some nf) purchase)
  else ret purchase.

(** The [beforeCreate] hook of [PurchaseDetail]: the subtotal is computed
    again from the quantity and the unit price. *)
Definition PurchaseDetail_beforeCreate (detail : PurchaseDetail.t)
  : PurchaseDetail.t :=
  let cantidad := inject_Z (PurchaseDetail.cantidad detail) in
  let precioUnitario := PurchaseDetail.precio_unitario detail in
  PurchaseDetail.with_subtotal
    (JsNumber.toFixed2 (JsNumber.mul cantidad precioUnitario)) detail.

(** [Purchase.create(values, { transaction })]: time stamp, hooks, INSERT.
    The validators and constraints of the model are among the rejections
    the environment decides ([store_fault]). *)
Definition Purchase_create (user_id total : Z) (numero_factura : option string)
    (estado : Estado) (fecha_compra : Z) : M Purchase.t :=
  created <- now env ;;
  let purchase :=
    Purchase.mk 0 user_id fecha_compra total estado numero_factura created in
  purchase <- Purchase_beforeCreate purchase ;;
  purchase <- Purchase_beforeSave purchase ;;
  in_transaction env EvInsertPurchase
    (fun db =>
       let row :=
         Purchase.mk (next_id (map Purchase.id (purchases db)))
           (Purchase.user_id purchase) (Purchase.fecha_compra purchase)
           (Purchase.total purchase) (Purchase.estado purchase)
           (Purchase.numero_factura purchase)
           (Purchase.created_at purchase) in
       (row, mkDB (users db) (products db) (purchases db ++ [row])
                  (purchase_details db))).

(** [PurchaseDetail.create(values, { transaction })]. *)
Definition PurchaseDetail_create (purchase_id product_id cantidad : Z)
    (precio_unitario : Q) (subtotal : Z) : M PurchaseDetail.t :=
  let detail :=
    PurchaseDetail_beforeCreate
      (PurchaseDetail.mk 0 purchase_id product_id cantidad precio_unitario
                         subtotal) in
  in_transaction env (EvInsertDetail product_id)
    (fun db =>
       let row :=
         PurchaseDetail.mk
           (next_id (map PurchaseDetail.id (purchase_details db)))
           (PurchaseDetail.purchase_id detail)
           (PurchaseDetail.product_id detail)
           (PurchaseDetail.cantidad detail)
           (PurchaseDetail.precio_unitario detail)
           (PurchaseDetail.subtotal detail) in
       (row, mkDB (users db) (products db) (purchases db)
                  (purchase_details db ++ [row]))).

(** [Product.findAll({ where: { id: { [Op.in]: ids }, activo: true },
    lock: true, transaction })]: one SELECT ... FOR UPDATE that is handed
    the list of identifiers. *)
Definition Product_findAll_locked (ids : list Z) : M (list Product.t) :=
  in_transaction env (EvSelectProductsForUpdate ids)
    (fun db =>
       (filter (fun p => (existsb (Z.eqb (Product.id p)) ids
                          && Product.activo p)%bool)
               (products db), db)).

Definition has_invoice (nf : string) (p : Purchase.t) : bool :=
  match Purchase.numero_factura p with
  | Some s => String.eqb s nf
  | None => false
  end.

(** [Purchase.findOne({ where: { numero_factura }, transaction })]. *)
Definition Purchase_findOne_invoice (nf : string) : M (option Purchase.t) :=
  in_transaction env (EvSelectPurchaseByInvoice nf)
    (fun db => (find (has_invoice nf) (purchases db), db)).

Definition set_stock (id q : Z) (p : Product.t) : Product.t :=
  if Product.id p =? id then Product.with_cantidad_disponible q p else p.

(** [Product.update({ cantidad_disponible }, { where: { id },
    transaction })]. *)
Definition Product_update (id cantidad_disponible : Z) : M unit :=
  in_transaction env (EvUpdateStock id cantidad_disponible)
    (fun db =>
       (tt, mkDB (users db) (map (set_stock id cantidad_disponible)
                                 (products db))
                 (purchases db) (purchase_details db))).

(** The rows joined by [include]. *)
Definition user_attrs (db : DB) (uid : Z) : option UserAttrs :=
  option_map (fun u => mkUserAttrs (User.id u) (User.nombre u) (User.email u))
             (find (fun u => User.id u =? uid) (users db)).

Definition product_attrs (db : DB) (pid : Z) : option ProductAttrs :=
  option_map (fun p => mkProductAttrs (Product.id p) (Product.nombre p)
                                      (Product.numero_lote p)
                                      (Product.precio p))
             (find (fun p => Product.id p =? pid) (products db)).

Definition details_of (db : DB) (purchase : Purchase.t)
  : list (PurchaseDetail.t * option ProductAttrs) :=
  map (fun d => (d, product_attrs db (PurchaseDetail.product_id d)))
      (filter (fun d => PurchaseDetail.purchase_id d =? Purchase.id purchase)
              (purchase_details db)).

Definition view (include_user : bool) (db : DB) (purchase : Purchase.t)
  : PurchaseView :=
  mkView purchase
         (if include_user then user_attrs db (Purchase.user_id purchase)
          else None)
         (details_of db purchase).

(** The [where] of the read routes: an optional [id] and an optional
    [user_id]. *)
Definition matches (id user_id : option Z) (p : Purchase.t) : bool :=
  (match id with Some i => Purchase.id p =? i | None => true end
   && match user_id with Some u => Purchase.user_id p =? u | None => true end
  )%bool.

(** [Purchase.findByPk] / [Purchase.findOne] with [include], run without a
    transaction. *)
Definition Purchase_findOne (id user_id : option Z)
  : M (option PurchaseView) :=
  read_persisted env EvSelectPurchase
    (fun db => option_map (view true db)
                          (find (matches id user_id) (purchases db))).

Definition Purchase_findByPk (id : Z) : M (option PurchaseView) :=
  Purchase_findOne (Some id) None.

(** [order: [['created_at', 'DESC']]].  The store does not fix the order of
    rows with equal time stamps; here they keep the order of the table. *)
Fixpoint insert_desc (p : Purchase.t) (l : list Purchase.t)
  : list Purchase.t :=
  match l with
  | [] => [p]
  | q :: rest =>
      if Purchase.created_at q <=? Purchase.created_at p then p :: l
      else q :: insert_desc p rest
  end.

Definition order_desc (l : list Purchase.t) : list Purchase.t :=
  fold_right insert_desc [] l.

(** A LEFT OUTER JOIN keeps a row that has no match once. *)
Definition left_joined (matches : nat) : nat := Nat.max 1 matches.

(** The rows that the joins of [include] make of a purchase: one for each
    of its lines and each product row of the line, and for each user row of
    the purchase when the user is included. *)
Definition joined_rows (include_user : bool) (db : DB) (purchase : Purchase.t)
  : nat :=
  (if include_user then
     left_joined
       (List.length
          (filter (fun u => User.id u =? Purchase.user_id purchase)
                  (users db)))
   else 1%nat)
  * left_joined
      (list_sum
         (map (fun d =>
                 left_joined
                   (List.length
                      (filter (fun p => Product.id p
                                        =? PurchaseDetail.product_id d)
                              (products db))))
              (filter (fun d => PurchaseDetail.purchase_id d
                                =? Purchase.id purchase)
                      (purchase_details db)))).

(** [Purchase.findAndCountAll({ where, include, order, limit, offset })].
    No [distinct] is asked for, so [count] counts the rows of the join of
    the purchases with what is included; the rows are the purchases of the
    page, each with what is included. *)
Definition Purchase_findAndCountAll (user_id : option Z) (include_user : bool)
    (limit offset : Z) : M (Z * list PurchaseView) :=
  read_persisted env EvSelectPurchase
    (fun db =>
       let found := filter (matches None user_id) (purchases db) in
       (Z.of_nat (list_sum (map (joined_rows include_user db) found)),
        map (view include_user db)
            (firstn (Z.to_nat limit)
                    (skipn (Z.to_nat offset) (order_desc found))))).

(* ================================================================== *)
(** * The purchase route ([src/routes/purchases.js], POST /) *)
(* ================================================================== *)

(** An element of [detalles]. *)
Record Detalle := mkDetalle {
  d_product_id : Z;
  d_cantidad : Z;
  d_precio_unitario : Q;
  d_subtotal : Z;
  d_product : Product.t
}.

Definition insufficient_stock_message (product : Product.t) (item : Item)
  : string :=
  "Stock insuficiente para " ++ Product.nombre product
  ++ ". Disponible: " ++ show_Z (Product.cantidad_disponible product)
  ++ ", Solicitado: " ++ show_Z (cantidad item).

(** PASO 2: the loop that checks the stock of every line and prices it.
    [inl] is the response of an early return. *)
Fixpoint price_lines (productos : list Item) (availableProducts : list Product.t)
    (total : Q) (detalles : list Detalle)
  : M (Response + (Q * list Detalle)) :=
  match productos with
  | [] => ret (inr (total, detalles))
  | item :: rest =>
      match find (fun p => Product.id p =? product_id item)
                 availableProducts with
      | None => throw TypeError
      | Some product =>
          if Product.cantidad_disponible product <? cantidad item then
            rollback ;;;
            ret (inl (Json 400
                        (Failure (insufficient_stock_message product item)
                                 [])))
          else
            let precioUnitario :=
              JsNumber.parseFloat_decimal (Product.precio product) in
            let subtotal :=
              JsNumber.mul precioUnitario (inject_Z (cantidad item)) in
            let total := JsNumber.add total subtotal in
            price_lines rest availableProducts total
              (detalles ++ [mkDetalle (Product.id product) (cantidad item)
                                      precioUnitario
                                      (JsNumber.toFixed2 subtotal) product])
      end
  end.

Definition maxAttempts : nat := 5.

(** PASO 3: the do-while loop of the invoice number.  [budget] bounds the
    iterations of the model; [sequencing_total] shows that [maxAttempts]
    iterations are never exceeded.  The 10 ms pause between two attempts is
    left out. *)
Fixpoint sequence_invoice (budget attempts : nat) : M (Response + string) :=
  match budget with
  | O => throw LoopBudgetExceeded
  | S budget' =>
      numeroFactura <- generateInvoiceNumber ;;
      existingInvoice <- Purchase_findOne_invoice numeroFactura ;;
      match existingInvoice with
      | None => ret (inr numeroFactura)
      | Some _ =>
          let attempts := S attempts in
          if (maxAttempts <=? attempts)%nat then
            rollback ;;;
            ret (inl (Json 500
                        (Failure "Error generando número de factura único"
                                 [])))
          else if (attempts <? maxAttempts)%nat then
            sequence_invoice budget' attempts
          else ret (inr numeroFactura)
      end
  end.

(** PASO 5, first loop: one line row per [detalle], and the new stock of
    its product. *)
Fixpoint create_details (purchase : Purchase.t) (detalles : list Detalle)
    (detallesCreados : list PurchaseDetail.t) (stockUpdates : list (Z * Z))
  : M (list PurchaseDetail.t * list (Z * Z)) :=
  match detalles with
  | [] => ret (detallesCreados, stockUpdates)
  | detalle :: rest =>
      purchaseDetail <-
        PurchaseDetail_create (Purchase.id purchase) (d_product_id detalle)
          (d_cantidad detalle) (d_precio_unitario detalle)
          (d_subtotal detalle) ;;
      let newStock :=
        Product.cantidad_disponible (d_product detalle) - d_cantidad detalle in
      create_details purchase rest (detallesCreados ++ [purchaseDetail])
        (stockUpdates ++ [(Product.id (d_product detalle), newStock)])
  end.

(** PASO 5, second loop. *)
Fixpoint update_stock (stockUpdates : list (Z * Z)) : M unit :=
  match stockUpdates with
  | [] => ret tt
  | (id, cantidad_disponible) :: rest =>
      Product_update id cantidad_disponible ;;;
      update_stock rest
  end.

Definition missing_message (missingIds : list Z) : string :=
  "Productos no encontrados o inactivos: " ++ join ", " (map show_Z missingIds).

(** The [catch] block. *)
Definition on_error (error : Error) : M Response :=
  rollback ;;;
  match error with
  | StoreRejected SequelizeTimeoutError | StoreRejected LockWaitTimeout =>
      ret (Json 503
             (Failure
                "El sistema está ocupado, intente nuevamente en unos segundos"
                []))
  | StoreRejected (SequelizeValidationError errors) =>
      ret (Json 400 (Failure "Error de validación de datos" errors))
  | StoreRejected SequelizeUniqueConstraintError =>
      ret (Json 409
             (Failure "Conflicto de datos únicos - intente nuevamente" []))
  | _ => ret (Next error)
  end.

(** The [try] block, from the check of the locked rows on. *)
Definition purchase_locked (user : User.t) (productos : list Item)
    (availableProducts : list Product.t) : M Response :=
  let productIds := map product_id productos in
  if negb (List.length availableProducts =? List.length productIds)%nat then
    rollback ;;;
    let foundIds := map Product.id availableProducts in
    let missingIds :=
      filter (fun id => negb (existsb (Z.eqb id) foundIds)) productIds in
    ret (Json 404 (Failure (missing_message missingIds) []))
  else
    priced <- price_lines productos availableProducts 0%Q [] ;;
    match priced with
    | inl response => ret response
    | inr (total, detalles) =>
        sequenced <- sequence_invoice maxAttempts 0 ;;
        match sequenced with
        | inl response => ret response
        | inr numeroFactura =>
            fecha_compra <- now env ;;
            purchase <-
              Purchase_create (User.id user) (JsNumber.toFixed2 total)
                (Some numeroFactura) completada fecha_compra ;;
            created <- create_details purchase detalles [] [] ;;
            update_stock (snd created) ;;;
            commit env ;;;
            completePurchase <- Purchase_findByPk (Purchase.id purchase) ;;
            ret (Json 201
                   (Created "Compra realizada exitosamente"
                            completePurchase))
        end
    end.

(** The [try] block. *)
Definition purchase_body (user : User.t) (body : RawBody) : M Response :=
  match purchaseSchema body with
  | inl message =>
      rollback ;;;
      ret (Json 400 (Failure "Error de validación de datos" [message]))
  | inr productos =>
      let productIds := map product_id productos in
      availableProducts <- Product_findAll_locked productIds ;;
      purchase_locked user productos availableProducts
  end.

(** The handler of POST /api/purchases. *)
Definition create_purchase (user : User.t) (body : RawBody) : M Response :=
  sequelize_transaction env ;;;
  try_catch (purchase_body user body) on_error.

(* ================================================================== *)
(** * The read routes (GET / and GET /:id) *)
(* ================================================================== *)

Definition is_cliente (user : User.t) : bool :=
  String.eqb (User.role user) "cliente".

(** [Math.ceil(count / limit)] for a positive [limit]. *)
Definition ceil_div (count limit : Z) : Z := (count + limit - 1) / limit.

(** The handler of GET /api/purchases. *)
Definition list_purchases (user : User.t) (query : RawQuery) : M Response :=
  try_catch
    (match queryParamsSchema query with
     | inl message =>
         ret (Json 400 (Failure "Parámetros de consulta inválidos" [message]))
     | inr (page, limit) =>
         let offset := (page - 1) * limit in
         let user_id := if is_cliente user then Some (User.id user) else None in
         let includeUser := negb (is_cliente user) in
         found <- Purchase_findAndCountAll user_id includeUser limit offset ;;
         let (count, purchases) := found in
         let totalPages := ceil_div count limit in
         ret (Json 200
                (PurchaseList purchases
                   (mkPagination page totalPages count limit
                                 (page <? totalPages) (1 <? page))))
     end)
    (fun error => ret (Next error)).

(** The handler of GET /api/purchases/:id.  The parameter is [None] when
    [!id || isNaN(id)], and otherwise the integer [parseInt(id)]. *)
Definition get_purchase (user : User.t) (id : option Z) : M Response :=
  try_catch
    (match id with
     | None => ret (Json 400 (Failure "ID de compra inválido" []))
     | Some id =>
         let user_id := if is_cliente user then Some (User.id user) else None in
         purchase <- Purchase_findOne (Some id) user_id ;;
         match purchase with
         | None =>
             ret (Json 404
                    (Failure
                       "Compra no encontrada o no tiene permisos para verla"
                       []))
         | Some p => ret (Json 200 (PurchaseData p))
         end
     end)
    (fun error => ret (Next error)).

(* ================================================================== *)
(** * Middleware ([src/middleware/auth.js]) *)
(* ================================================================== *)

(** [authorize(...roles)], for a request that [authenticate] has given its
    [req.user]. *)
Definition authorize (roles : list string) (user : User.t)
    (next : M Response) : M Response :=
  if existsb (String.eqb (User.role user)) roles then next
  else ret (Json 403
              (Failure "No tienes permisos para realizar esta acción" [])).

(** router.post('/', authenticate, authorize('cliente'), ...). *)
Definition post_purchases (user : User.t) (body : RawBody) : M Response :=
  authorize ["cliente"] user (create_purchase user body).

End Program.

(* ================================================================== *)
(** * Vocabulary of the statements *)
(* ================================================================== *)

Definition digit (d : Z) : ascii := ascii_of_nat (48 + Z.to_nat d).

(** The three decimal digits of a number of 0..999, zeros included. *)
Definition three_digits (n : Z) : string :=
  String (digit (n / 100))
    (String (digit (n / 10 mod 10)) (String (digit (n mod 10)) EmptyString)).

(** The invoice number made of a time stamp and a number of 0..999. *)
Definition invoice_number (timestamp n : Z) : string :=
  "FAC-" ++ show_Z timestamp ++ "-" ++ three_digits n.

(** All the invoice numbers of one millisecond. *)
Definition invoice_numbers_of (timestamp : Z) : list string :=
  map (fun n => invoice_number timestamp (Z.of_nat n)) (seq 0 1000).

(** The invoice number the generator builds at the given positions of the
    clock and of the random source. *)
Definition candidate (env : Env) (clock random : nat) : string :=
  "FAC-" ++ show_Z (Date_now env clock) ++ "-"
  ++ padStart 3 "0"
       (show_Z (JsNumber.floor (JsNumber.mul (Math_random env random) 1000))).

(** An invoice number is taken when a purchase row carries it. *)
Definition taken (nf : string) (db : DB) : bool :=
  existsb (has_invoice nf) (purchases db).

(** The checks of the first [k] candidates generated from the positions
    [clock] and [random] of the oracles. *)
Definition invoice_checks (env : Env) (clock random k : nat) : list Event :=
  map (fun j => EvSelectPurchaseByInvoice
                  (candidate env (clock + j) (random + j)))
      (seq 0 k).

Definition sequencing_exhausted : Response :=
  Json 500 (Failure "Error generando número de factura único" []).

(** The world after a store call was issued, and after the transaction
    changed its state. *)
Definition logged (ev : Event) (w : World) : World :=
  mkWorld (persisted w) (tx w) (log w ++ [ev]) (S (store_calls w))
          (clock_reads w) (random_reads w).

Definition with_tx (t : TxState) (w : World) : World :=
  mkWorld (persisted w) t (log w) (store_calls w) (clock_reads w)
          (random_reads w).


(** The world after one reading of the clock and of the random source. *)
Definition ticked (w : World) : World :=
  mkWorld (persisted w) (tx w) (log w) (store_calls w)
          (S (clock_reads w)) (S (random_reads w)).


(** ** The purchase, step by step, as functions of the tables *)

(** The rows the lock query returns. *)
Definition locked_products (ids : list Z) (db : DB) : list Product.t :=
  filter (fun p => (existsb (Z.eqb (Product.id p)) ids && Product.activo p)%bool)
         (products db).

(** The priced line of an item whose product is [product]. *)
Definition detalle_of (product : Product.t) (item : Item) : Detalle :=
  let precioUnitario := JsNumber.parseFloat_decimal (Product.precio product) in
  mkDetalle (Product.id product) (cantidad item) precioUnitario
            (JsNumber.toFixed2
               (JsNumber.mul precioUnitario (inject_Z (cantidad item))))
            product.

Definition detalles_of (available : list Product.t) (productos : list Item)
  : list Detalle :=
  flat_map (fun item =>
              match find (fun p => Product.id p =? product_id item) available with
              | Some product => [detalle_of product item]
              | None => []
              end) productos.

(** The running total of the handler: the subtotals, as numbers, added in
    the order of the cart. *)
Definition total_of (detalles : list Detalle) (total : Q) : Q :=
  fold_left (fun t d =>
               JsNumber.add t (JsNumber.mul (d_precio_unitario d)
                                            (inject_Z (d_cantidad d))))
            detalles total.

(** The line rows inserted for [detalles]. *)
Fixpoint detail_rows (existing : list PurchaseDetail.t) (purchase_id : Z)
    (detalles : list Detalle) : list PurchaseDetail.t :=
  match detalles with
  | [] => []
  | d :: rest =>
      let row :=
        PurchaseDetail.mk (next_id (map PurchaseDetail.id existing))
          purchase_id (d_product_id d) (d_cantidad d) (d_precio_unitario d)
          (JsNumber.toFixed2
             (JsNumber.mul (inject_Z (d_cantidad d)) (d_precio_unitario d))) in
      row :: detail_rows (existing ++ [row]) purchase_id rest
  end.

Definition stock_updates (detalles : list Detalle) : list (Z * Z) :=
  map (fun d => (Product.id (d_product d),
                 Product.cantidad_disponible (d_product d) - d_cantidad d))
      detalles.

Definition apply_updates (updates : list (Z * Z)) (ps : list Product.t)
  : list Product.t :=
  fold_left (fun ps u => map (set_stock (fst u) (snd u)) ps) updates ps.

(** A product after the cart was bought: its stock less the quantity of the
    line that names it, if one does. *)
Definition bought (productos : list Item) (p : Product.t) : Product.t :=
  match find (fun item => product_id item =? Product.id p) productos with
  | Some item =>
      Product.with_cantidad_disponible
        (Product.cantidad_disponible p - cantidad item) p
  | None => p
  end.

(** A cart whose products can all be locked: distinct products, each of
    them present and active, in a table whose key is [id]. *)
Definition lockable (productos : list Item) (db : DB) : Prop :=
  NoDup (map product_id productos)
  /\ NoDup (map Product.id (products db))
  /\ forall item, In item productos ->
       exists p, In p (products db)
                 /\ Product.id p = product_id item
                 /\ Product.activo p = true.

(** The line asks for no more than the stock of its product. *)
Definition in_stock (db : DB) (item : Item) : Prop :=
  forall p, In p (products db) -> Product.id p = product_id item ->
            cantidad item <= Product.cantidad_disponible p.

(** A cart that the tables can serve: lockable, and every line in stock. *)
Definition servable (productos : list Item) (db : DB) : Prop :=
  lockable productos db /\ Forall (in_stock db) productos.

(** The first [k] candidates are taken and the next one is free. *)
Definition first_free (env : Env) (w : World) (k : nat) : Prop :=
  (forall j, (j < k)%nat ->
     taken (candidate env (clock_reads w + j) (random_reads w + j))
           (persisted w) = true)
  /\ taken (candidate env (clock_reads w + k) (random_reads w + k))
           (persisted w) = false.

Definition no_rejection (env : Env) : Prop :=
  forall n, store_fault env n = None.

(** The purchase row inserted by a purchase whose sequencing stops at the
    candidate of index [k]. *)
Definition purchase_row (env : Env) (w : World) (user : User.t)
    (detalles : list Detalle) (k : nat) : Purchase.t :=
  Purchase.mk (next_id (map Purchase.id (purchases (persisted w))))
    (User.id user)
    (Date_now env (clock_reads w + S k))
    (JsNumber.toFixed2 (total_of detalles 0%Q))
    completada
    (Some (candidate env (clock_reads w + k) (random_reads w + k)))
    (Date_now env (clock_reads w + S (S k))).

(** The tables a successful purchase persists. *)
Definition purchased (env : Env) (w : World) (user : User.t)
    (productos : list Item) (k : nat) : DB :=
  let db := persisted w in
  let detalles :=
    detalles_of (locked_products (map product_id productos) db) productos in
  let row := purchase_row env w user detalles k in
  mkDB (users db)
       (apply_updates (stock_updates detalles) (products db))
       (purchases db ++ [row])
       (purchase_details db
        ++ detail_rows (purchase_details db) (Purchase.id row) detalles).

(** The store calls of a purchase that commits. *)
Definition success_log (env : Env) (w : World) (productos : list Item)
    (detalles : list Detalle) (k : nat) : list Event :=
  (log w ++ [EvBegin]
   ++ [EvSelectProductsForUpdate (map product_id productos)]
   ++ invoice_checks env (clock_reads w) (random_reads w) (S k)
   ++ [EvInsertPurchase]
   ++ map (fun d => EvInsertDetail (d_product_id d)) detalles
   ++ map (fun u => EvUpdateStock (fst u) (snd u)) (stock_updates detalles)
   ++ [EvCommit; EvSelectPurchase])%list.

(** ** Amounts *)

Section Amounts.
Local Open Scope Q_scope.

(** The largest amount of a DECIMAL(12,2) column is below 10^12 cents. *)
Definition decimal12 : Z := 10 ^ 12.

(** The drift allowed to the running total at each line. *)
Definition drift : Q := (4 * inject_Z decimal12 + 1) * JsNumber.u53.

(** The price of a DECIMAL(10,2) column, as a number, times a quantity. *)
Definition line_number (c q : Z) : Q :=
  JsNumber.mul (JsNumber.parseFloat_decimal c) (inject_Z q).



Definition count (lines : list (Z * Z)) : Q :=
  inject_Z (Z.of_nat (List.length lines)).

(** The largest number of lines for which the drift stays below half a
    cent. *)
Definition max_lines : nat := 1000.

End Amounts.


Definition sum_Z (l : list Z) : Z := fold_right Z.add 0 l.


(** ** Relations between the world before and after a computation *)

(** Every run of [m] takes a world to one related to it by [R]. *)
Definition Respects (R : World -> World -> Prop) {A} (m : M A) : Prop :=
  forall w, R w (snd (m w)).

(** Nothing persisted, and the purchase was not read back. *)
Definition before_commit (w w' : World) : Prop :=
  persisted w' = persisted w
  /\ (In EvSelectPurchase (log w') -> In EvSelectPurchase (log w)).

Definition not_read_back (ev : Event) : Prop := ev <> EvSelectPurchase.

Definition not_lock (ev : Event) : Prop :=
  forall ids, ev <> EvSelectProductsForUpdate ids.

(** The log grew by events that are not lock queries. *)
Definition no_more_locks (w w' : World) : Prop :=
  exists evs, log w' = (log w ++ evs)%list /\ Forall not_lock evs.

Definition is_created (r : Response) : Prop :=
  exists data, r = Json 201 (Created "Compra realizada exitosamente" data).

(** How a run of the [try] block of the purchase route can end: before the
    commit, with nothing persisted; or after it, by the answer 201 or by an
    error thrown by the read-back. *)
Definition Settled (m : M Response) : Prop :=
  forall w,
    ~ In EvSelectPurchase (log w) ->
    (persisted (snd (m w)) = persisted w
     /\ ~ In EvSelectPurchase (log (snd (m w))))
    \/ (In EvSelectPurchase (log (snd (m w)))
        /\ tx (snd (m w)) = Finished
        /\ ((exists e, fst (m w) = Throw e)
            \/ exists r, fst (m w) = Ok r /\ is_created r)).

(** A computation that persists nothing and does not read the purchase
    back. *)
Definition Pre {A} (m : M A) : Prop := Respects before_commit m.

(** A number beyond [Number.MAX_SAFE_INTEGER] on either side. *)
Definition beyond_safe (v : Q) : Prop :=
  (inject_Z MAX_SAFE_INTEGER < v)%Q \/ (v < inject_Z (- MAX_SAFE_INTEGER))%Q.

(** A body that [purchaseSchema] rejects for the length of the cart, for
    the quantity of a line, or for a product id or a quantity that is not a
    safe number. *)
Definition schema_malformed (body : RawBody) : Prop :=
  raw_productos body = Some []
  \/ (exists l it q,
        raw_productos body = Some l /\ In it l /\ raw_cantidad it = Some q
        /\ (is_integer q = false \/ (q <= 0)%Q))
  \/ (exists l it v,
        raw_productos body = Some l /\ In it l
        /\ (raw_product_id it = Some v \/ raw_cantidad it = Some v)
        /\ beyond_safe v).

(** ** What a client may see *)

(** The purchases of the user [u], and their lines. *)
Definition own (u : Z) (db : DB) : list Purchase.t :=
  filter (fun p => Purchase.user_id p =? u) (purchases db).

Definition own_details (u : Z) (db : DB) : list PurchaseDetail.t :=
  filter (fun d => existsb (fun p => Purchase.id p
                                     =? PurchaseDetail.purchase_id d)
                           (own u db))
         (purchase_details db).


(** The purchases a response shows. *)
Definition views_of (r : Response) : list PurchaseView :=
  match r with
  | Json _ (PurchaseData v) => [v]
  | Json _ (PurchaseList rows _) => rows
  | Json _ (Created _ (Some v)) => [v]
  | _ => []
  end.


Definition not_found : Response :=
  Json 404 (Failure "Compra no encontrada o no tiene permisos para verla" []).

(* ================================================================== *)
(** * Concrete environments and tables used by the examples *)
(* ================================================================== *)

(** No store call is rejected, the clock advances by a millisecond at each
    reading, the random source always returns 0.5. *)
Definition env_half : Env :=
  mkEnv (fun _ => None) (fun n => 1700000000000 + Z.of_nat n)
        (fun _ => (1 # 2)%Q).


Definition product_A : Product.t := Product.mk 1 "LOTE-A" "A" 1000 5 true.
Definition product_B : Product.t := Product.mk 2 "LOTE-B" "B" 500 5 true.

Definition cliente : User.t := User.mk 7 "Ana" "ana@example.com" "cliente".
Definition otro : User.t := User.mk 8 "Luis" "luis@example.com" "cliente".

(** The stock of the example of the specification: A = 5, B = 5. *)
Definition db_example : DB := mkDB [cliente; otro] [product_A; product_B] [] [].

Definition raw_item (id q : Z) : RawItem :=
  mkRawItem (Some (inject_Z id)) (Some (inject_Z q)).

(** cart = [{A, 2}, {B, 1}]. *)
Definition cart_example : RawBody :=
  mkRawBody (Some [raw_item 1 2; raw_item 2 1]).

Definition cart_items : list Item := [mkItem 1 2; mkItem 2 1].

(** The same cart, B first. *)
Definition cart_swapped : RawBody :=
  mkRawBody (Some [raw_item 2 1; raw_item 1 2]).

(** cart = [{A, 10}]. *)
Definition cart_too_much : RawBody := mkRawBody (Some [raw_item 1 10]).

(** cart = [{A, 1}, {A, 1}]. *)
Definition cart_duplicate : RawBody :=
  mkRawBody (Some [raw_item 1 1; raw_item 1 1]).

Definition cart_empty : RawBody := mkRawBody (Some []).

(** cart = [{A, 2^53}]: a quantity that is not a safe number. *)
Definition cart_unsafe : RawBody := mkRawBody (Some [raw_item 1 (2 ^ 53)]).

(** Two products of the same name, with a stock of 3 each, and the carts
    that ask for ten units of the one and of the other. *)
Definition db_homonyms : DB :=
  mkDB [cliente]
       [Product.mk 1 "LOTE-A" "A" 1000 3 true;
        Product.mk 2 "LOTE-B" "A" 500 3 true]
       [] [].

Definition cart_first_homonym : RawBody :=
  mkRawBody (Some [raw_item 1 10]).

Definition cart_second_homonym : RawBody :=
  mkRawBody (Some [raw_item 2 10]).

(** Tables in which the five invoice numbers that [env_half] generates
    first are taken. *)
Definition taken_purchase (i : Z) : Purchase.t :=
  Purchase.mk (i + 1) 8 0 100 completada
    (Some ("FAC-" ++ show_Z (1700000000000 + i) ++ "-500")) 0.

Definition db_taken : DB :=
  mkDB [cliente; otro] [product_A; product_B]
       (map taken_purchase [0; 1; 2; 3; 4]) [].

(** The store rejects its tenth call: for [cart_example], the read-back
    that follows the commit. *)
Definition env_read_back_fails : Env :=
  mkEnv (fun n => if (n =? 9)%nat then Some SequelizeDatabaseError else None)
        (fun n => 1700000000000 + Z.of_nat n) (fun _ => (1 # 2)%Q).




(** Two clients with one purchase each. *)
Definition db_two_clients : DB :=
  mkDB [cliente; otro] [product_A; product_B]
       [Purchase.mk 1 7 0 2000 completada (Some "FAC-1-001") 10;
        Purchase.mk 2 8 0 500 completada (Some "FAC-2-002") 20]
       [PurchaseDetail.mk 1 1 1 2 10%Q 2000;
        PurchaseDetail.mk 2 2 2 1 5%Q 500].

(** The same tables after the other client bought once more. *)
Definition db_two_clients_later : DB :=
  mkDB [cliente; otro] [product_A; product_B]
       [Purchase.mk 1 7 0 2000 completada (Some "FAC-1-001") 10;
        Purchase.mk 2 8 0 500 completada (Some "FAC-2-002") 20;
        Purchase.mk 3 8 0 1000 completada (Some "FAC-3-003") 30]
       [PurchaseDetail.mk 1 1 1 2 10%Q 2000;
        PurchaseDetail.mk 2 2 2 1 5%Q 500;
        PurchaseDetail.mk 3 3 1 1 10%Q 1000].

(** The status of a JSON response. *)
Definition status_of (r : Response) : option Z :=
  match r with
  | Json status _ => Some status
  | _ => None
  end.

(* ================================================================== *)
(** * Statements run outside a transaction *)
(* ================================================================== *)

Section Autocommit.

Variable env : Env.

(** A statement run without a transaction: it changes the persisted
    tables at once. *)
Definition write_persisted {A} (ev : Event) (q : DB -> A * DB) : M A :=
  store_call env ev ;;;
  db <- get_persisted ;;
  let (a, db') := q db in
  set_persisted db' ;;; ret a.

(** A statement run with [{ transaction }], where [transaction] is the
    open transaction ([true]) or null ([false]). *)
Definition run_statement {A} (transaction : bool) (ev : Event)
    (q : DB -> A * DB) : M A :=
  if transaction then in_transaction env ev q else write_persisted ev q.

End Autocommit.

(* ================================================================== *)
(** * The methods of a product ([src/models/Product.js]) *)
(* ================================================================== *)

Section ProductMethods.

Variable env : Env.

(** [tieneStock]: [this.cantidad_disponible >= cantidad]. *)
Definition tieneStock (this : Product.t) (cantidad : Z) : bool :=
  cantidad <=? Product.cantidad_disponible this.

(** [this.save()] of an instance whose [cantidad_disponible] was assigned,
    and was [previous] before: when the value is the one it had, no
    attribute has changed and nothing is sent; otherwise the validator of
    the column ([min: 0]) runs, and then the UPDATE of that column by key,
    outside any transaction. *)
Definition Product_save (previous : Z) (this : Product.t) : M unit :=
  if Product.cantidad_disponible this =? previous then ret tt
  else if Product.cantidad_disponible this <? 0 then
    throw (StoreRejected
             (SequelizeValidationError ["La cantidad no puede ser negativa"]))
  else
    write_persisted env
      (EvUpdateStock (Product.id this) (Product.cantidad_disponible this))
      (fun db =>
         (tt, mkDB (users db)
                   (map (set_stock (Product.id this)
                                   (Product.cantidad_disponible this))
                        (products db))
                   (purchases db) (purchase_details db))).

Definition reducirStock_message (this : Product.t) (cantidad : Z) : string :=
  "Stock insuficiente. Disponible: "
  ++ show_Z (Product.cantidad_disponible this)
  ++ ", Solicitado: " ++ show_Z cantidad.

(** [reducirStock], for an integer [cantidad].  [inl] carries the message
    of the Error the method throws; [inr] the instance as the method
    leaves it and the value it returns. *)
Definition reducirStock (this : Product.t) (cantidad : Z)
  : M (string + Product.t * bool) :=
  if negb (tieneStock this cantidad) then
    ret (inl (reducirStock_message this cantidad))
  else
    let previous := Product.cantidad_disponible this in
    let this :=
      Product.with_cantidad_disponible (previous - cantidad) this in
    Product_save previous this ;;;
    ret (inr (this, true)).

(** [aumentarStock], for an integer [cantidad]; the result is the instance
    as the method leaves it. *)
Definition aumentarStock (this : Product.t) (cantidad : Z) : M Product.t :=
  let previous := Product.cantidad_disponible this in
  let this :=
    Product.with_cantidad_disponible (previous + cantidad) this in
  Product_save previous this ;;;
  ret this.

End ProductMethods.

(* ================================================================== *)
(** * The other hooks and static methods of [src/models/Purchase.js] *)
(* ================================================================== *)

(** The [beforeUpdate] hook of [PurchaseDetail]; [changed] is
    [detail.changed]. *)
Definition PurchaseDetail_beforeUpdate (changed : string -> bool)
    (detail : PurchaseDetail.t) : PurchaseDetail.t :=
  if (changed "precio_unitario" || changed "cantidad")%bool then
    let cantidad := inject_Z (PurchaseDetail.cantidad detail) in
    let precioUnitario := PurchaseDetail.precio_unitario detail in
    PurchaseDetail.with_subtotal
      (JsNumber.toFixed2 (JsNumber.mul cantidad precioUnitario)) detail
  else detail.

(** An element of the [productos] handed to [createPurchaseWithDetails]:
    an integer quantity and a unit price that is a number. *)
Record PricedItem := mkPricedItem {
  item_cantidad : Z;
  item_precio_unitario : Q
}.

Section PurchaseStatics.

Variable env : Env.

(** [Purchase.create(values, { transaction })], for a transaction that may
    be null. *)
Definition Purchase_create_on (transaction : bool) (user_id total : Z)
    (numero_factura : option string) (estado : Estado) (fecha_compra : Z)
  : M Purchase.t :=
  created <- now env ;;
  let purchase :=
    Purchase.mk 0 user_id fecha_compra total estado numero_factura created in
  purchase <- Purchase_beforeCreate env purchase ;;
  purchase <- Purchase_beforeSave env purchase ;;
  run_statement env transaction EvInsertPurchase
    (fun db =>
       let row :=
         Purchase.mk (next_id (map Purchase.id (purchases db)))
           (Purchase.user_id purchase) (Purchase.fecha_compra purchase)
           (Purchase.total purchase) (Purchase.estado purchase)
           (Purchase.numero_factura purchase)
           (Purchase.created_at purchase) in
       (row, mkDB (users db) (products db) (purchases db ++ [row])
                  (purchase_details db))).

(** The total that [createPurchaseWithDetails] accumulates. *)
Definition items_total (productos : list PricedItem) : Q :=
  fold_left
    (fun total item =>
       let cantidad := inject_Z (item_cantidad item) in
       let precioUnitario := item_precio_unitario item in
       JsNumber.add total (JsNumber.mul cantidad precioUnitario))
    productos 0%Q.

(** [Purchase.createPurchaseWithDetails(userId, productos, transaction)].
    [fecha_compra] is left to its default, the time of the call. *)
Definition createPurchaseWithDetails (userId : Z)
    (productos : list PricedItem) (transaction : bool) : M Purchase.t :=
  try_catch
    (numeroFactura <- generateInvoiceNumber env ;;
     let total := items_total productos in
     fecha_compra <- now env ;;
     Purchase_create_on transaction userId (JsNumber.toFixed2 total)
       (Some numeroFactura) completada fecha_compra)
    (fun error => throw error).

(** [Purchase.isInvoiceNumberUnique(numeroFactura)]: the query runs
    without a transaction, and any error is answered [false]. *)
Definition isInvoiceNumberUnique (numeroFactura : string) : M bool :=
  try_catch
    (existing <-
       read_persisted env (EvSelectPurchaseByInvoice numeroFactura)
         (fun db => find (has_invoice numeroFactura) (purchases db)) ;;
     ret (match existing with Some _ => false | None => true end))
    (fun error => ret false).

End PurchaseStatics.

(* ================================================================== *)
(** * The other routes of [src/routes/purchases.js] *)
(* ================================================================== *)

(** What a route sends: the body of a success, or one of the responses of
    the purchase route (a failure body, an error passed on). *)
Inductive Answer (A : Type) :=
| Data (a : A)            (* res.json({ success: true, ... }) *)
| Plain (r : Response).
Arguments Data {A} a.
Arguments Plain {A} r.

(** What such a route answers: a handler that rejects sends nothing. *)
Definition reply {A} (m : M (Answer A)) (w : World) : Answer A * World :=
  match m w with
  | (Ok a, w') => (a, w')
  | (Throw e, w') => (Plain (Rejected e), w')
  end.

(** [authorize(...roles)] before a handler of another route. *)
Definition authorize_for {A} (roles : list string) (user : User.t)
    (next : M (Answer A)) : M (Answer A) :=
  if existsb (String.eqb (User.role user)) roles then next
  else ret (Plain (Json 403
                     (Failure "No tienes permisos para realizar esta acción"
                              []))).

(** [adminOnly] and [clientOnly] of [src/middleware/auth.js]. *)
Definition adminOnly {A} : User.t -> M (Answer A) -> M (Answer A) :=
  authorize_for ["admin"].

Definition clientOnly {A} : User.t -> M (Answer A) -> M (Answer A) :=
  authorize_for ["cliente"].

(** ** GET /history *)

Module History.

(** An element of [productHistory], without the time stamp of the line
    row, which the tables of this model do not hold. *)
Record entry := mkEntry {
  compra_id : Z;
  numero_factura : option string;
  fecha_compra : Z;
  estado : Estado;
  producto : option ProductAttrs;
  cantidad : Z;
  precio_unitario : Q;
  subtotal : Z
}.

Record totals := mkSummary {
  total_compras : Z;
  total_productos : Z;
  total_gastado : Z        (* the cents of the text of toFixed(2) *)
}.

Record t := mk {
  data : list entry;
  summary : totals
}.

End History.

(** [purchases.reduce((sum, p) => sum + parseFloat(p.total), 0)]. *)
Definition sum_totals (purchases : list PurchaseView) : Q :=
  fold_left
    (fun sum p =>
       JsNumber.add sum
         (JsNumber.parseFloat_decimal (Purchase.total (pv_purchase p))))
    purchases 0%Q.

Section HistoryRoute.

Variable env : Env.

(** [Purchase.findAll({ where: { user_id }, include,
    order: [['created_at', 'DESC']] })]. *)
Definition Purchase_findAll_of_user (user_id : Z) : M (list PurchaseView) :=
  read_persisted env EvSelectPurchase
    (fun db =>
       map (view false db)
           (order_desc (filter (matches None (Some user_id)) (purchases db)))).

Definition history_entries (purchases : list PurchaseView)
  : list History.entry :=
  flat_map
    (fun purchase =>
       map (fun detail =>
              History.mkEntry
                (Purchase.id (pv_purchase purchase))
                (Purchase.numero_factura (pv_purchase purchase))
                (Purchase.fecha_compra (pv_purchase purchase))
                (Purchase.estado (pv_purchase purchase))
                (snd detail)
                (PurchaseDetail.cantidad (fst detail))
                (PurchaseDetail.precio_unitario (fst detail))
                (PurchaseDetail.subtotal (fst detail)))
           (pv_details purchase))
    purchases.

(** The handler of GET /api/purchases/history. *)
Definition history (user : User.t) : M (Answer History.t) :=
  try_catch
    (purchases <- Purchase_findAll_of_user (User.id user) ;;
     let productHistory := history_entries purchases in
     ret (Data
            (History.mk productHistory
               (History.mkSummary
                  (Z.of_nat (List.length purchases))
                  (Z.of_nat (List.length productHistory))
                  (JsNumber.toFixed2 (sum_totals purchases))))))
    (fun error => ret (Plain (Next error))).

(** router.get('/history', authenticate, authorize('cliente'), ...). *)
Definition get_history (user : User.t) : M (Answer History.t) :=
  authorize_for ["cliente"] user (history user).

End HistoryRoute.

(** ** GET /admin/sales *)

Module Sales.

(** A value of [productosVendidos]. *)
Record vendido := mkVendido {
  producto : ProductAttrs;
  cantidad_total : Q;
  ingresos_total : Q;
  veces_vendido : Q
}.

Record totals := mkResumen {
  total_ventas : Z;           (* the cents of the text of toFixed(2) *)
  total_compras : Z;
  clientes_unicos : Z;
  promedio_por_compra : Z;    (* the cents of the text of toFixed(2) *)
  fecha_inicio : string;
  fecha_fin : string
}.

Record t := mk {
  resumen : totals;
  top_productos : list vendido;
  compras : list PurchaseView
}.

End Sales.

(** A JavaScript object whose keys are the texts of integers, as the list
    of its entries in the order of [Object.values]: the keys that are array
    indices (0 to 2^32 - 2) in ascending order, then the other keys in the
    order of their creation. *)
Definition is_index (k : Z) : bool := ((0 <=? k) && (k <? 2 ^ 32 - 1))%bool.

(** [o[k]]. *)
Fixpoint obj_get {V} (k : Z) (o : list (Z * V)) : option V :=
  match o with
  | [] => None
  | (k', v) :: rest => if k' =? k then Some v else obj_get k rest
  end.

(** [o[k] = v]. *)
Fixpoint obj_set {V} (k : Z) (v : V) (o : list (Z * V)) : list (Z * V) :=
  match o with
  | [] => [(k, v)]
  | (k', v') :: rest =>
      if k' =? k then (k, v) :: rest
      else if (is_index k && (negb (is_index k') || (k <? k')))%bool then
        (k, v) :: o
      else (k', v') :: obj_set k v rest
  end.

(** The body of the inner [forEach]: one line of a purchase is added to the
    entry of its product. *)
Definition record_sale (productosVendidos : list (Z * Sales.vendido))
    (detail : PurchaseDetail.t) (product : ProductAttrs)
  : list (Z * Sales.vendido) :=
  let productId := pa_id product in
  let productosVendidos :=
    match obj_get productId productosVendidos with
    | None =>
        obj_set productId (Sales.mkVendido product 0 0 0) productosVendidos
    | Some _ => productosVendidos
    end in
  match obj_get productId productosVendidos with
  | None => productosVendidos
  | Some v =>
      obj_set productId
        (Sales.mkVendido
           (Sales.producto v)
           (JsNumber.add (Sales.cantidad_total v)
                         (inject_Z (PurchaseDetail.cantidad detail)))
           (JsNumber.add (Sales.ingresos_total v)
                         (JsNumber.parseFloat_decimal
                            (PurchaseDetail.subtotal detail)))
           (JsNumber.add (Sales.veces_vendido v) 1))
        productosVendidos
  end.

(** The two nested [forEach], over the lines of all the purchases in
    order.  [None]: a line has no product, and reading its [id] throws. *)
Fixpoint tally (details : list (PurchaseDetail.t * option ProductAttrs))
    (productosVendidos : list (Z * Sales.vendido))
  : option (list (Z * Sales.vendido)) :=
  match details with
  | [] => Some productosVendidos
  | (detail, None) :: _ => None
  | (detail, Some product) :: rest =>
      tally rest (record_sale productosVendidos detail product)
  end.

(** [.sort((a, b) => b.cantidad_total - a.cantidad_total)]: the sort is
    stable, so the result is that of the insertion, from the last element
    to the first, of each element before the first one that is not
    larger. *)
Fixpoint insert_top (a : Sales.vendido) (l : list Sales.vendido)
  : list Sales.vendido :=
  match l with
  | [] => [a]
  | b :: rest =>
      if Qltb (Sales.cantidad_total a) (Sales.cantidad_total b) then
        b :: insert_top a rest
      else a :: l
  end.

Definition sort_top (l : list Sales.vendido) : list Sales.vendido :=
  fold_right insert_top [] l.

(** [order: [['fecha_compra', 'DESC']]], as [order_desc] orders by
    [created_at]. *)
Fixpoint insert_by_fecha (p : Purchase.t) (l : list Purchase.t)
  : list Purchase.t :=
  match l with
  | [] => [p]
  | q :: rest =>
      if Purchase.fecha_compra q <=? Purchase.fecha_compra p then p :: l
      else q :: insert_by_fecha p rest
  end.

Definition order_by_fecha (l : list Purchase.t) : list Purchase.t :=
  fold_right insert_by_fecha [] l.

(** A query parameter that is a non-empty text. *)
Definition given (s : option string) : option string :=
  match s with
  | Some s => if String.eqb s "" then None else Some s
  | None => None
  end.

Section SalesRoute.

Variable env : Env.

(** What the store answers to [fecha_compra >= new Date(startDate)] and to
    [fecha_compra <= new Date(endDate + ' 23:59:59')]: the handler hands
    the texts of the query over as they come. *)
Variable on_or_after : string -> Z -> bool.
Variable on_or_before : string -> Z -> bool.

Definition fecha_where (startDate endDate : option string) (p : Purchase.t)
  : bool :=
  (match given startDate with
   | Some s => on_or_after s (Purchase.fecha_compra p)
   | None => true
   end
   && match given endDate with
      | Some e => on_or_before (e ++ " 23:59:59") (Purchase.fecha_compra p)
      | None => true
      end)%bool.

(** [Purchase.findAll({ where, include,
    order: [['fecha_compra', 'DESC']] })]. *)
Definition Purchase_findAll_sold (startDate endDate : option string)
  : M (list PurchaseView) :=
  read_persisted env EvSelectPurchase
    (fun db =>
       map (view true db)
           (order_by_fecha
              (filter (fecha_where startDate endDate) (purchases db)))).

(** The handler of GET /api/purchases/admin/sales. *)
Definition sales (startDate endDate : option string) : M (Answer Sales.t) :=
  try_catch
    (purchases <- Purchase_findAll_sold startDate endDate ;;
     let totalVentas := sum_totals purchases in
     let totalCompras := Z.of_nat (List.length purchases) in
     let clientesUnicos :=
       Z.of_nat
         (List.length
            (nodup Z.eq_dec
                   (map (fun p => Purchase.user_id (pv_purchase p))
                        purchases))) in
     match tally (flat_map pv_details purchases) [] with
     | None => throw TypeError
     | Some productosVendidos =>
         let topProductos :=
           firstn 5 (sort_top (map snd productosVendidos)) in
         ret (Data
                (Sales.mk
                   (Sales.mkResumen
                      (JsNumber.toFixed2 totalVentas)
                      totalCompras
                      clientesUnicos
                      (if 0 <? totalCompras then
                         JsNumber.toFixed2
                           (JsNumber.fl (totalVentas / inject_Z totalCompras))
                       else 0)
                      (match given startDate with
                       | Some s => s
                       | None => "Sin límite"
                       end)
                      (match given endDate with
                       | Some e => e
                       | None => "Sin límite"
                       end))
                   topProductos
                   purchases))
     end)
    (fun error => ret (Plain (Next error))).

(** router.get('/admin/sales', authenticate, adminOnly, ...). *)
Definition get_sales (user : User.t) (startDate endDate : option string)
  : M (Answer Sales.t) :=
  adminOnly user (sales startDate endDate).

End SalesRoute.

(* ================================================================== *)
(** * Vocabulary of the further statements *)
(* ================================================================== *)

(** ** Hoare triples on the handler monad *)

(** From a world that satisfies [P], a run of [m] that returns [a] ends in a
    world that satisfies [Q a], and one that throws [e] in a world that
    satisfies [E e]. *)
Definition triple {A} (P : World -> Prop) (m : M A)
    (Q : A -> World -> Prop) (E : Error -> World -> Prop) : Prop :=
  forall w, P w ->
    match m w with
    | (Ok a, w') => Q a w'
    | (Throw e, w') => E e w'
    end.

(** Inside the transaction of a purchase that began on the tables [db0],
    with the working copy [working]. *)
Definition inside (db0 working : DB) (w : World) : Prop :=
  persisted w = db0 /\ tx w = Open working.

Definition untouched (db0 : DB) (w : World) : Prop := persisted w = db0.

(** ** What a purchase commits *)

(** The line finds its product among the locked rows, with enough stock. *)
Definition accepted_line (available : list Product.t) (item : Item) : Prop :=
  exists p,
    find (fun p => Product.id p =? product_id item) available = Some p
    /\ cantidad item <= Product.cantidad_disponible p.

(** The tables after the cart [productos] was bought on the tables [db],
    with the purchase row [row]. *)
Definition committed_tables (db : DB) (productos : list Item)
    (row : Purchase.t) : DB :=
  let detalles :=
    detalles_of (locked_products (map product_id productos) db) productos in
  mkDB (users db)
       (apply_updates (stock_updates detalles) (products db))
       (purchases db ++ [row])
       (purchase_details db
        ++ detail_rows (purchase_details db) (Purchase.id row) detalles).

(** The purchase row of a cart bought by [user]. *)
Definition committed_row (db : DB) (user : User.t) (productos : list Item)
    (nf : string) (fecha created : Z) : Purchase.t :=
  Purchase.mk (next_id (map Purchase.id (purchases db)))
    (User.id user) fecha
    (JsNumber.toFixed2
       (total_of (detalles_of (locked_products (map product_id productos) db)
                              productos) 0%Q))
    completada (Some nf) created.

(** [db'] is what the purchase of [body] by [user] commits on [db]: the
    cart passed the schema, every line found its locked product with enough
    stock, and the invoice number was free. *)
Definition commits (db : DB) (user : User.t) (body : RawBody) (db' : DB)
  : Prop :=
  exists productos nf fecha created,
    purchaseSchema body = inr productos
    /\ List.length (locked_products (map product_id productos) db)
       = List.length productos
    /\ Forall (accepted_line (locked_products (map product_id productos) db))
              productos
    /\ taken nf db = false
    /\ db' = committed_tables db productos
               (committed_row db user productos nf fecha created).

(** How a run of the purchase route that answers can end: by the answer
    201 with the purchase committed, or by another answer with the tables
    of the start. *)
Definition settled_answer (db : DB) (user : User.t) (body : RawBody)
    (r : Response) (w : World) : Prop :=
  (is_created r /\ commits db user body (persisted w))
  \/ (status_of r <> Some 201 /\ persisted w = db).

(** How a run that throws can end: with the tables of the start, or after
    the commit, the transaction finished. *)
Definition settled_throw (db : DB) (user : User.t) (body : RawBody)
    (w : World) : Prop :=
  persisted w = db
  \/ (commits db user body (persisted w) /\ tx w = Finished).

(** ** Invariants of the tables *)

(** No product has a negative stock. *)
Definition stock_nonneg (db : DB) : Prop :=
  Forall (fun p => 0 <= Product.cantidad_disponible p) (products db).

(** The invoice numbers of the purchases that have one. *)
Definition invoices (db : DB) : list string :=
  flat_map (fun p => match Purchase.numero_factura p with
                     | Some s => [s]
                     | None => []
                     end)
           (purchases db).

(** The keys of the tables are keys: no two rows of a table share an [id],
    no two purchases an invoice number. *)
Definition keys_unique (db : DB) : Prop :=
  NoDup (map Product.id (products db))
  /\ NoDup (map Purchase.id (purchases db))
  /\ NoDup (map PurchaseDetail.id (purchase_details db))
  /\ NoDup (invoices db).

(** Every line row refers to a purchase and to a product of the tables. *)
Definition references_hold (db : DB) : Prop :=
  Forall (fun d =>
            In (PurchaseDetail.purchase_id d) (map Purchase.id (purchases db))
            /\ In (PurchaseDetail.product_id d)
                  (map Product.id (products db)))
         (purchase_details db).

(** A product without its stock. *)
Definition catalog_entry (p : Product.t)
  : Z * string * string * Z * bool :=
  (Product.id p, Product.numero_lote p, Product.nombre p, Product.precio p,
   Product.activo p).

(** The stock of the product [id], and the units of it that the line rows
    record as sold. *)
Definition stock_of (id : Z) (db : DB) : Z :=
  sum_Z (map Product.cantidad_disponible
             (filter (fun p => Product.id p =? id) (products db))).

Definition sold_of (id : Z) (db : DB) : Z :=
  sum_Z (map PurchaseDetail.cantidad
             (filter (fun d => PurchaseDetail.product_id d =? id)
                     (purchase_details db))).

(** ** Pages of purchases *)

(** The purchases that GET / lists for [user]: a client's own, and all of
    them for any other role. *)
Definition visible_to (user : User.t) (db : DB) : list Purchase.t :=
  filter (matches None (if is_cliente user then Some (User.id user) else None))
         (purchases db).

(** The query ?page=..&limit=.. *)
Definition page_query (page limit : Z) : RawQuery :=
  mkRawQuery (Some (inject_Z page)) (Some (inject_Z limit)).

(** Numbers in descending order. *)
Fixpoint descending (l : list Z) : Prop :=
  match l with
  | [] => True
  | x :: rest => Forall (fun y => y <= x) rest /\ descending rest
  end.

(** Numbers in descending order, no two of them equal. *)
Fixpoint strictly_descending (l : list Z) : Prop :=
  match l with
  | [] => True
  | x :: rest => Forall (fun y => y < x) rest /\ strictly_descending rest
  end.

(** The rows that a purchase makes when it is joined with its lines: one
    for each line, and one when it has no line. *)
Definition joined_lines (db : DB) (purchase : Purchase.t) : Z :=
  Z.max 1
    (Z.of_nat
       (List.length
          (filter (fun d => PurchaseDetail.purchase_id d
                            =? Purchase.id purchase)
                  (purchase_details db)))).

(** The time stamps of the purchases a response lists. *)
Definition listed_stamps (r : Response) : list Z :=
  map (fun v => Purchase.created_at (pv_purchase v)) (views_of r).

(** A page or a limit that [queryParamsSchema] refuses. *)
Definition out_of_range (q : RawQuery) : Prop :=
  (exists p, raw_page q = Some p /\ (is_integer p = false \/ (p < 1)%Q))
  \/ (exists l, raw_limit q = Some l
                /\ (is_integer l = false \/ (l < 1)%Q \/ (100 < l)%Q)).

(** ** Products, line rows and purchases outside the purchase route *)

(** The tables a statement sees: the working copy of the open transaction
    when it is given the transaction, the persisted tables otherwise. *)
Definition tables_of (transaction : bool) (w : World) : option DB :=
  if transaction then
    match tx w with
    | Open working => Some working
    | _ => None
    end
  else Some (persisted w).

(** ** Sums of amounts *)

(** The running sum of the amounts of DECIMAL(12,2) columns holding [cs]
    cents, each read by [parseFloat], from [t] on. *)
Definition sum_decimals (cs : list Z) (t : Q) : Q :=
  fold_left (fun sum c => JsNumber.add sum (JsNumber.parseFloat_decimal c))
            cs t.

(** The lines a history shows, and the line rows of the tables, as
    (purchase, product, quantity, unit price, subtotal). *)
Definition entry_line (e : History.entry) : Z * option Z * Z * Q * Z :=
  (History.compra_id e, option_map pa_id (History.producto e),
   History.cantidad e, History.precio_unitario e, History.subtotal e).

Definition detail_line (db : DB) (d : PurchaseDetail.t)
  : Z * option Z * Z * Q * Z :=
  (PurchaseDetail.purchase_id d,
   option_map pa_id (product_attrs db (PurchaseDetail.product_id d)),
   PurchaseDetail.cantidad d, PurchaseDetail.precio_unitario d,
   PurchaseDetail.subtotal d).

(** ** The sales report *)

(** The keys of a JavaScript object in the order of [Object.values]: no
    key comes twice, and a key that is an array index comes before every
    key that is not, and before every larger index. *)
Fixpoint js_ordered (keys : list Z) : Prop :=
  match keys with
  | [] => True
  | k :: rest =>
      (forall k', In k' rest ->
         k <> k' /\ (is_index k' = true -> is_index k = true /\ k < k'))
      /\ js_ordered rest
  end.

(** The lines of the product [k] among the lines of the purchases. *)
Definition lines_of_product (k : Z)
    (lines : list (PurchaseDetail.t * option ProductAttrs))
  : list PurchaseDetail.t :=
  map fst
      (filter (fun l => match snd l with
                        | Some product => pa_id product =? k
                        | None => false
                        end) lines).



(** A line of a purchase whose product is not in the tables. *)
Definition dangling_line (db : DB) (p : Purchase.t) (d : PurchaseDetail.t)
  : Prop :=
  In d (purchase_details db)
  /\ PurchaseDetail.purchase_id d = Purchase.id p
  /\ ~ In (PurchaseDetail.product_id d) (map Product.id (products db)).

(** One line added to the tally of its product. *)
Definition bump (v : Sales.vendido) (d : PurchaseDetail.t) : Sales.vendido :=
  Sales.mkVendido
    (Sales.producto v)
    (JsNumber.add (Sales.cantidad_total v)
                  (inject_Z (PurchaseDetail.cantidad d)))
    (JsNumber.add (Sales.ingresos_total v)
                  (JsNumber.parseFloat_decimal (PurchaseDetail.subtotal d)))
    (JsNumber.add (Sales.veces_vendido v) 1).

(** The entry of the product [k] after the lines [lines], from the entry
    [cur] on. *)
Definition entry_after (k : Z)
    (lines : list (PurchaseDetail.t * option ProductAttrs))
    (cur : option Sales.vendido) : option Sales.vendido :=
  fold_left
    (fun cur l =>
       match snd l with
       | Some product =>
           if pa_id product =? k then
             Some (bump (match cur with
                         | Some v => v
                         | None => Sales.mkVendido product 0 0 0
                         end) (fst l))
           else cur
       | None => cur
       end)
    lines cur.

(** The largest integer below which every integer is a JavaScript
    number. *)
Definition max_safe : Z := 2 ^ 53.

(** The purchases of the report for a range of dates. *)
Definition in_range (on_or_after on_or_before : string -> Z -> bool)
    (startDate endDate : option string) (db : DB) : list Purchase.t :=
  filter (fecha_where on_or_after on_or_before startDate endDate)
         (purchases db).

Definition is_admin (user : User.t) : bool :=
  String.eqb (User.role user) "admin".

(* ================================================================== *)
(** * Concrete environments and tables of the further examples *)
(* ================================================================== *)

Definition administrador : User.t :=
  User.mk 1 "Eva" "eva@example.com" "admin".

(** A cart that asks for a product the tables do not hold. *)
Definition cart_missing : RawBody := mkRawBody (Some [raw_item 9 1]).

(** The lock query, the second call to the store, waits for a lock until
    the store gives up. *)
Definition env_lock_timeout : Env :=
  mkEnv (fun n => if (n =? 1)%nat then Some LockWaitTimeout else None)
        (fun n => 1700000000000 + Z.of_nat n) (fun _ => (1 # 2)%Q).

(** One purchase of two units of A. *)
Definition db_one_sale : DB :=
  mkDB [cliente; otro] [product_A; product_B]
       [Purchase.mk 1 7 0 2000 completada (Some "FAC-1-001") 10]
       [PurchaseDetail.mk 1 1 1 2 10%Q 2000].

(** The same purchase after the product was removed from the tables. *)
Definition db_dangling : DB :=
  mkDB [cliente; otro] [product_B]
       [Purchase.mk 1 7 0 2000 completada (Some "FAC-1-001") 10]
       [PurchaseDetail.mk 1 1 1 2 10%Q 2000].

(** A store for which every purchase lies on the right side of every
    date. *)
Definition every_date : string -> Z -> bool := fun _ _ => true.

(** One purchase of two lines. *)
Definition db_two_lines : DB :=
  mkDB [cliente; otro] [product_A; product_B]
       [Purchase.mk 1 7 0 2500 completada (Some "FAC-1-001") 10]
       [PurchaseDetail.mk 1 1 1 2 10%Q 2000;
        PurchaseDetail.mk 2 1 2 1 5%Q 500].

(** A line row of two units at 10.00, before its subtotal is computed. *)
Definition detail_example : PurchaseDetail.t :=
  PurchaseDetail.mk 0 1 1 2 (JsNumber.parseFloat_decimal 1000) 0.
Module JsNumberExamples.
Import JsNumber.
Local Open Scope Q_scope.

Example fl_tenth :
  fl (1 # 10) = 3602879701896397 # 36028797018963968.
Proof. vm_compute. reflexivity. Qed.

Example add_tenth_fifth :
  add (fl (1 # 10)) (fl (2 # 10)) = 1351079888211149 # 4503599627370496.
Proof. vm_compute. reflexivity. Qed.

Example fl_tie_even : fl (inject_Z (2 ^ 53 + 1)) = inject_Z (2 ^ 53).
Proof. vm_compute. reflexivity. Qed.

Example fl_tie_even_up : fl (inject_Z (2 ^ 53 + 3)) = inject_Z (2 ^ 53 + 4).
Proof. vm_compute. reflexivity. Qed.

Example toFixed2_1005 : toFixed2 (fl (1005 # 1000)) = 100%Z.
Proof. vm_compute. reflexivity. Qed.

Example toFixed2_price : toFixed2 (mul (parseFloat_decimal 1999) (of_Z 3)) = 5997%Z.
Proof. vm_compute. reflexivity. Qed.

End JsNumberExamples.

(* ================================================================== *)
(** * Rounding error of JavaScript arithmetic *)
(* ================================================================== *)

Module JsNumberFacts.
Import JsNumber.
Local Open Scope Q_scope.

Lemma rne_bounds (y : Q) :
  inject_Z (rne y) - y <= 1 # 2 /\ y - inject_Z (rne y) <= 1 # 2.
Proof.
  unfold rne.
  pose proof (Qfloor_le y) as Hlo.
  pose proof (Qlt_floor y) as Hhi.
  rewrite inject_Z_plus in Hhi. change (inject_Z 1) with 1 in Hhi.
  destruct (Qcompare (y - inject_Z (Qfloor y)) (1 # 2)) eqn:E.
  - apply Qeq_alt in E.
    destruct (Z.even (Qfloor y));
      [|rewrite inject_Z_plus; change (inject_Z 1) with 1]; split; lra.
  - apply Qlt_alt in E. split; lra.
  - apply Qgt_alt in E. rewrite inject_Z_plus. change (inject_Z 1) with 1.
    split; lra.
Qed.

Lemma pow2_pos (e : Z) : 0 < 2 ^ e.
Proof. apply Qpower_0_lt. reflexivity. Qed.

Lemma pow2_succ (e : Z) : 2 ^ (e + 1) == 2 * 2 ^ e.
Proof. rewrite Qpower_plus by discriminate. change (2 ^ 1) with 2. ring. Qed.

Lemma pow2_Z [n : Z] : (0 <= n)%Z -> inject_Z (2 ^ n) == 2 ^ n.
Proof. intros. now rewrite Zpower_Qpower. Qed.

Lemma ilog2_le (x : Q) : 0 < x -> 2 ^ (ilog2 x) <= x.
Proof.
  intros Hx. unfold ilog2.
  set (l := (Z.log2 (Qnum x) - Z.log2 (Z.pos (Qden x)))%Z).
  destruct (Qle_bool (2 ^ l) x) eqn:E.
  - now apply Qle_bool_iff.
  - destruct x as [a b]. cbn [Qnum Qden] in l.
    assert (Ha : (0 < a)%Z) by (unfold Qlt in Hx; simpl in Hx; lia).
    destruct (Z.log2_spec a Ha) as [Ha1 _].
    destruct (Z.log2_spec (Z.pos b) (Pos2Z.is_pos b)) as [_ Hb2].
    pose proof (Z.log2_nonneg a) as La. pose proof (Z.log2_nonneg (Z.pos b)) as Lb.
    assert (El : 2 ^ (l - 1) * 2 ^ (Z.succ (Z.log2 (Z.pos b))) == 2 ^ Z.log2 a).
    { rewrite <- Qpower_plus by discriminate. apply Qpower_comp; try reflexivity. unfold l. lia. }
    rewrite <- (pow2_Z (n:=Z.succ (Z.log2 (Z.pos b)))), <- (pow2_Z (n:=Z.log2 a)) in El by lia.
    assert (Hb3 : inject_Z (Z.pos b) < inject_Z (2 ^ Z.succ (Z.log2 (Z.pos b)))) by (rewrite <- Zlt_Qlt; exact Hb2).
    assert (Ha3 : inject_Z (2 ^ Z.log2 a) <= inject_Z a) by (rewrite <- Zle_Qle; exact Ha1).
    assert (Hq : a # b == inject_Z a / inject_Z (Z.pos b)) by (apply Qmake_Qdiv).
    rewrite Hq.
    assert (Hbpos : 0 < inject_Z (Z.pos b)) by reflexivity.
    apply Qle_shift_div_l; auto.
    pose proof (pow2_pos (l - 1)).
    nra.
Qed.

Lemma ilog2_lt (x : Q) : 0 < x -> x < 2 ^ (ilog2 x + 1).
Proof.
  intros Hx. unfold ilog2.
  set (l := (Z.log2 (Qnum x) - Z.log2 (Z.pos (Qden x)))%Z).
  destruct (Qle_bool (2 ^ l) x) eqn:E.
  - destruct x as [a b]. cbn [Qnum Qden] in l.
    assert (Ha : (0 < a)%Z) by (unfold Qlt in Hx; simpl in Hx; lia).
    destruct (Z.log2_spec a Ha) as [_ Ha2].
    destruct (Z.log2_spec (Z.pos b) (Pos2Z.is_pos b)) as [Hb1 _].
    pose proof (Z.log2_nonneg a) as La. pose proof (Z.log2_nonneg (Z.pos b)) as Lb.
    assert (El : 2 ^ (l + 1) * 2 ^ (Z.log2 (Z.pos b)) == 2 ^ Z.succ (Z.log2 a)).
    { rewrite <- Qpower_plus by discriminate. apply Qpower_comp; try reflexivity. unfold l. lia. }
    rewrite <- (pow2_Z (n:=Z.succ (Z.log2 a))), <- (pow2_Z (n:=Z.log2 (Z.pos b))) in El by lia.
    assert (Hb3 : inject_Z (2 ^ Z.log2 (Z.pos b)) <= inject_Z (Z.pos b)) by (rewrite <- Zle_Qle; exact Hb1).
    assert (Ha3 : inject_Z a < inject_Z (2 ^ Z.succ (Z.log2 a))) by (rewrite <- Zlt_Qlt; exact Ha2).
    rewrite (Qmake_Qdiv a b).
    assert (Hbpos : 0 < inject_Z (Z.pos b)) by reflexivity.
    apply Qlt_shift_div_r; auto.
    pose proof (pow2_pos (l + 1)).
    nra.
  - replace (l - 1 + 1)%Z with l by lia.
    apply Qnot_le_lt. intros H. apply Qle_bool_iff in H. congruence.
Qed.

Lemma round53_error (x : Q) :
  0 < x -> x * (1 - u53) <= round53 x /\ round53 x <= x * (1 + u53).
Proof.
  intros Hx. unfold round53.
  set (e := (ilog2 x - 52)%Z).
  pose proof (pow2_pos e) as He.
  destruct (rne_bounds (x / 2 ^ e)) as [B1 B2].
  set (m := inject_Z (rne (x / 2 ^ e))) in *.
  assert (Hy : x / 2 ^ e * 2 ^ e == x) by (field; lra).
  set (y := x / 2 ^ e) in *.
  assert (Hle : 2 ^ e * inject_Z (2 ^ 52) <= x).
  { rewrite pow2_Z by lia. rewrite <- Qpower_plus by discriminate.
    replace (e + 52)%Z with (ilog2 x) by (unfold e; lia).
    now apply ilog2_le. }
  assert (Hu : u53 * inject_Z (2 ^ 52) == 1 # 2) by reflexivity.
  set (P := inject_Z (2 ^ 52)) in *.
  assert (0 < P) by reflexivity.
  assert (K1 : (m - y) * 2 ^ e <= (1 # 2) * 2 ^ e) by (apply Qmult_le_compat_r; lra).
  assert (K2 : (y - m) * 2 ^ e <= (1 # 2) * 2 ^ e) by (apply Qmult_le_compat_r; lra).
  assert (K3 : u53 * (2 ^ e * P) <= u53 * x) by (apply Qmult_le_l; [reflexivity | exact Hle]).
  split; nra.
Qed.

Lemma fl_error (x : Q) :
  0 < x -> x * (1 - u53) <= fl x /\ fl x <= x * (1 + u53).
Proof.
  intros Hx. unfold fl.
  destruct (Qcompare x 0) eqn:E.
  - apply Qeq_alt in E. lra.
  - apply Qlt_alt in E. lra.
  - rewrite Qred_correct. now apply round53_error.
Qed.

Lemma fl_zero (x : Q) : x == 0 -> fl x = 0.
Proof. intros H. unfold fl. apply Qeq_alt in H. now rewrite H. Qed.

Lemma fl_nonneg (x : Q) : 0 <= x -> 0 <= fl x.
Proof.
  intros Hx. destruct (Qeq_dec x 0) as [E|E].
  - rewrite (fl_zero E). lra.
  - assert (Hp : 0 < x) by (apply Qle_lt_or_eq in Hx; destruct Hx; [auto | exfalso; apply E; symmetry; auto]).
    destruct (fl_error Hp) as [L _].
    assert (0 < 1 - u53) by reflexivity. nra.
Qed.


Lemma Qmult_comm_eq (a b : Q) : a * b = b * a.
Proof.
  unfold Qmult. f_equal; [apply Z.mul_comm | apply Pos.mul_comm].
Qed.

Lemma mul_comm (a b : Q) : mul a b = mul b a.
Proof. unfold mul. now rewrite Qmult_comm_eq. Qed.

Lemma ilog2_half_one (r : Q) : 1 # 2 < r -> r < 1 -> ilog2 r = (-1)%Z.
Proof.
  intros H1 H2.
  assert (Hp : 0 < r) by lra.
  pose proof (ilog2_le Hp) as L. pose proof (ilog2_lt Hp) as U.
  assert (A : (ilog2 r < 0)%Z).
  { apply (Qpower_lt_compat_l_inv 2); [|reflexivity].
    change (2 ^ 0) with 1. lra. }
  assert (B : (-1 < ilog2 r + 1)%Z).
  { apply (Qpower_lt_compat_l_inv 2); [|reflexivity].
    change (2 ^ (-1)) with (/ 2). 
    assert (/ 2 == 1 # 2) by reflexivity. lra. }
  lia.
Qed.

Lemma unit_double_max (r : Q) : unit_double r -> r <= 1 - u53.
Proof.
  intros (H0 & H1 & Hfl).
  destruct (Qlt_le_dec (1 # 2) r) as [Hr|Hr].
  - assert (Hp : 0 < r) by lra.
    unfold fl in Hfl.
    destruct (Qcompare r 0) eqn:E.
    + apply Qeq_alt in E. lra.
    + apply Qlt_alt in E. lra.
    + rewrite Qred_correct in Hfl. unfold round53 in Hfl.
      rewrite (ilog2_half_one Hr H1) in Hfl.
      change (-1 - 52)%Z with (-53)%Z in Hfl.
      set (m := rne (r / 2 ^ (-53))) in *.
      assert (P : 2 ^ (-53) == u53) by reflexivity.
      rewrite P in Hfl.
      assert (Hm : inject_Z m < inject_Z (2 ^ 53)).
      { assert (Q53 : inject_Z (2 ^ 53) * u53 == 1) by reflexivity.
        assert (0 < u53) by reflexivity. nra. }
      rewrite <- Zlt_Qlt in Hm.
      assert (Hm' : inject_Z m <= inject_Z (2 ^ 53 - 1)) by (rewrite <- Zle_Qle; lia).
      assert (Q53' : inject_Z (2 ^ 53 - 1) * u53 == 1 - u53) by reflexivity.
      assert (0 < u53) by reflexivity. nra.
  - assert (1 # 2 <= 1 - u53) by (unfold Qle; simpl; lia). lra.
Qed.

(** [Math.floor(Math.random() * 1000)] lies in 0..999. *)
Lemma random_thousand (r : Q) :
  unit_double r -> (0 <= floor (mul r 1000) <= 999)%Z.
Proof.
  intros Hr. pose proof (unit_double_max Hr) as Hmax.
  destruct Hr as (H0 & H1 & _).
  unfold floor, mul.
  assert (Hn : 0 <= fl (r * 1000)) by (apply fl_nonneg; lra).
  assert (Hlt : fl (r * 1000) < 1000).
  { destruct (Qeq_dec (r * 1000) 0) as [E|E].
    - rewrite (fl_zero E). reflexivity.
    - assert (Hp : 0 < r * 1000).
      { apply Qle_lt_or_eq in H0. destruct H0 as [H0|H0]; [lra|].
        exfalso. apply E. rewrite <- H0. reflexivity. }
      destruct (fl_error Hp) as [_ U].
      assert (Hu : 0 < u53) by reflexivity.
      assert (Hu1 : u53 < 1) by reflexivity.
      nra. }
  split.
  - change 0%Z with (Qfloor 0). now apply Qfloor_resp_le.
  - assert (K : (Qfloor (fl (r * 1000)) < 1000)%Z).
    { rewrite Zlt_Qlt. eapply Qle_lt_trans; [apply Qfloor_le | exact Hlt]. }
    lia.
Qed.

End JsNumberFacts.

(* ================================================================== *)
(** * Amounts computed with JavaScript numbers *)
(* ================================================================== *)

Module MoneyFacts.
Import JsNumber JsNumberFacts.
Local Open Scope Q_scope.

Lemma toFixed2_near (x : Q) (n : Z) :
  0 <= x ->
  inject_Z n - (49 # 100) <= x * 100 -> x * 100 <= inject_Z n + (49 # 100) ->
  toFixed2 x = n.
Proof.
  intros Hx Hlo Hhi. unfold toFixed2.
  assert (F : Qfloor (x * 100 + (1 # 2)) = n).
  { pose proof (Qfloor_le (x * 100 + (1 # 2))) as A.
    pose proof (Qlt_floor (x * 100 + (1 # 2))) as B.
    rewrite inject_Z_plus in B. change (inject_Z 1) with 1 in B.
    set (f := Qfloor (x * 100 + (1 # 2))) in *.
    assert (L : inject_Z f < inject_Z (n + 1)).
    { rewrite inject_Z_plus. change (inject_Z 1) with 1. lra. }
    assert (U : inject_Z (n - 1) < inject_Z f).
    { unfold Z.sub. rewrite inject_Z_plus. change (inject_Z (Z.opp 1)) with (Qopp 1). lra. }
    rewrite <- Zlt_Qlt in L, U. lia. }
  destruct (Qcompare x 0) eqn:E; auto.
  apply Qlt_alt in E. lra.
Qed.

Lemma line_number_bounds (c q : Z) :
  (1 <= c)%Z -> (1 <= q)%Z ->
  let s := inject_Z (c * q) in
  s * (1 - 3 * u53) <= line_number c q * 100
  /\ line_number c q * 100 <= s * (1 + 3 * u53)
  /\ 0 < line_number c q.
Proof.
  intros Hc Hq s. unfold line_number, mul, parseFloat_decimal.
  assert (Hcq : 0 < inject_Z c) by (change 0 with (inject_Z 0); rewrite <- Zlt_Qlt; lia).
  assert (Hqq : 0 < inject_Z q) by (change 0 with (inject_Z 0); rewrite <- Zlt_Qlt; lia).
  assert (Hx : 0 < inject_Z c / 100).
  { apply Qlt_shift_div_l; [reflexivity | lra]. }
  destruct (fl_error Hx) as [P1 P2].
  set (P := fl (inject_Z c / 100)) in *.
  assert (Hu : 0 < u53) by reflexivity.
  assert (Hu1 : u53 < 1 # 1000) by reflexivity.
  assert (HP : 0 < P) by nra.
  assert (HPq : 0 < P * inject_Z q) by nra.
  destruct (fl_error HPq) as [S1 S2].
  set (S := fl (P * inject_Z q)) in *.
  assert (Es : s == inject_Z c * inject_Z q) by (unfold s; rewrite inject_Z_mult; reflexivity).
  assert (Ex : inject_Z c / 100 * 100 == inject_Z c) by (field).
  set (x := inject_Z c / 100) in *.
  assert (Hs : 0 < s) by (rewrite Es; nra).
  assert (K1 : x * (1 - u53) * inject_Z q <= P * inject_Z q) by nra.
  assert (K2 : P * inject_Z q <= x * (1 + u53) * inject_Z q) by nra.
  assert (K3 : x * inject_Z q * 100 == s) by (rewrite Es; nra).
  set (y := x * inject_Z q) in *.
  assert (Ky1 : y * (1 - u53) <= P * inject_Z q) by (unfold y; nra).
  assert (Ky2 : P * inject_Z q <= y * (1 + u53)) by (unfold y; nra).
  assert (Hy : 0 < y) by (unfold y; nra).
  set (z := P * inject_Z q) in *.
  repeat split.
  - assert (y * (1 - u53) * (1 - u53) <= S) by nra.
    assert (y * (1 - 3 * u53) <= y * (1 - u53) * (1 - u53)) by nra.
    nra.
  - assert (S <= y * (1 + u53) * (1 + u53)) by nra.
    assert (y * (1 + u53) * (1 + u53) <= y * (1 + 3 * u53)) by nra.
    nra.
  - nra.
Qed.







Lemma line_subtotal_exact (c q : Z) :
  (1 <= c)%Z -> (1 <= q)%Z -> (c * q <= decimal12)%Z ->
  toFixed2 (line_number c q) = (c * q)%Z.
Proof.
  intros Hc Hq Hb.
  destruct (line_number_bounds Hc Hq) as (S1 & S2 & Spos). cbv zeta in S1, S2.
  set (C := inject_Z (c * q)) in *.
  assert (HC : 0 < C) by (unfold C; change 0 with (inject_Z 0); rewrite <- Zlt_Qlt; nia).
  assert (HB : C <= inject_Z decimal12) by (unfold C; rewrite <- Zle_Qle; exact Hb).
  assert (HBu : inject_Z decimal12 * (3 * u53) <= 49 # 100) by (unfold Qle; simpl; lia).
  assert (Hu : 0 < u53) by reflexivity.
  assert (HCu : C * (3 * u53) <= inject_Z decimal12 * (3 * u53))
    by (apply Qmult_le_compat_r; lra).
  apply toFixed2_near; fold C; lra.
Qed.

End MoneyFacts.

(* ================================================================== *)
(** * Running the store primitives *)
(* ================================================================== *)

Section StoreFacts.

Variable env : Env.

Lemma in_transaction_run {A} (ev : Event) (q : DB -> A * DB) (w : World) :
  in_transaction env ev q w =
  match store_fault env (store_calls w) with
  | Some e => (Throw (StoreRejected e), logged ev w)
  | None =>
      match tx w with
      | Open working =>
          (Ok (fst (q working)),
           with_tx (Open (snd (q working))) (logged ev w))
      | _ => (Throw TransactionFinished, logged ev w)
      end
  end.
Proof.
  unfold in_transaction, bind, store_call, get_tx, logged, with_tx.
  destruct (store_fault env (store_calls w)); [reflexivity|].
  cbn. destruct (tx w); try reflexivity.
  destruct (q working). reflexivity.
Qed.

Lemma rollback_run (w : World) :
  rollback w =
  match tx w with
  | Open _ =>
      (Ok tt, mkWorld (persisted w) Finished (log w ++ [EvRollback])
                      (store_calls w) (clock_reads w) (random_reads w))
  | _ => (Throw TransactionFinished, w)
  end.
Proof. unfold rollback, bind, get_tx. destruct (tx w); reflexivity. Qed.

Lemma find_existsb {A} (f : A -> bool) (l : list A) :
  existsb f l = match find f l with Some _ => true | None => false end.
Proof. induction l as [|a l IH]; cbn; [|destruct (f a)]; auto. Qed.

Lemma generateInvoiceNumber_candidate (w : World) :
  generateInvoiceNumber env w =
  (Ok (candidate env (clock_reads w) (random_reads w)),
   mkWorld (persisted w) (tx w) (log w) (store_calls w)
           (S (clock_reads w)) (S (random_reads w))).
Proof. reflexivity. Qed.

End StoreFacts.

(* ================================================================== *)
(** * The invoice number generator *)
(* ================================================================== *)

Section InvoiceNumber.

Variable env : Env.

Lemma padStart_three_digits (n : Z) :
  0 <= n <= 999 -> padStart 3 "0" (show_Z n) = three_digits n.
Proof.
  intros Hn.
  assert (H : forallb (fun k => String.eqb (padStart 3 "0" (show_Z (Z.of_nat k)))
                                           (three_digits (Z.of_nat k)))
                      (seq 0 1000) = true) by (vm_compute; reflexivity).
  rewrite forallb_forall in H.
  specialize (H (Z.to_nat n)).
  rewrite Z2Nat.id in H by lia.
  apply String.eqb_eq, H, in_seq. lia.
Qed.

Lemma generateInvoiceNumber_run (w : World) :
  generateInvoiceNumber env w =
  (Ok ("FAC-" ++ show_Z (Date_now env (clock_reads w)) ++ "-"
       ++ padStart 3 "0"
            (show_Z (JsNumber.floor
                       (JsNumber.mul (Math_random env (random_reads w)) 1000)))),
   mkWorld (persisted w) (tx w) (log w) (store_calls w)
           (S (clock_reads w)) (S (random_reads w))).
Proof. reflexivity. Qed.

(** C10. Every call of [generateInvoiceNumber] returns "FAC-", the
    millisecond time stamp read from the clock, "-", and the three digits of
    a number of 0..999; so the numbers of one millisecond are among the 1000
    of [invoice_numbers_of]. *)
Theorem generateInvoiceNumber_form (w : World) :
  JsNumber.unit_double (Math_random env (random_reads w)) ->
  exists n,
    0 <= n <= 999
    /\ fst (generateInvoiceNumber env w)
       = Ok (invoice_number (Date_now env (clock_reads w)) n)
    /\ String.length (three_digits n) = 3%nat
    /\ In (invoice_number (Date_now env (clock_reads w)) n)
          (invoice_numbers_of (Date_now env (clock_reads w)))
    /\ List.length (invoice_numbers_of (Date_now env (clock_reads w)))
       = 1000%nat.
Proof.
  intros Hr.
  pose proof (JsNumberFacts.random_thousand Hr) as Hn.
  set (n := JsNumber.floor
              (JsNumber.mul (Math_random env (random_reads w)) 1000)) in *.
  exists n. split; [exact Hn|]. split; [|split; [reflexivity|split]].
  - rewrite generateInvoiceNumber_run. cbn [fst]. fold n.
    unfold invoice_number. now rewrite padStart_three_digits.
  - unfold invoice_numbers_of. apply in_map_iff.
    exists (Z.to_nat n). split.
    + now rewrite Z2Nat.id by lia.
    + apply in_seq. lia.
  - unfold invoice_numbers_of. now rewrite length_map, length_seq.
Qed.

End InvoiceNumber.

Lemma generateInvoiceNumber_form_witness :
  exists n,
    0 <= n <= 999
    /\ fst (generateInvoiceNumber env_half (initial_world (mkDB [] [] [] [])))
       = Ok (invoice_number 1700000000000 n)
    /\ String.length (three_digits n) = 3%nat
    /\ In (invoice_number 1700000000000 n) (invoice_numbers_of 1700000000000)
    /\ List.length (invoice_numbers_of 1700000000000) = 1000%nat.
Proof.
  apply (generateInvoiceNumber_form env_half (initial_world (mkDB [] [] [] []))).
  unfold JsNumber.unit_double. cbn.
  split; [|split]; [unfold Qle; simpl; lia | reflexivity | reflexivity].
Defined.

(* ================================================================== *)
(** * The invoice sequencer *)
(* ================================================================== *)

Section Sequencer.

Variable env : Env.

Lemma sequence_invoice_step (budget attempts : nat) (w : World) :
  sequence_invoice env (S budget) attempts w =
  let nf := candidate env (clock_reads w) (random_reads w) in
  let w1 := logged (EvSelectPurchaseByInvoice nf) (ticked w) in
  match store_fault env (store_calls w) with
  | Some e => (Throw (StoreRejected e), w1)
  | None =>
      match tx w with
      | Open working =>
          match find (has_invoice nf) (purchases working) with
          | None => (Ok (inr nf), with_tx (Open working) w1)
          | Some _ =>
              if (maxAttempts <=? S attempts)%nat then
                (Ok (inl sequencing_exhausted),
                 mkWorld (persisted w) Finished (log w1 ++ [EvRollback])
                         (store_calls w1) (clock_reads w1) (random_reads w1))
              else if (S attempts <? maxAttempts)%nat then
                sequence_invoice env budget (S attempts)
                                 (with_tx (Open working) w1)
              else (Ok (inr nf), with_tx (Open working) w1)
          end
      | _ => (Throw TransactionFinished, w1)
      end
  end.
Proof.
  destruct w as [db t lg n c r].
  cbn [sequence_invoice]. unfold bind at 1.
  rewrite generateInvoiceNumber_candidate.
  unfold bind at 1. unfold Purchase_findOne_invoice.
  rewrite in_transaction_run. cbn [store_calls tx].
  cbn [store_calls tx clock_reads random_reads persisted log].
  destruct (store_fault env n); [reflexivity|].
  destruct t as [|wk|]; try reflexivity.
  cbn [fst snd].
  destruct (find _ (purchases wk)); [|reflexivity].
  destruct (maxAttempts <=? S attempts)%nat.
  - unfold bind. rewrite rollback_run. reflexivity.
  - destruct (S attempts <? maxAttempts)%nat; reflexivity.
Qed.

Lemma invoice_checks_S (c r k : nat) :
  invoice_checks env c r (S k) =
  EvSelectPurchaseByInvoice (candidate env c r)
  :: invoice_checks env (S c) (S r) k.
Proof.
  unfold invoice_checks. rewrite <- cons_seq, <- seq_shift.
  cbn [map]. rewrite map_map, !Nat.add_0_r. f_equal.
  apply map_ext. intros j. now rewrite !Nat.add_succ_r.
Qed.




Lemma taken_find (nf : string) (db : DB) :
  taken nf db = true -> exists p, find (has_invoice nf) (purchases db) = Some p.
Proof.
  unfold taken. rewrite find_existsb.
  destruct (find (has_invoice nf) (purchases db)) as [p|]; [eauto|discriminate].
Qed.

Lemma free_find (nf : string) (db : DB) :
  taken nf db = false -> find (has_invoice nf) (purchases db) = None.
Proof.
  unfold taken. rewrite find_existsb.
  destruct (find (has_invoice nf) (purchases db)); [discriminate|auto].
Qed.


Lemma sequence_invoice_found :
  forall budget attempts w working k,
    (attempts + budget = maxAttempts)%nat -> (k < budget)%nat ->
    tx w = Open working ->
    (forall j, (j <= k)%nat -> store_fault env (store_calls w + j) = None) ->
    (forall j, (j < k)%nat ->
               taken (candidate env (clock_reads w + j) (random_reads w + j))
                     working = true) ->
    taken (candidate env (clock_reads w + k) (random_reads w + k)) working
    = false ->
    sequence_invoice env budget attempts w =
    (Ok (inr (candidate env (clock_reads w + k) (random_reads w + k))),
     mkWorld (persisted w) (Open working)
             (log w ++ invoice_checks env (clock_reads w) (random_reads w) (S k))
             (store_calls w + S k) (clock_reads w + S k)
             (random_reads w + S k)).
Proof.
  induction budget as [|budget IH]; intros attempts w wk k Hsum Hk Htx Hf Ht Hfree;
    [lia|].
  rewrite sequence_invoice_step. cbv zeta.
  pose proof (Hf 0%nat ltac:(lia)) as Hf0. rewrite Nat.add_0_r in Hf0.
  rewrite Hf0, Htx.
  destruct k as [|k].
  - rewrite !Nat.add_0_r in Hfree. rewrite (free_find _ _ Hfree).
    rewrite invoice_checks_S. cbn [invoice_checks seq map].
    cbn [with_tx logged ticked log store_calls clock_reads random_reads
         persisted].
    rewrite !Nat.add_0_r, !Nat.add_1_r. reflexivity.
  - pose proof (Ht 0%nat ltac:(lia)) as Ht0. rewrite !Nat.add_0_r in Ht0.
    destruct (taken_find _ _ Ht0) as [p Hp]. rewrite Hp.
    destruct (maxAttempts <=? S attempts)%nat eqn:Emax;
      [apply Nat.leb_le in Emax; lia|].
    apply Nat.leb_gt in Emax.
    destruct (S attempts <? maxAttempts)%nat eqn:Elt;
      [|apply Nat.ltb_ge in Elt; lia].
    rewrite (IH (S attempts) _ wk k); try lia; try reflexivity.
    + rewrite (invoice_checks_S _ _ (S k)).
      cbn [with_tx logged ticked log store_calls clock_reads random_reads
           persisted].
      rewrite <- !app_assoc, !Nat.add_succ_r. reflexivity.
    + intros j Hj. cbn [with_tx logged ticked store_calls].
      specialize (Hf (S j) ltac:(lia)). rewrite Nat.add_succ_r in Hf. exact Hf.
    + intros j Hj. cbn [with_tx logged ticked clock_reads random_reads].
      specialize (Ht (S j) ltac:(lia)). rewrite !Nat.add_succ_r in Ht. exact Ht.
    + cbn [with_tx logged ticked clock_reads random_reads].
      rewrite !Nat.add_succ_r in Hfree. exact Hfree.
Qed.

End Sequencer.

(* ================================================================== *)
(** * A purchase that commits *)
(* ================================================================== *)

(** ** Lists with distinct keys *)

Lemma NoDup_map_filter {A B} (f : A -> B) (g : A -> bool) (l : list A) :
  NoDup (map f l) -> NoDup (map f (filter g l)).
Proof.
  induction l as [|a l IH]; cbn; intros H; [constructor|].
  inversion H as [|? ? Hn Hd]; subst.
  destruct (g a); cbn; auto.
  constructor; auto.
  intros Hin. apply Hn. apply in_map_iff in Hin as (x & Hx & Hi).
  apply filter_In in Hi as [Hi _]. apply in_map_iff. eauto.
Qed.

Lemma find_unique {A} (key : A -> Z) (l : list A) (a : A) :
  NoDup (map key l) -> In a l ->
  find (fun x => key x =? key a) l = Some a.
Proof.
  induction l as [|b l IH]; cbn; intros Hnd Hin; [contradiction|].
  inversion Hnd as [|? ? Hn Hd]; subst.
  destruct Hin as [->|Hin].
  - now rewrite Z.eqb_refl.
  - destruct (key b =? key a) eqn:E; [|auto].
    apply Z.eqb_eq in E. exfalso. apply Hn. rewrite E.
    now apply in_map.
Qed.

Lemma existsb_eqb_In (x : Z) (l : list Z) :
  existsb (Z.eqb x) l = true <-> In x l.
Proof.
  rewrite existsb_exists. split.
  - intros (y & Hy & E). apply Z.eqb_eq in E. now subst.
  - intros H. exists x. split; auto. apply Z.eqb_refl.
Qed.

Section Lock.

Variables (productos : list Item) (db : DB).
Hypothesis Hlock : lockable productos db.

Lemma locked_In (p : Product.t) :
  In p (locked_products (map product_id productos) db) <->
  In p (products db) /\ In (Product.id p) (map product_id productos)
  /\ Product.activo p = true.
Proof.
  unfold locked_products. rewrite filter_In, andb_true_iff, existsb_eqb_In.
  tauto.
Qed.

Lemma locked_length :
  List.length (locked_products (map product_id productos) db)
  = List.length (map product_id productos).
Proof.
  destruct Hlock as (Hnd & Hndp & Hall).
  rewrite <- (length_map Product.id
                (locked_products (map product_id productos) db)).
  apply Nat.le_antisymm.
  - apply NoDup_incl_length.
    + unfold locked_products. now apply NoDup_map_filter.
    + intros i Hi. apply in_map_iff in Hi as (p & <- & Hp).
      now apply locked_In in Hp.
  - apply NoDup_incl_length; [exact Hnd|].
    intros i Hi. apply in_map_iff in Hi as (item & <- & Hitem).
    destruct (Hall item Hitem) as (p & Hp & Hid & Hact).
    apply in_map_iff. exists p. split; [exact Hid|].
    apply locked_In. repeat split; auto. rewrite Hid. now apply in_map.
Qed.

Lemma locked_find (item : Item) :
  In item productos ->
  exists p, find (fun p => Product.id p =? product_id item)
                 (locked_products (map product_id productos) db) = Some p
            /\ In p (products db)
            /\ Product.id p = product_id item.
Proof.
  intros Hitem. destruct Hlock as (Hnd & Hndp & Hall).
  destruct (Hall item Hitem) as (p & Hp & Hid & Hact).
  exists p. repeat split; auto.
  rewrite <- Hid.
  apply (find_unique Product.id).
  - unfold locked_products. now apply NoDup_map_filter.
  - apply locked_In. repeat split; auto. rewrite Hid. now apply in_map.
Qed.

End Lock.

Section Phases.

Variable env : Env.

Lemma price_lines_ok (available : list Product.t) :
  forall (productos : list Item) (total : Q) (detalles : list Detalle)
         (w : World),
    (forall item, In item productos ->
       exists p, find (fun p => Product.id p =? product_id item) available
                 = Some p
                 /\ cantidad item <= Product.cantidad_disponible p) ->
    price_lines productos available total detalles w =
    (Ok (inr (total_of (detalles_of available productos) total,
              (detalles ++ detalles_of available productos)%list)), w).
Proof.
  induction productos as [|item rest IH]; intros total detalles w Hall.
  - cbn. now rewrite app_nil_r.
  - destruct (Hall item (or_introl eq_refl)) as (p & Hf & Hq).
    cbn [price_lines detalles_of flat_map]. rewrite Hf.
    apply Z.ltb_ge in Hq. rewrite Hq.
    rewrite IH by (intros i Hi; apply Hall; now right).
    cbn [List.app total_of fold_left detalle_of d_precio_unitario d_cantidad].
    rewrite <- app_assoc. reflexivity.
Qed.

Lemma create_details_ok (purchase : Purchase.t) :
  forall (detalles : list Detalle) (created : list PurchaseDetail.t)
         (updates : list (Z * Z)) (db working : DB) (lg : list Event)
         (n c r : nat),
    (forall j, (j < List.length detalles)%nat ->
               store_fault env (n + j) = None) ->
    create_details env purchase detalles created updates
                   (mkWorld db (Open working) lg n c r) =
    (Ok ((created
          ++ detail_rows (purchase_details working) (Purchase.id purchase)
                         detalles)%list,
         (updates ++ stock_updates detalles)%list),
     mkWorld db
       (Open (mkDB (users working) (products working) (purchases working)
                   (purchase_details working
                    ++ detail_rows (purchase_details working)
                                   (Purchase.id purchase) detalles)))
       (lg ++ map (fun d => EvInsertDetail (d_product_id d)) detalles)
       (n + List.length detalles) c r).
Proof.
  induction detalles as [|d rest IH];
    intros created updates db working lg n c r Hf.
  - cbn. rewrite !app_nil_r, Nat.add_0_r. destruct working; reflexivity.
  - cbn [create_details]. unfold bind at 1. unfold PurchaseDetail_create.
    rewrite in_transaction_run. cbn [store_calls tx].
    pose proof (Hf 0%nat ltac:(cbn; lia)) as Hf0. rewrite Nat.add_0_r in Hf0.
    rewrite Hf0. cbv [with_tx logged PurchaseDetail_beforeCreate
                      PurchaseDetail.with_subtotal].
    cbn [fst snd persisted log store_calls clock_reads random_reads tx
         PurchaseDetail.id PurchaseDetail.purchase_id
         PurchaseDetail.product_id PurchaseDetail.cantidad
         PurchaseDetail.precio_unitario PurchaseDetail.subtotal].
    rewrite IH.
    + cbn [detail_rows stock_updates map List.length purchase_details users
           products purchases PurchaseDetail_beforeCreate
           PurchaseDetail.with_subtotal PurchaseDetail.id
           PurchaseDetail.purchase_id PurchaseDetail.product_id
           PurchaseDetail.cantidad PurchaseDetail.precio_unitario
           PurchaseDetail.subtotal].
      rewrite <- !app_assoc, Nat.add_succ_r. reflexivity.
    + intros j Hj. specialize (Hf (S j) ltac:(cbn; lia)).
      rewrite Nat.add_succ_r in Hf. exact Hf.
Qed.

Lemma update_stock_ok :
  forall (updates : list (Z * Z)) (db working : DB) (lg : list Event)
         (n c r : nat),
    (forall j, (j < List.length updates)%nat ->
               store_fault env (n + j) = None) ->
    update_stock env updates (mkWorld db (Open working) lg n c r) =
    (Ok tt,
     mkWorld db
       (Open (mkDB (users working) (apply_updates updates (products working))
                   (purchases working) (purchase_details working)))
       (lg ++ map (fun u => EvUpdateStock (fst u) (snd u)) updates)
       (n + List.length updates) c r).
Proof.
  induction updates as [|[id q] rest IH]; intros db working lg n c r Hf.
  - cbn. rewrite app_nil_r, Nat.add_0_r. destruct working; reflexivity.
  - cbn [update_stock]. unfold bind at 1. unfold Product_update.
    rewrite in_transaction_run. cbn [store_calls tx].
    pose proof (Hf 0%nat ltac:(cbn; lia)) as Hf0. rewrite Nat.add_0_r in Hf0.
    rewrite Hf0. cbv [with_tx logged].
    cbn [fst snd persisted log store_calls clock_reads random_reads tx].
    rewrite IH.
    + cbn [apply_updates fold_left map List.length fst snd users products
           purchases purchase_details].
      rewrite <- !app_assoc, Nat.add_succ_r. reflexivity.
    + intros j Hj. specialize (Hf (S j) ltac:(cbn; lia)).
      rewrite Nat.add_succ_r in Hf. exact Hf.
Qed.

End Phases.

Section Success.

Variable env : Env.
Hypothesis Hnf : no_rejection env.

Lemma candidate_not_falsy (c r : nat) : falsy (Some (candidate env c r)) = false.
Proof. reflexivity. Qed.

Lemma candidate_not_blank (c r : nat) : blank (candidate env c r) = false.
Proof. reflexivity. Qed.

Lemma Purchase_create_ok (uid total : Z) (nf : string) (e : Estado)
    (fecha : Z) (db working : DB) (lg : list Event) (n c r : nat) :
  falsy (Some nf) = false -> blank nf = false ->
  Purchase_create env uid total (Some nf) e fecha
                  (mkWorld db (Open working) lg n c r) =
  let row := Purchase.mk (next_id (map Purchase.id (purchases working)))
                         uid fecha total e (Some nf) (Date_now env c) in
  (Ok row,
   mkWorld db
     (Open (mkDB (users working) (products working)
                 (purchases working ++ [row]) (purchase_details working)))
     (lg ++ [EvInsertPurchase]) (S n) (S c) r).
Proof.
  intros Hfalsy Hblank. unfold Purchase_create.
  unfold bind at 1. cbn [now clock_reads persisted tx log store_calls
                         random_reads].
  unfold bind at 1. unfold Purchase_beforeCreate.
  cbn [Purchase.numero_factura]. rewrite Hfalsy. cbn [ret].
  unfold bind at 1. unfold Purchase_beforeSave.
  cbn [Purchase.numero_factura]. rewrite Hfalsy, Hblank. cbn [orb ret].
  rewrite in_transaction_run. cbn [store_calls tx]. rewrite (Hnf n).
  reflexivity.
Qed.

Lemma commit_ok (db working : DB) (lg : list Event) (n c r : nat) :
  commit env (mkWorld db (Open working) lg n c r) =
  (Ok tt, mkWorld working Finished (lg ++ [EvCommit]) (S n) c r).
Proof.
  unfold commit, bind, get_tx, set_tx, store_call, set_persisted.
  cbn. rewrite (Hnf n). reflexivity.
Qed.

Lemma sequelize_transaction_ok (db : DB) (t : TxState) (lg : list Event)
    (n c r : nat) :
  sequelize_transaction env (mkWorld db t lg n c r) =
  (Ok tt, mkWorld db (Open db) (lg ++ [EvBegin]) (S n) c r).
Proof.
  unfold sequelize_transaction, bind, get_persisted, set_tx, store_call.
  cbn. rewrite (Hnf n). reflexivity.
Qed.

Lemma Purchase_findOne_ok (id uid : option Z) (db : DB) (t : TxState)
    (lg : list Event) (n c r : nat) :
  Purchase_findOne env id uid (mkWorld db t lg n c r) =
  (Ok (option_map (view true db) (find (matches id uid) (purchases db))),
   mkWorld db t (lg ++ [EvSelectPurchase]) (S n) c r).
Proof.
  unfold Purchase_findOne, read_persisted, bind, get_persisted, store_call, ret.
  cbn. rewrite (Hnf n). reflexivity.
Qed.

Lemma next_id_fresh (ids : list Z) (x : Z) : In x ids -> x < next_id ids.
Proof.
  unfold next_id. induction ids as [|y ids IH]; cbn; [contradiction|].
  intros [->|H]; [lia|]. specialize (IH H). lia.
Qed.

Lemma find_appended (l : list Purchase.t) (row : Purchase.t) :
  Purchase.id row = next_id (map Purchase.id l) ->
  find (matches (Some (Purchase.id row)) None) (l ++ [row]) = Some row.
Proof.
  intros Hid.
  assert (H : forall p, In p l -> Purchase.id p <> Purchase.id row).
  { intros p Hp. rewrite Hid.
    pose proof (next_id_fresh (map Purchase.id l) (Purchase.id p)
                              (in_map _ _ _ Hp)). lia. }
  clear Hid. induction l as [|q l IH]; cbn [List.app find].
  - unfold matches. now rewrite Z.eqb_refl.
  - unfold matches at 1. destruct (Purchase.id q =? Purchase.id row) eqn:E.
    + apply Z.eqb_eq in E. exfalso. apply (H q); [now left | exact E].
    + cbn [andb]. apply IH. intros p Hp. apply H. now right.
Qed.

Lemma detalles_of_length (productos : list Item) (db : DB) :
  lockable productos db ->
  List.length (detalles_of (locked_products (map product_id productos) db)
                           productos)
  = List.length productos.
Proof.
  intros Hserv.
  assert (H : forall l, incl l productos ->
            List.length (detalles_of
                           (locked_products (map product_id productos) db) l)
            = List.length l).
  { induction l as [|item l IH]; intros Hincl; [reflexivity|].
    cbn [detalles_of flat_map].
    destruct (locked_find Hserv item (Hincl item (or_introl eq_refl)))
      as (p & Hf & _).
    rewrite Hf. cbn [List.app List.length]. f_equal. apply IH.
    intros x Hx. apply Hincl. now right. }
  apply H, incl_refl.
Qed.

Theorem purchase_succeeds (user : User.t) (body : RawBody)
    (productos : list Item) (w : World) (k : nat) :
  purchaseSchema body = inr productos ->
  servable productos (persisted w) ->
  (k < maxAttempts)%nat ->
  first_free env w k ->
  let db' := purchased env w user productos k in
  let detalles :=
    detalles_of (locked_products (map product_id productos) (persisted w))
                productos in
  respond (create_purchase env user body) w =
  (Json 201
     (Created "Compra realizada exitosamente"
        (Some (view true db' (purchase_row env w user detalles k)))),
   mkWorld db' Finished (success_log env w productos detalles k)
           (store_calls w + (6 + k + 2 * List.length productos))
           (clock_reads w + (3 + k)) (random_reads w + S k)).
Proof.
  intros Hschema Hserv Hk [Htaken Hfree]. cbv zeta.
  destruct w as [db t lg n c r].
  cbn [persisted clock_reads random_reads store_calls log] in *.
  unfold respond, create_purchase. unfold bind at 1.
  rewrite sequelize_transaction_ok.
  unfold try_catch, purchase_body. rewrite Hschema.
  unfold bind at 1. unfold Product_findAll_locked.
  rewrite in_transaction_run. cbn [store_calls tx]. rewrite (Hnf (S n)).
  cbv [with_tx logged].
  cbn [fst snd persisted log store_calls clock_reads random_reads tx].
  fold (locked_products (map product_id productos) db).
  unfold purchase_locked.
  destruct Hserv as [Hlock Hstock].
  rewrite (locked_length Hlock), Nat.eqb_refl. cbn [negb].
  unfold bind at 1.
  rewrite price_lines_ok.
  2:{ intros item Hitem.
      destruct (locked_find Hlock item Hitem) as (p & Hf & Hp & Hid).
      exists p. split; [exact Hf|].
      exact (proj1 (Forall_forall _ _) Hstock item Hitem p Hp Hid). }
  pose proof (detalles_of_length Hlock) as Hlen.
  set (detalles := detalles_of (locked_products (map product_id productos) db)
                               productos) in *.
  cbn [List.app].
  unfold bind at 1.
  rewrite (@sequence_invoice_found env maxAttempts 0
             (mkWorld db (Open db)
                ((lg ++ [EvBegin])
                 ++ [EvSelectProductsForUpdate (map product_id productos)])
                (S (S n)) c r)
             db k eq_refl Hk eq_refl (fun j _ => Hnf _) Htaken Hfree).
  cbn [persisted log store_calls clock_reads random_reads].
  unfold bind at 1.
  cbn [now clock_reads persisted tx log store_calls random_reads].
  unfold bind at 1.
  rewrite Purchase_create_ok by reflexivity. cbv zeta.
  unfold bind at 1.
  rewrite create_details_ok by (intros; apply Hnf).
  cbn [snd users products purchases purchase_details Purchase.id List.app].
  unfold bind at 1.
  rewrite update_stock_ok by (intros; apply Hnf).
  cbn [users products purchases purchase_details].
  unfold bind at 1.
  rewrite commit_ok.
  unfold bind at 1. unfold Purchase_findByPk.
  rewrite Purchase_findOne_ok.
  cbn [ret purchases].
  unfold purchased, purchase_row, success_log.
  cbn [persisted clock_reads random_reads store_calls log Purchase.id].
  fold detalles.
  replace (S (c + S k)) with (c + S (S k))%nat by lia.
  set (row := Purchase.mk _ _ _ _ _ _ _).
  assert (Hfind : find (matches (Some (next_id (map Purchase.id (purchases db))))
                                None) (purchases db ++ [row]) = Some row)
    by (apply (find_appended (purchases db) row); reflexivity).
  rewrite Hfind. cbn [option_map].
  f_equal. f_equal.
  - now rewrite <- !app_assoc.
  - unfold stock_updates. rewrite length_map, Hlen. lia.
  - lia.
Qed.

End Success.

(* ================================================================== *)
(** * The stock after a purchase *)
(* ================================================================== *)

Lemma apply_updates_map :
  forall (updates : list (Z * Z)) (ps : list Product.t),
    NoDup (map fst updates) ->
    apply_updates updates ps =
    map (fun p =>
           match find (fun u => fst u =? Product.id p) updates with
           | Some u => Product.with_cantidad_disponible (snd u) p
           | None => p
           end) ps.
Proof.
  induction updates as [|u updates IH]; intros ps Hnd.
  - cbn. now rewrite map_id.
  - inversion Hnd as [|? ? Hn Hd]; subst.
    cbn [apply_updates fold_left]. fold (apply_updates updates).
    rewrite IH by exact Hd. rewrite map_map. apply map_ext. intros p.
    cbn [find]. unfold set_stock. rewrite (Z.eqb_sym (fst u)).
    destruct (Product.id p =? fst u) eqn:E; [|reflexivity].
    apply Z.eqb_eq in E. cbn [Product.with_cantidad_disponible Product.id].
    destruct (find (fun u0 => fst u0 =? Product.id p) updates) as [u'|] eqn:Ef;
      [|reflexivity].
    apply find_some in Ef as [Hin Hk]. apply Z.eqb_eq in Hk.
    exfalso. apply Hn. rewrite <- E, <- Hk. now apply in_map.
Qed.

Section Stock.

Variables (productos : list Item) (db : DB).
Hypothesis Hserv : lockable productos db.

Lemma same_id_same_product (p q : Product.t) :
  In p (products db) -> In q (products db) -> Product.id p = Product.id q ->
  p = q.
Proof.
  intros Hp Hq E. destruct Hserv as (_ & Hnd & _).
  pose proof (find_unique Product.id (products db) p Hnd Hp) as F1.
  pose proof (find_unique Product.id (products db) q Hnd Hq) as F2.
  rewrite E in F1. congruence.
Qed.

Lemma stock_updates_keys (l : list Item) :
  incl l productos ->
  map fst (stock_updates (detalles_of (locked_products (map product_id productos) db) l)) = map product_id l.
Proof.
  induction l as [|item l IH]; intros Hincl; [reflexivity|].
  cbn [detalles_of flat_map].
  destruct (locked_find Hserv item (Hincl item (or_introl eq_refl)))
    as (p & Hf & _ & Hid).
 rewrite Hf. cbn. rewrite Hid. f_equal.
  apply IH. intros x Hx. apply Hincl. now right.
Qed.

Lemma stock_updates_find (l : list Item) (p : Product.t) :
  incl l productos -> In p (products db) ->
  find (fun u => fst u =? Product.id p) (stock_updates (detalles_of (locked_products (map product_id productos) db) l))
  = option_map
      (fun item => (Product.id p,
                    Product.cantidad_disponible p - cantidad item))
      (find (fun item => product_id item =? Product.id p) l).
Proof.
  intros Hincl Hp. induction l as [|item l IH]; [reflexivity|].
  cbn [detalles_of flat_map].
  destruct (locked_find Hserv item (Hincl item (or_introl eq_refl)))
    as (q & Hf & Hq & Hid).
 rewrite Hf.
  cbn [List.app stock_updates map detalle_of d_product d_cantidad find fst].
  rewrite <- Hid.
  destruct (Product.id q =? Product.id p) eqn:E.
  - apply Z.eqb_eq in E.
    rewrite (same_id_same_product q p Hq Hp E). reflexivity.
  - apply IH. intros x Hx. apply Hincl. now right.
Qed.

Lemma purchased_products :
  apply_updates (stock_updates (detalles_of (locked_products (map product_id productos) db) productos)) (products db)
  = map (bought productos) (products db).
Proof.
  rewrite apply_updates_map.
  - apply map_ext_in. intros p Hp.
    rewrite (@stock_updates_find productos p (incl_refl productos) Hp).
    unfold bought.
    destruct (find (fun item => product_id item =? Product.id p) productos);
      reflexivity.
  - rewrite (@stock_updates_keys productos (incl_refl productos)).
    now destruct Hserv.
Qed.

Lemma bought_line (item : Item) (p : Product.t) :
  In item productos -> Product.id p = product_id item ->
  bought productos p
  = Product.with_cantidad_disponible
      (Product.cantidad_disponible p - cantidad item) p.
Proof.
  intros Hitem Hid. unfold bought. rewrite Hid.
  destruct Hserv as (Hnd & _).
  now rewrite (find_unique product_id productos item Hnd Hitem).
Qed.

Lemma bought_other (p : Product.t) :
  ~ In (Product.id p) (map product_id productos) -> bought productos p = p.
Proof.
  intros Hn. unfold bought.
  destruct (find (fun item => product_id item =? Product.id p) productos)
    as [item|] eqn:E; [|reflexivity].
  apply find_some in E as [Hin Hk]. apply Z.eqb_eq in Hk.
  exfalso. apply Hn. rewrite <- Hk. now apply in_map.
Qed.

End Stock.

(* ================================================================== *)
(** * The purchase route: stock, amounts, invoice number *)
(* ================================================================== *)

(** ** What the schema guarantees *)

Lemma is_integer_floor (q : Q) : is_integer q = true -> (inject_Z (Qfloor q) == q)%Q.
Proof.
  unfold is_integer. intros H. apply Z.eqb_eq in H.
  destruct q as [a b]. cbn [Qnum Qden] in H. cbn [Qfloor].
  unfold Qeq. cbn [Qnum Qden inject_Z].
  rewrite Z.mul_1_r. rewrite Z.mul_comm.
  symmetry. apply Z.div_exact; [lia | exact H].
Qed.

Lemma is_integer_inject_Z (n : Z) : is_integer (inject_Z n) = true.
Proof. unfold is_integer. cbn. now rewrite Z.mod_1_r. Qed.

Lemma Qltb_inject_Z (a b : Z) : Qltb (inject_Z a) (inject_Z b) = (a <? b).
Proof.
  unfold Qltb, Qle_bool. cbn. rewrite !Z.mul_1_r.
  rewrite Z.ltb_antisym. reflexivity.
Qed.

Lemma Qltb_lt (a b : Q) : Qltb a b = true <-> (a < b)%Q.
Proof.
  unfold Qltb. rewrite negb_true_iff. split.
  - intros H. apply Qnot_le_lt. intros Hle. apply Qle_bool_iff in Hle.
    congruence.
  - intros H. destruct (Qle_bool b a) eqn:E; [|reflexivity].
    apply Qle_bool_iff in E. exfalso. exact (Qlt_not_le _ _ H E).
Qed.

Lemma unsafe_beyond (v : Q) : beyond_safe v -> unsafe v = true.
Proof.
  unfold beyond_safe, unsafe. intros [H|H]; apply Qltb_lt in H; rewrite H.
  - reflexivity.
  - apply orb_true_r.
Qed.

Lemma purchaseItemSchema_valid (index : nat) (it : RawItem) (item : Item) :
  purchaseItemSchema index it = inr item ->
  1 <= product_id item /\ 1 <= cantidad item
  /\ exists pid q, raw_product_id it = Some pid /\ raw_cantidad it = Some q
                   /\ (inject_Z (product_id item) == pid)%Q
                   /\ (inject_Z (cantidad item) == q)%Q.
Proof.
  unfold purchaseItemSchema.
  destruct (raw_product_id it) as [pid|]; [|discriminate].
  destruct (unsafe pid); [discriminate|].
  destruct (is_integer pid) eqn:Ip; [|discriminate]. cbn [negb].
  destruct (Qltb 0 pid) eqn:Pp; [|discriminate]. cbn [negb].
  destruct (raw_cantidad it) as [q|]; [|discriminate].
  destruct (unsafe q); [discriminate|].
  destruct (is_integer q) eqn:Iq; [|discriminate]. cbn [negb].
  destruct (Qltb q 1) eqn:Pq; [discriminate|].
  intros H. inversion H; subst; clear H. cbn [product_id cantidad].
  pose proof (is_integer_floor _ Ip) as Ep.
  pose proof (is_integer_floor _ Iq) as Eq.
  unfold Qltb in Pp, Pq.
  apply negb_true_iff in Pp. apply negb_false_iff in Pq.
  apply Qle_bool_iff in Pq.
  assert (Hp : ~ (pid <= 0)%Q).
  { intros Hle. apply Qle_bool_iff in Hle. congruence. }
  repeat split.
  - assert (0 < inject_Z (Qfloor pid))%Q by (rewrite Ep; now apply Qnot_le_lt).
    change 0%Q with (inject_Z 0) in H. rewrite <- Zlt_Qlt in H. lia.
  - change 1 with (Qfloor 1). now apply Qfloor_resp_le.
  - exists pid, q. auto.
Qed.

Lemma validate_items_valid :
  forall (l : list RawItem) (index : nat) (items : list Item),
    validate_items index l = inr items ->
    Forall (fun item => 1 <= product_id item /\ 1 <= cantidad item) items
    /\ List.length items = List.length l.
Proof.
  induction l as [|it l IH]; intros index items H; cbn [validate_items] in H.
  - inversion H. split; [constructor | reflexivity].
  - destruct (purchaseItemSchema index it) as [msg|item] eqn:E;
      [discriminate|].
    destruct (validate_items (S index) l) as [msg|rest] eqn:V;
      [discriminate|].
    inversion H; subst.
    destruct (IH _ _ V) as [Hall Hlen].
    destruct (purchaseItemSchema_valid _ _ E) as (Hp & Hq & _).
    split; [constructor; auto | cbn; now rewrite Hlen].
Qed.

Lemma purchaseSchema_valid (body : RawBody) (productos : list Item) :
  purchaseSchema body = inr productos ->
  productos <> []
  /\ Forall (fun item => 1 <= product_id item /\ 1 <= cantidad item) productos.
Proof.
  unfold purchaseSchema.
  destruct (raw_productos body) as [l|]; [|discriminate].
  destruct (validate_items 0 l) as [msg|items] eqn:E; [discriminate|].
  destruct (List.length items <? 1)%nat eqn:Hl; [discriminate|].
  intros H. inversion H; subst.
  destruct (validate_items_valid _ _ E) as [Hall _].
  split; [|exact Hall].
  intros ->. cbn in Hl. discriminate.
Qed.

(** ** The priced lines *)

Section Lines.

Variables (productos : list Item) (db : DB).
Hypothesis Hserv : lockable productos db.



End Lines.


Lemma detail_rows_Forall (P : PurchaseDetail.t -> Prop) (pid : Z)
    (ds : list Detalle) :
  (forall d i, In d ds ->
     P (PurchaseDetail.mk i pid (d_product_id d) (d_cantidad d)
          (d_precio_unitario d)
          (JsNumber.toFixed2
             (JsNumber.mul (inject_Z (d_cantidad d)) (d_precio_unitario d))))) ->
  forall existing, Forall P (detail_rows existing pid ds).
Proof.
  induction ds as [|d ds IH]; intros H existing; [constructor|].
  cbn [detail_rows]. constructor.
  - apply H. now left.
  - apply IH. intros d' i Hd. apply H. now right.
Qed.



Section Claims.

Variable env : Env.

(** C1, as amended. For every valid cart (not empty, quantities that are
    integers of at least 1, no product named twice) whose products are all
    present and active and whose every line asks for no more than the stock
    of its product, if no store call is rejected and one of the first five
    invoice numbers generated is free, the purchase answers 201 and the
    persisted stock of every product named by a line is its stock at lock
    time less the quantity of that line; every other product is unchanged. *)
Theorem purchase_decrements_stock (user : User.t) (body : RawBody)
    (productos : list Item) (w : World) (k : nat) :
  no_rejection env ->
  purchaseSchema body = inr productos ->
  servable productos (persisted w) ->
  (k < maxAttempts)%nat ->
  first_free env w k ->
  exists data w',
    respond (create_purchase env user body) w
    = (Json 201 (Created "Compra realizada exitosamente" (Some data)), w')
    /\ products (persisted w') = map (bought productos) (products (persisted w))
    /\ (forall item p,
          In item productos -> Product.id p = product_id item ->
          bought productos p
          = Product.with_cantidad_disponible
              (Product.cantidad_disponible p - cantidad item) p)
    /\ (forall p, ~ In (Product.id p) (map product_id productos) ->
                  bought productos p = p).
Proof.
  intros Hnf Hschema Hserv Hk Hfree.
  pose proof (purchase_succeeds Hnf user body Hschema Hserv Hk Hfree) as Hrun.
  cbv zeta in Hrun.
  eexists. eexists. split; [exact Hrun|].
  cbn [persisted]. unfold purchased. cbn [products].
  split; [|split].
  - apply (purchased_products (proj1 Hserv)).
  - intros item p Hitem Hid.
    apply (bought_line (proj1 Hserv) item p Hitem Hid).
  - intros p Hp. now apply bought_other.
Qed.

Lemma hooks_keep_generated_number (p : Purchase.t) (c r : nat) (w : World) :
  Purchase.numero_factura p = Some (candidate env c r) ->
  Purchase_beforeCreate env p w = (Ok p, w)
  /\ Purchase_beforeSave env p w = (Ok p, w).
Proof.
  intros H. unfold Purchase_beforeCreate, Purchase_beforeSave. rewrite H.
  split; reflexivity.
Qed.

(** C5. In a purchase that commits, the invoice number of the persisted row
    is the candidate that the sequencing step found free in the transaction;
    the generator was called by the sequencing loop only (once per check),
    and neither the beforeCreate nor the beforeSave hook replaces the
    number of the row or calls the generator again. *)
Theorem invoice_number_assigned_once (user : User.t) (body : RawBody)
    (productos : list Item) (w : World) (k : nat) :
  no_rejection env ->
  purchaseSchema body = inr productos ->
  servable productos (persisted w) ->
  (k < maxAttempts)%nat ->
  first_free env w k ->
  exists data w' row,
    respond (create_purchase env user body) w
    = (Json 201 (Created "Compra realizada exitosamente" (Some data)), w')
    /\ purchases (persisted w') = (purchases (persisted w) ++ [row])%list
    /\ Purchase.numero_factura row
       = Some (candidate env (clock_reads w + k) (random_reads w + k))
    /\ taken (candidate env (clock_reads w + k) (random_reads w + k))
             (persisted w) = false
    /\ random_reads w' = (random_reads w + S k)%nat
    /\ log w'
       = success_log env w productos
           (detalles_of (locked_products (map product_id productos)
                                         (persisted w)) productos) k
    /\ (forall w0, Purchase_beforeCreate env row w0 = (Ok row, w0)
                   /\ Purchase_beforeSave env row w0 = (Ok row, w0)).
Proof.
  intros Hnf Hschema Hserv Hk Hfree.
  pose proof (purchase_succeeds Hnf user body Hschema Hserv Hk Hfree) as Hrun.
  cbv zeta in Hrun.
  eexists. eexists. eexists. split; [exact Hrun|].
  cbn [persisted random_reads log]. unfold purchased. cbn [purchases].
  split; [reflexivity|]. split; [reflexivity|].
  split; [apply Hfree|]. split; [reflexivity|]. split; [reflexivity|].
  intros w0. eapply hooks_keep_generated_number. reflexivity.
Qed.



End Claims.

(* ================================================================== *)
(** * Relations kept by every step of the handler *)
(* ================================================================== *)

Section Steps.

Variable env : Env.
Variable R : World -> World -> Prop.
Variable allowed : Event -> Prop.

Hypothesis R_refl : forall w, R w w.
Hypothesis R_trans : forall a b c, R a b -> R b c -> R a c.
Hypothesis R_quiet :
  forall w w', persisted w' = persisted w -> log w' = log w -> R w w'.
Hypothesis R_logs :
  forall w w' ev, allowed ev -> persisted w' = persisted w ->
                  log w' = (log w ++ [ev])%list -> R w w'.

Lemma Respects_ret {A} (a : A) : Respects R (ret a).
Proof. intros w. apply R_refl. Qed.

Lemma Respects_throw {A} (e : Error) : Respects R (throw (A:=A) e).
Proof. intros w. apply R_refl. Qed.

Lemma Respects_bind {A B} (m : M A) (f : A -> M B) :
  Respects R m -> (forall a, Respects R (f a)) -> Respects R (bind m f).
Proof.
  intros Hm Hf w. unfold bind. specialize (Hm w).
  destruct (m w) as [[a|e] w1]; cbn [snd] in *; [|exact Hm].
  eapply R_trans; [exact Hm | apply Hf].
Qed.

Lemma Respects_try_catch {A} (m : M A) (h : Error -> M A) :
  Respects R m -> (forall e, Respects R (h e)) -> Respects R (try_catch m h).
Proof.
  intros Hm Hh w. unfold try_catch. specialize (Hm w).
  destruct (m w) as [[a|e] w1]; cbn [snd] in *; [exact Hm|].
  eapply R_trans; [exact Hm | apply Hh].
Qed.

Lemma Respects_store_call (ev : Event) :
  allowed ev -> Respects R (store_call env ev).
Proof.
  intros Ha w. unfold store_call.
  destruct (store_fault env (store_calls w)); cbn [snd];
    apply (R_logs _ _ Ha); reflexivity.
Qed.

Lemma Respects_set_tx (t : TxState) : Respects R (set_tx t).
Proof. intros w. apply R_quiet; reflexivity. Qed.

Lemma Respects_get_tx : Respects R get_tx.
Proof. intros w. apply R_refl. Qed.

Lemma Respects_get_persisted : Respects R get_persisted.
Proof. intros w. apply R_refl. Qed.

Lemma Respects_now : Respects R (now env).
Proof. intros w. apply R_quiet; reflexivity. Qed.

Lemma Respects_random : Respects R (random env).
Proof. intros w. apply R_quiet; reflexivity. Qed.

Lemma Respects_rollback : allowed EvRollback -> Respects R rollback.
Proof.
  intros Ha w. rewrite rollback_run.
  destruct (tx w); cbn [snd]; try apply R_refl.
  apply (R_logs _ _ Ha); reflexivity.
Qed.

Lemma Respects_in_transaction {A} (ev : Event) (q : DB -> A * DB) :
  allowed ev -> Respects R (in_transaction env ev q).
Proof.
  intros Ha w. rewrite in_transaction_run.
  destruct (store_fault env (store_calls w)); [|destruct (tx w)];
    cbn [snd]; apply (R_logs _ _ Ha); reflexivity.
Qed.

Lemma Respects_sequelize_transaction :
  allowed EvBegin -> Respects R (sequelize_transaction env).
Proof.
  intros Ha. unfold sequelize_transaction.
  apply Respects_bind; [now apply Respects_store_call|]. intros _.
  apply Respects_bind; [apply Respects_get_persisted|]. intros db.
  apply Respects_set_tx.
Qed.

Lemma Respects_generateInvoiceNumber : Respects R (generateInvoiceNumber env).
Proof. intros w. apply R_quiet; reflexivity. Qed.

Lemma Respects_Purchase_beforeCreate (p : Purchase.t) :
  Respects R (Purchase_beforeCreate env p).
Proof.
  unfold Purchase_beforeCreate.
  destruct (falsy (Purchase.numero_factura p)); [|apply Respects_ret].
  apply Respects_bind; [apply Respects_generateInvoiceNumber|].
  intros nf. apply Respects_ret.
Qed.

Lemma Respects_Purchase_beforeSave (p : Purchase.t) :
  Respects R (Purchase_beforeSave env p).
Proof.
  unfold Purchase_beforeSave.
  destruct (_ || _)%bool; [|apply Respects_ret].
  apply Respects_bind; [apply Respects_generateInvoiceNumber|].
  intros nf. apply Respects_ret.
Qed.

Lemma Respects_Purchase_create (uid total : Z) (nf : option string)
    (e : Estado) (fecha : Z) :
  allowed EvInsertPurchase ->
  Respects R (Purchase_create env uid total nf e fecha).
Proof.
  intros Ha. unfold Purchase_create.
  apply Respects_bind; [apply Respects_now|]. intros created.
  apply Respects_bind; [apply Respects_Purchase_beforeCreate|]. intros p1.
  apply Respects_bind; [apply Respects_Purchase_beforeSave|]. intros p2.
  now apply Respects_in_transaction.
Qed.

Lemma Respects_price_lines (available : list Product.t) :
  allowed EvRollback ->
  forall productos total detalles,
    Respects R (price_lines productos available total detalles).
Proof.
  intros Ha. induction productos as [|item rest IH]; intros total detalles.
  - apply Respects_ret.
  - cbn [price_lines].
    destruct (find _ available) as [product|]; [|apply Respects_throw].
    destruct (_ <? _).
    + apply Respects_bind; [now apply Respects_rollback|]. intros _.
      apply Respects_ret.
    + apply IH.
Qed.

Lemma Respects_sequence_invoice :
  allowed EvRollback ->
  (forall nf, allowed (EvSelectPurchaseByInvoice nf)) ->
  forall budget attempts, Respects R (sequence_invoice env budget attempts).
Proof.
  intros Ha Hc. induction budget as [|budget IH]; intros attempts.
  - apply Respects_throw.
  - cbn [sequence_invoice].
    apply Respects_bind; [apply Respects_generateInvoiceNumber|]. intros nf.
    apply Respects_bind.
    { unfold Purchase_findOne_invoice. now apply Respects_in_transaction. }
    intros [p|]; [|apply Respects_ret].
    destruct (_ <=? _)%nat.
    + apply Respects_bind; [now apply Respects_rollback|]. intros _.
      apply Respects_ret.
    + destruct (_ <? _)%nat; [apply IH | apply Respects_ret].
Qed.

Lemma Respects_create_details (purchase : Purchase.t) :
  (forall pid, allowed (EvInsertDetail pid)) ->
  forall detalles created updates,
    Respects R (create_details env purchase detalles created updates).
Proof.
  intros Ha. induction detalles as [|d rest IH]; intros created updates.
  - apply Respects_ret.
  - cbn [create_details]. apply Respects_bind.
    + unfold PurchaseDetail_create. now apply Respects_in_transaction.
    + intros row. apply IH.
Qed.

Lemma Respects_update_stock :
  (forall id q, allowed (EvUpdateStock id q)) ->
  forall updates, Respects R (update_stock env updates).
Proof.
  intros Ha. induction updates as [|[id q] rest IH].
  - apply Respects_ret.
  - cbn [update_stock]. apply Respects_bind.
    + unfold Product_update. now apply Respects_in_transaction.
    + intros _. apply IH.
Qed.

Lemma Respects_on_error (e : Error) :
  allowed EvRollback -> Respects R (on_error e).
Proof.
  intros Ha. unfold on_error.
  apply Respects_bind; [now apply Respects_rollback|]. intros _.
  destruct e as [[]| | |]; apply Respects_ret.
Qed.

Lemma Respects_commit :
  (forall w w', log w' = log w -> R w w') -> allowed EvCommit ->
  Respects R (commit env).
Proof.
  intros Hp Ha. unfold commit.
  apply Respects_bind; [apply Respects_get_tx|]. intros [|working|];
    try apply Respects_throw.
  apply Respects_bind; [apply Respects_set_tx|]. intros _.
  apply Respects_bind; [now apply Respects_store_call|]. intros _.
  intros w. apply Hp. reflexivity.
Qed.

Lemma Respects_read_persisted {A} (ev : Event) (q : DB -> A) :
  allowed ev -> Respects R (read_persisted env ev q).
Proof.
  intros Ha. unfold read_persisted.
  apply Respects_bind; [now apply Respects_store_call|]. intros _.
  apply Respects_bind; [apply Respects_get_persisted|]. intros db.
  apply Respects_ret.
Qed.

End Steps.

(* ================================================================== *)
(** * All or nothing *)
(* ================================================================== *)

Section Atomicity.

Variable env : Env.

Lemma before_commit_refl (w : World) : before_commit w w.
Proof. split; auto. Qed.

Lemma before_commit_trans (a b c : World) :
  before_commit a b -> before_commit b c -> before_commit a c.
Proof. intros [P1 L1] [P2 L2]. split; [congruence | auto]. Qed.

Lemma before_commit_quiet (w w' : World) :
  persisted w' = persisted w -> log w' = log w -> before_commit w w'.
Proof. intros P L. split; [exact P | now rewrite L]. Qed.

Lemma before_commit_logs (w w' : World) (ev : Event) :
  not_read_back ev -> persisted w' = persisted w ->
  log w' = (log w ++ [ev])%list -> before_commit w w'.
Proof.
  intros Ha P L. split; [exact P|]. rewrite L. intros Hin.
  apply in_app_or in Hin as [Hin|[Hin|[]]]; [exact Hin|].
  exfalso. now apply Ha.
Qed.

Ltac bc_side :=
  solve [ exact before_commit_refl | exact before_commit_trans
        | exact before_commit_quiet | exact before_commit_logs
        | discriminate | (intros; discriminate) ].

Lemma Pre_bind {A B} (m : M A) (f : A -> M B) :
  Pre m -> (forall a, Pre (f a)) -> Pre (bind m f).
Proof. apply Respects_bind. bc_side. Qed.

Lemma Pre_ret {A} (a : A) : Pre (ret a).
Proof. apply Respects_ret. bc_side. Qed.

Lemma Pre_rollback : Pre rollback.
Proof. apply Respects_rollback with (allowed := not_read_back); bc_side. Qed.

Lemma Pre_sequelize_transaction : Pre (sequelize_transaction env).
Proof.
  apply Respects_sequelize_transaction with (allowed := not_read_back);
    bc_side.
Qed.

Lemma Pre_on_error (e : Error) : Pre (on_error e).
Proof. apply Respects_on_error with (allowed := not_read_back); bc_side. Qed.

Lemma Settled_Pre (m : M Response) : Pre m -> Settled m.
Proof.
  intros H w Hn. left. destruct (H w) as [P L]. split; [exact P | auto].
Qed.

Lemma Settled_bind {A} (m : M A) (f : A -> M Response) :
  Pre m -> (forall a, Settled (f a)) -> Settled (bind m f).
Proof.
  intros Hm Hf w Hn. unfold bind. destruct (Hm w) as [P L].
  destruct (m w) as [[a|e] w1]; cbn [snd fst] in *.
  - assert (Hn1 : ~ In EvSelectPurchase (log w1)) by auto.
    destruct (Hf a w1 Hn1) as [[P2 L2]|H2].
    + left. split; [congruence | exact L2].
    + right. exact H2.
  - left. split; [exact P | auto].
Qed.

Lemma commit_run (w : World) :
  commit env w =
  match tx w with
  | Open working =>
      match store_fault env (store_calls w) with
      | Some e =>
          (Throw (StoreRejected e),
           mkWorld (persisted w) Finished (log w ++ [EvCommit])
                   (S (store_calls w)) (clock_reads w) (random_reads w))
      | None =>
          (Ok tt,
           mkWorld working Finished (log w ++ [EvCommit])
                   (S (store_calls w)) (clock_reads w) (random_reads w))
      end
  | _ => (Throw TransactionFinished, w)
  end.
Proof.
  destruct w as [db t lg n c r].
  unfold commit, bind, get_tx, set_tx, store_call, set_persisted, throw.
  cbn [tx]. destruct t as [|working|]; try reflexivity.
  cbn [persisted tx log store_calls clock_reads random_reads].
  destruct (store_fault env n); reflexivity.
Qed.

Lemma Purchase_findOne_run (id uid : option Z) (w : World) :
  Purchase_findOne env id uid w =
  match store_fault env (store_calls w) with
  | Some e => (Throw (StoreRejected e), logged EvSelectPurchase w)
  | None =>
      (Ok (option_map (view true (persisted w))
                      (find (matches id uid) (purchases (persisted w)))),
       logged EvSelectPurchase w)
  end.
Proof.
  destruct w as [db t lg n c r].
  unfold Purchase_findOne, read_persisted, bind, store_call, get_persisted,
    ret, logged.
  cbn [persisted tx log store_calls clock_reads random_reads].
  destruct (store_fault env n); reflexivity.
Qed.

Lemma Settled_tail (id : Z) :
  Settled (commit env ;;;
           completePurchase <- Purchase_findByPk env id ;;
           ret (Json 201 (Created "Compra realizada exitosamente"
                                  completePurchase))).
Proof.
  intros w Hn.
  remember ((commit env ;;;
             completePurchase <- Purchase_findByPk env id ;;
             ret (Json 201 (Created "Compra realizada exitosamente"
                                    completePurchase))) w) as out eqn:E.
  unfold bind in E. rewrite commit_run in E.
  destruct (tx w) as [|working|];
    try (subst out; left; split; [reflexivity | exact Hn]).
  destruct (store_fault env (store_calls w)) as [e|].
  - subst out. cbn [fst snd persisted log]. left. split; [reflexivity|].
    intros Hin. apply in_app_or in Hin as [Hin|[Hin|[]]]; [auto | discriminate].
  - unfold Purchase_findByPk in E. rewrite Purchase_findOne_run in E.
    cbn [store_calls] in E.
    destruct (store_fault env (S (store_calls w))) as [e|]; subst out;
      cbn [fst snd logged persisted log tx ret];
      right; (split; [apply in_or_app; right; now left|]);
      (split; [reflexivity|]).
    + left. eexists. reflexivity.
    + right. eexists. split; [reflexivity|]. eexists. reflexivity.
Qed.

Lemma Settled_purchase_body (user : User.t) (body : RawBody) :
  Settled (purchase_body env user body).
Proof.
  unfold purchase_body.
  destruct (purchaseSchema body) as [message|productos].
  { apply Settled_Pre, Pre_bind; [apply Pre_rollback|]. intros _. apply Pre_ret. }
  apply Settled_bind.
  { unfold Product_findAll_locked.
    apply Respects_in_transaction with (allowed := not_read_back); bc_side. }
  intros available. unfold purchase_locked.
  destruct (negb _).
  { apply Settled_Pre, Pre_bind; [apply Pre_rollback|]. intros _. apply Pre_ret. }
  apply Settled_bind.
  { apply Respects_price_lines with (allowed := not_read_back); bc_side. }
  intros [response|[total detalles]]; [apply Settled_Pre, Pre_ret|].
  apply Settled_bind.
  { apply Respects_sequence_invoice with (allowed := not_read_back); bc_side. }
  intros [response|numeroFactura]; [apply Settled_Pre, Pre_ret|].
  apply Settled_bind.
  { apply Respects_now. bc_side. }
  intros fecha.
  apply Settled_bind.
  { apply Respects_Purchase_create with (allowed := not_read_back); bc_side. }
  intros purchase.
  apply Settled_bind.
  { apply Respects_create_details with (allowed := not_read_back); bc_side. }
  intros created.
  apply Settled_bind.
  { apply Respects_update_stock with (allowed := not_read_back); bc_side. }
  intros _. apply Settled_tail.
Qed.

Theorem create_purchase_all_or_nothing (user : User.t) (body : RawBody)
    (w : World) :
  ~ In EvSelectPurchase (log w) ->
  let r := fst (respond (create_purchase env user body) w) in
  let w' := snd (respond (create_purchase env user body) w) in
  (persisted w' = persisted w /\ ~ In EvSelectPurchase (log w'))
  \/ (In EvSelectPurchase (log w')
      /\ (is_created r \/ r = Rejected TransactionFinished)).
Proof.
  intros Hn. cbv zeta. unfold respond, create_purchase, bind.
  destruct (Pre_sequelize_transaction w) as [P0 L0].
  destruct (sequelize_transaction env w) as [[[]|e0] w1]; cbn [snd fst] in *.
  2:{ left. split; [exact P0 | auto]. }
  assert (Hn1 : ~ In EvSelectPurchase (log w1)) by auto.
  unfold try_catch.
  destruct (Settled_purchase_body user body w1 Hn1) as [[P L]|(L & T & H)].
  - destruct (purchase_body env user body w1) as [[r|e] w2]; cbn [snd fst] in *.
    + left. split; [congruence | exact L].
    + destruct (Pre_on_error e w2) as [P2 L2].
      destruct (on_error e w2) as [[r|e'] w3]; cbn [snd fst] in *;
        left; (split; [congruence | auto]).
  - destruct (purchase_body env user body w1) as [[r|e] w2]; cbn [snd fst] in *.
    + destruct H as [[e He]|(r' & Hr & Hc)]; [discriminate|].
      inversion Hr; subst. right. split; [exact L | left; exact Hc].
    + unfold on_error, bind. rewrite rollback_run, T. cbn [snd fst].
      right. split; [exact L | right; reflexivity].
Qed.

End Atomicity.

(* ================================================================== *)
(** * Carts that are turned down *)
(* ================================================================== *)

Section Rejections.

Variable env : Env.

Lemma sequelize_transaction_run (w : World) :
  store_fault env (store_calls w) = None ->
  sequelize_transaction env w =
  (Ok tt, mkWorld (persisted w) (Open (persisted w)) (log w ++ [EvBegin])
                  (S (store_calls w)) (clock_reads w) (random_reads w)).
Proof.
  intros Hf. unfold sequelize_transaction, bind, store_call, get_persisted,
               set_tx.
  rewrite Hf. reflexivity.
Qed.

Lemma price_lines_insufficient (available : list Product.t) (item : Item)
    (post : list Item) (p : Product.t) (working : DB) :
  find (fun q => Product.id q =? product_id item) available = Some p ->
  Product.cantidad_disponible p < cantidad item ->
  forall (pre : list Item) (total : Q) (detalles : list Detalle) (w : World),
    tx w = Open working ->
    (forall i, In i pre ->
       exists q, find (fun q => Product.id q =? product_id i) available
                 = Some q
                 /\ cantidad i <= Product.cantidad_disponible q) ->
    price_lines (pre ++ item :: post) available total detalles w =
    (Ok (inl (Json 400 (Failure (insufficient_stock_message p item) []))),
     mkWorld (persisted w) Finished (log w ++ [EvRollback]) (store_calls w)
             (clock_reads w) (random_reads w)).
Proof.
  intros Hfind Hlt. induction pre as [|i pre IH];
    intros total detalles w Htx Hpre.
  - cbn [List.app price_lines]. rewrite Hfind.
    apply Z.ltb_lt in Hlt. rewrite Hlt.
    unfold bind. rewrite rollback_run, Htx. reflexivity.
  - cbn [List.app price_lines].
    destruct (Hpre i (or_introl eq_refl)) as (q & Hq & Hle).
    rewrite Hq. apply Z.ltb_ge in Hle. rewrite Hle.
    apply IH; [exact Htx|]. intros j Hj. apply Hpre. now right.
Qed.

(** C6, as amended. When the lines before [item] are in stock and [item]
    asks for more than the stock of its product [p], the purchase answers
    400 with the message 'Stock insuficiente para <nombre>. Disponible:
    <stock>, Solicitado: <cantidad>': it carries the name of [p] (not its
    identifier), its stock and the quantity asked; the transaction is
    rolled back after the lock query, without any write, and the tables are
    unchanged. *)
Theorem insufficient_stock_fails (user : User.t) (body : RawBody)
    (pre post : list Item) (item : Item) (p : Product.t) (w : World) :
  store_fault env (store_calls w) = None ->
  store_fault env (S (store_calls w)) = None ->
  purchaseSchema body = inr (pre ++ item :: post)%list ->
  lockable (pre ++ item :: post) (persisted w) ->
  Forall (in_stock (persisted w)) pre ->
  In p (products (persisted w)) ->
  Product.id p = product_id item ->
  Product.cantidad_disponible p < cantidad item ->
  respond (create_purchase env user body) w =
  (Json 400
     (Failure
        ("Stock insuficiente para " ++ Product.nombre p
         ++ ". Disponible: " ++ show_Z (Product.cantidad_disponible p)
         ++ ", Solicitado: " ++ show_Z (cantidad item))
        []),
   mkWorld (persisted w) Finished
     (log w ++ [EvBegin;
                EvSelectProductsForUpdate
                  (map product_id (pre ++ item :: post));
                EvRollback])
     (S (S (store_calls w))) (clock_reads w) (random_reads w)).
Proof.
  intros Hf0 Hf1 Hschema Hlock Hpre Hp Hid Hlt.
  fold (insufficient_stock_message p item).
  set (productos := (pre ++ item :: post)%list) in *.
  unfold respond, create_purchase. unfold bind at 1.
  rewrite (sequelize_transaction_run w Hf0).
  unfold try_catch, purchase_body. rewrite Hschema.
  unfold bind at 1. unfold Product_findAll_locked.
  rewrite in_transaction_run. cbn [store_calls tx]. rewrite Hf1.
  cbv [with_tx logged].
  cbn [fst snd persisted log store_calls clock_reads random_reads tx].
  fold (locked_products (map product_id productos) (persisted w)).
  unfold purchase_locked.
  rewrite (locked_length Hlock), Nat.eqb_refl. cbn [negb].
  unfold bind at 1.
  assert (Hitem : In item productos) by (apply in_or_app; right; now left).
  destruct (locked_find Hlock item Hitem) as (p' & Hfind & Hp' & Hid').
  assert (p' = p).
  { apply (same_id_same_product Hlock p' p Hp' Hp). congruence. }
  subst p'.
  unfold productos at 2.
  erewrite (@price_lines_insufficient _ item post p (persisted w) Hfind Hlt
              pre 0%Q []); [ | reflexivity | ].
  - cbn [persisted log store_calls clock_reads random_reads].
    rewrite <- !app_assoc. reflexivity.
  - intros i Hi.
    assert (Hi' : In i productos) by (apply in_or_app; now left).
    destruct (locked_find Hlock i Hi') as (q & Hq & Hqin & Hqid).
    exists q. split; [exact Hq|].
    exact (proj1 (Forall_forall _ _) Hpre i Hi q Hqin Hqid).
Qed.

(** ** Malformed carts *)

Lemma purchaseItemSchema_rejects (index : nat) (it : RawItem) (q : Q) :
  raw_cantidad it = Some q -> (is_integer q = false \/ (q <= 0)%Q) ->
  exists msg, purchaseItemSchema index it = inl msg.
Proof.
  intros Hq Hbad. unfold purchaseItemSchema.
  destruct (raw_product_id it) as [pid|]; [|eauto].
  destruct (unsafe pid); [eauto|].
  destruct (negb (is_integer pid)); [eauto|].
  destruct (negb (Qltb 0 pid)); [eauto|].
  rewrite Hq. destruct (unsafe q); [eauto|].
  destruct (is_integer q) eqn:Iq; cbn [negb]; [|eauto].
  destruct Hbad as [Hbad|Hbad]; [discriminate|].
  assert (Hlt : Qltb q 1 = true).
  { unfold Qltb. apply negb_true_iff.
    destruct (Qle_bool 1 q) eqn:E; [|reflexivity].
    apply Qle_bool_iff in E. lra. }
  rewrite Hlt. eauto.
Qed.

Lemma purchaseItemSchema_unsafe (index : nat) (it : RawItem) (v : Q) :
  raw_product_id it = Some v \/ raw_cantidad it = Some v ->
  beyond_safe v ->
  exists msg, purchaseItemSchema index it = inl msg.
Proof.
  intros Hv Hbad. apply unsafe_beyond in Hbad. unfold purchaseItemSchema.
  destruct Hv as [Hv|Hv].
  - rewrite Hv, Hbad. eauto.
  - destruct (raw_product_id it) as [pid|]; [|eauto].
    destruct (unsafe pid); [eauto|].
    destruct (negb (is_integer pid)); [eauto|].
    destruct (negb (Qltb 0 pid)); [eauto|].
    rewrite Hv, Hbad. eauto.
Qed.

Lemma validate_items_rejects (l : list RawItem) (it : RawItem) :
  In it l ->
  (forall index, exists msg, purchaseItemSchema index it = inl msg) ->
  forall index, exists msg, validate_items index l = inl msg.
Proof.
  intros Hin Hbad. induction l as [|x l IH]; [contradiction|].
  intros index. cbn [validate_items]. destruct Hin as [->|Hin].
  - destruct (Hbad index) as [msg ->]. eauto.
  - destruct (purchaseItemSchema index x); [eauto|].
    destruct (IH Hin (S index)) as [msg ->]. eauto.
Qed.

Lemma schema_malformed_rejected (body : RawBody) :
  schema_malformed body -> exists msg, purchaseSchema body = inl msg.
Proof.
  unfold purchaseSchema.
  intros [H|[(l & it & q & H & Hin & Hq & Hbad)
            |(l & it & v & H & Hin & Hv & Hbad)]]; rewrite H.
  - cbn. eauto.
  - destruct (@validate_items_rejects l it Hin
                (fun index => @purchaseItemSchema_rejects index it q Hq Hbad)
                0%nat) as [msg ->].
    eauto.
  - destruct (@validate_items_rejects l it Hin
                (fun index => @purchaseItemSchema_unsafe index it v Hv Hbad)
                0%nat) as [msg ->].
    eauto.
Qed.

Lemma duplicates_shorten_lock (ids : list Z) (db : DB) :
  NoDup (map Product.id (products db)) -> ~ NoDup ids ->
  (List.length (locked_products ids db) =? List.length ids)%nat = false.
Proof.
  intros Hnd Hdup. apply Nat.eqb_neq. intros E. apply Hdup.
  apply (NoDup_incl_NoDup (l := map Product.id (locked_products ids db))).
  - unfold locked_products. now apply NoDup_map_filter.
  - rewrite length_map. lia.
  - intros i Hi. apply in_map_iff in Hi as (p & <- & Hp).
    unfold locked_products in Hp. apply filter_In in Hp as [_ Hp].
    apply andb_true_iff in Hp as [Hp _]. now apply existsb_eqb_In in Hp.
Qed.

(** C7, as amended. An empty cart, or a cart with a quantity that is not
    an integer or not positive, or with a product identifier or a quantity
    that is not a safe number, is answered 400 by the validation, and the
    transaction is rolled back before any query.  A cart that names a
    product twice and passes the schema is answered 404 after the lock
    query, with nothing written. *)
Theorem malformed_cart_rejected (user : User.t) (body : RawBody) (w : World) :
  store_fault env (store_calls w) = None ->
  (schema_malformed body ->
   exists msg,
     respond (create_purchase env user body) w =
     (Json 400 (Failure "Error de validación de datos" [msg]),
      mkWorld (persisted w) Finished (log w ++ [EvBegin; EvRollback])
              (S (store_calls w)) (clock_reads w) (random_reads w)))
  /\ (forall productos,
        purchaseSchema body = inr productos ->
        ~ NoDup (map product_id productos) ->
        NoDup (map Product.id (products (persisted w))) ->
        store_fault env (S (store_calls w)) = None ->
        exists missingIds,
          respond (create_purchase env user body) w =
          (Json 404 (Failure (missing_message missingIds) []),
           mkWorld (persisted w) Finished
             (log w ++ [EvBegin;
                        EvSelectProductsForUpdate (map product_id productos);
                        EvRollback])
             (S (S (store_calls w))) (clock_reads w) (random_reads w))).
Proof.
  intros Hf0. split.
  - intros Hbad. destruct (schema_malformed_rejected Hbad) as [msg Hmsg].
    exists msg. unfold respond, create_purchase. unfold bind at 1.
    rewrite (sequelize_transaction_run w Hf0).
    unfold try_catch, purchase_body. rewrite Hmsg.
    unfold bind. rewrite rollback_run. cbn [tx ret].
    cbn [persisted log store_calls clock_reads random_reads].
    rewrite <- !app_assoc. reflexivity.
  - intros productos Hschema Hdup Hnd Hf1.
    eexists. unfold respond, create_purchase. unfold bind at 1.
    rewrite (sequelize_transaction_run w Hf0).
    unfold try_catch, purchase_body. rewrite Hschema.
    unfold bind at 1. unfold Product_findAll_locked.
    rewrite in_transaction_run. cbn [store_calls tx]. rewrite Hf1.
    cbv [with_tx logged].
    cbn [fst snd persisted log store_calls clock_reads random_reads tx].
    fold (locked_products (map product_id productos) (persisted w)).
    unfold purchase_locked.
    rewrite (duplicates_shorten_lock _ Hnd Hdup). cbn [negb].
    unfold bind. rewrite rollback_run. cbn [tx ret].
    cbn [persisted log store_calls clock_reads random_reads].
    rewrite <- !app_assoc. reflexivity.
Qed.

End Rejections.

(* ================================================================== *)
(** * The lock query *)
(* ================================================================== *)

Section LockOrder.

Variable env : Env.

Lemma no_more_locks_refl (w : World) : no_more_locks w w.
Proof. exists []. split; [now rewrite app_nil_r | constructor]. Qed.

Lemma no_more_locks_trans (a b c : World) :
  no_more_locks a b -> no_more_locks b c -> no_more_locks a c.
Proof.
  intros (e1 & L1 & F1) (e2 & L2 & F2). exists (e1 ++ e2)%list. split.
  - now rewrite L2, L1, app_assoc.
  - apply Forall_app. now split.
Qed.

Lemma no_more_locks_same_log (w w' : World) :
  log w' = log w -> no_more_locks w w'.
Proof. intros L. exists []. split; [now rewrite app_nil_r | constructor]. Qed.

Lemma no_more_locks_quiet (w w' : World) :
  persisted w' = persisted w -> log w' = log w -> no_more_locks w w'.
Proof. intros _. apply no_more_locks_same_log. Qed.

Lemma no_more_locks_logs (w w' : World) (ev : Event) :
  not_lock ev -> persisted w' = persisted w ->
  log w' = (log w ++ [ev])%list -> no_more_locks w w'.
Proof. intros Ha _ L. exists [ev]. split; [exact L | now constructor]. Qed.

Ltac nl_side :=
  solve [ exact no_more_locks_refl | exact no_more_locks_trans
        | exact no_more_locks_quiet | exact no_more_locks_logs
        | exact no_more_locks_same_log
        | (intros; intro; discriminate) ].

Lemma purchase_locked_no_more_locks (user : User.t) (productos : list Item)
    (available : list Product.t) :
  Respects no_more_locks (purchase_locked env user productos available).
Proof.
  unfold purchase_locked.
  destruct (negb _).
  { apply Respects_bind; [nl_side | |].
    - apply Respects_rollback with (allowed := not_lock); nl_side.
    - intros _. apply Respects_ret. nl_side. }
  apply Respects_bind; [nl_side | |].
  { apply Respects_price_lines with (allowed := not_lock); nl_side. }
  intros [response|[total detalles]]; [apply Respects_ret; nl_side|].
  apply Respects_bind; [nl_side | |].
  { apply Respects_sequence_invoice with (allowed := not_lock); nl_side. }
  intros [response|numeroFactura]; [apply Respects_ret; nl_side|].
  apply Respects_bind; [nl_side | |].
  { apply Respects_now. nl_side. }
  intros fecha.
  apply Respects_bind; [nl_side | |].
  { apply Respects_Purchase_create with (allowed := not_lock); nl_side. }
  intros purchase.
  apply Respects_bind; [nl_side | |].
  { apply Respects_create_details with (allowed := not_lock); nl_side. }
  intros created.
  apply Respects_bind; [nl_side | |].
  { apply Respects_update_stock with (allowed := not_lock); nl_side. }
  intros _.
  apply Respects_bind; [nl_side | |].
  { apply Respects_commit with (allowed := not_lock); nl_side. }
  intros _.
  apply Respects_bind; [nl_side | |].
  { unfold Purchase_findByPk, Purchase_findOne.
    apply Respects_read_persisted with (allowed := not_lock); nl_side. }
  intros cp. apply Respects_ret. nl_side.
Qed.

Lemma on_error_no_more_locks (e : Error) : Respects no_more_locks (on_error e).
Proof. apply Respects_on_error with (allowed := not_lock); nl_side. Qed.

Lemma refused_no_more_locks (user : User.t) (body : RawBody)
    (message : string) :
  purchaseSchema body = inl message ->
  Respects no_more_locks (create_purchase env user body).
Proof.
  intros Hmsg. unfold create_purchase.
  apply Respects_bind; [nl_side | |].
  { apply Respects_sequelize_transaction with (allowed := not_lock); nl_side. }
  intros _. apply Respects_try_catch; [nl_side | |].
  - unfold purchase_body. rewrite Hmsg.
    apply Respects_bind; [nl_side | |].
    + apply Respects_rollback with (allowed := not_lock); nl_side.
    + intros _. apply Respects_ret. nl_side.
  - intros e. apply on_error_no_more_locks.
Qed.

Lemma not_begun_no_more_locks (user : User.t) (body : RawBody) (w : World) :
  store_fault env (store_calls w) <> None ->
  no_more_locks w (snd (create_purchase env user body w)).
Proof.
  intros Hf. unfold create_purchase, sequelize_transaction, bind, store_call.
  destruct (store_fault env (store_calls w)) as [e|]; [|contradiction].
  cbn [snd]. exists [EvBegin]. split; [reflexivity|].
  constructor; [intros ids; discriminate | constructor].
Qed.

(** C8, as amended. For every cart that passes the validation, in a
    transaction that the store has begun, the products are locked by one
    query, the first of the transaction, which is handed their identifiers
    in the order of the cart; no other lock query follows.  A cart that the
    validation refuses, or a transaction that the store does not begin,
    comes to no lock query. *)
Theorem lock_query_in_cart_order (user : User.t) (body : RawBody)
    (w : World) :
  let after := log (snd (respond (create_purchase env user body) w)) in
  (forall productos,
      purchaseSchema body = inr productos ->
      store_fault env (store_calls w) = None ->
      exists evs,
        after
        = (log w ++ [EvBegin;
                     EvSelectProductsForUpdate (map product_id productos)]
           ++ evs)%list
        /\ Forall not_lock evs)
  /\ ((exists message, purchaseSchema body = inl message)
      \/ store_fault env (store_calls w) <> None ->
      exists evs, after = (log w ++ evs)%list /\ Forall not_lock evs).
Proof.
  cbv zeta. split.
  - intros productos Hschema Hf0.
    unfold respond, create_purchase. unfold bind at 1.
    rewrite (sequelize_transaction_run env w Hf0).
    unfold try_catch, purchase_body. rewrite Hschema.
    unfold bind at 1. unfold Product_findAll_locked.
    rewrite in_transaction_run.
    cbn [store_calls tx].
    set (ids := map product_id productos).
    destruct (store_fault env (S (store_calls w))) as [e|].
    + set (w1 := logged _ _).
      destruct (on_error_no_more_locks (StoreRejected e) w1) as (evs & L & F).
      exists evs. split; [|exact F].
      destruct (on_error (StoreRejected e) w1) as [[r|e'] w2]; cbn [snd] in *;
        rewrite L; unfold w1; cbn [logged log]; now rewrite <- !app_assoc.
    + cbn [fst snd]. set (w1 := with_tx _ _).
      set (available := filter _ _).
      pose proof (purchase_locked_no_more_locks user productos available w1)
        as (evs1 & L1 & F1).
      destruct (purchase_locked env user productos available w1)
        as [[r|e] w2]; cbn [snd] in *.
      * exists evs1. split; [|exact F1]. rewrite L1. unfold w1.
        cbn [with_tx logged log]. now rewrite <- !app_assoc.
      * destruct (on_error_no_more_locks e w2) as (evs2 & L2 & F2).
        exists (evs1 ++ evs2)%list. split; [|apply Forall_app; now split].
        destruct (on_error e w2) as [[r|e'] w3]; cbn [snd] in *;
          rewrite L2, L1; unfold w1; cbn [with_tx logged log];
          now rewrite <- !app_assoc.
  - intros H.
    assert (Hs : snd (respond (create_purchase env user body) w)
                 = snd (create_purchase env user body w)).
    { unfold respond.
      now destruct (create_purchase env user body w) as [[r|e] w1]. }
    rewrite Hs. destruct H as [[message Hmsg]|Hf].
    + exact (@refused_no_more_locks user body message Hmsg w).
    + exact (@not_begun_no_more_locks user body w Hf).
Qed.

End LockOrder.

(* ================================================================== *)
(** * The bound of the invoice sequencer *)
(* ================================================================== *)

Section Exhaustion.

Variable env : Env.



End Exhaustion.

(* ================================================================== *)
(** * The read routes *)
(* ================================================================== *)

(** ** Lists *)





Lemma In_firstn {A} (x : A) (n : nat) (l : list A) :
  In x (firstn n l) -> In x l.
Proof.
  revert l. induction n as [|n IH]; intros l; [intros []|].
  destruct l as [|a l]; cbn [firstn In]; [auto|].
  intros [->|H]; [now left | right; now apply IH].
Qed.


Section Reads.

Variable env : Env.

Lemma read_persisted_run {A} (ev : Event) (q : DB -> A) (w : World) :
  read_persisted env ev q w =
  match store_fault env (store_calls w) with
  | Some e => (Throw (StoreRejected e), logged ev w)
  | None => (Ok (q (persisted w)), logged ev w)
  end.
Proof.
  unfold read_persisted, bind, store_call, get_persisted, ret, logged.
  destruct (store_fault env (store_calls w)); reflexivity.
Qed.


Lemma own_matches (u : Z) (db : DB) :
  filter (matches None (Some u)) (purchases db) = own u db.
Proof. reflexivity. Qed.









End Reads.

(* ================================================================== *)
(** * The examples of the specification, and the limits of the claims *)
(* ================================================================== *)

(** ** Facts about the concrete tables *)

Lemma env_half_no_rejection : no_rejection env_half.
Proof. intros n. reflexivity. Qed.

Lemma cart_example_valid : purchaseSchema cart_example = inr cart_items.
Proof. reflexivity. Qed.

Lemma cart_items_lockable (purchases0 : list Purchase.t)
    (details0 : list PurchaseDetail.t) :
  lockable cart_items
           (mkDB [cliente; otro] [product_A; product_B] purchases0 details0).
Proof.
  split; [|split].
  - repeat constructor; cbn; intuition discriminate.
  - repeat constructor; cbn; intuition discriminate.
  - intros item [<-|[<-|[]]].
    + exists product_A. cbn. auto.
    + exists product_B. cbn. auto.
Qed.

Lemma cart_items_servable (purchases0 : list Purchase.t)
    (details0 : list PurchaseDetail.t) :
  servable cart_items
           (mkDB [cliente; otro] [product_A; product_B] purchases0 details0).
Proof.
  split; [apply cart_items_lockable|].
  repeat constructor; intros p [<-|[<-|[]]] Hid; cbn in *;
    solve [lia | discriminate].
Qed.

Lemma first_candidate_free :
  first_free env_half (initial_world db_example) 0.
Proof. split; [intros j Hj; lia | reflexivity]. Qed.


(** ** Stock *)

Lemma purchase_decrements_stock_witness :
  exists data w',
    respond (create_purchase env_half cliente cart_example)
            (initial_world db_example)
    = (Json 201 (Created "Compra realizada exitosamente" (Some data)), w')
    /\ products (persisted w') = map (bought cart_items) (products db_example)
    /\ (forall item p,
          In item cart_items -> Product.id p = product_id item ->
          bought cart_items p
          = Product.with_cantidad_disponible
              (Product.cantidad_disponible p - cantidad item) p)
    /\ (forall p, ~ In (Product.id p) (map product_id cart_items) ->
                  bought cart_items p = p).
Proof.
  apply (@purchase_decrements_stock env_half cliente cart_example cart_items
           (initial_world db_example) 0%nat).
  - exact env_half_no_rejection.
  - reflexivity.
  - apply cart_items_servable.
  - unfold maxAttempts. lia.
  - exact first_candidate_free.
Defined.

Example example_scenario_stock :
  map Product.cantidad_disponible
      (products (persisted (snd (respond
         (create_purchase env_half cliente cart_example)
         (initial_world db_example)))))
  = [3; 4].
Proof. vm_compute. reflexivity. Qed.

(** The cart of the example is valid and in stock, and the purchase fails:
    the five invoice numbers generated are taken. *)
Lemma purchase_can_exhaust_sequencer :
  no_rejection env_half
  /\ purchaseSchema cart_example = inr cart_items
  /\ servable cart_items db_taken
  /\ fst (respond (create_purchase env_half cliente cart_example)
                  (initial_world db_taken))
     = sequencing_exhausted
  /\ products (persisted (snd (respond
                 (create_purchase env_half cliente cart_example)
                 (initial_world db_taken))))
     = products db_taken.
Proof.
  split; [exact env_half_no_rejection|]. split; [reflexivity|].
  split; [apply cart_items_servable|].
  split; vm_compute; reflexivity.
Qed.

(** ** Atomicity *)

(** C2, at the failing input: the store rejects the read-back that follows
    the commit; the handler rejects, and the purchase stays persisted. *)
Theorem read_back_failure_keeps_purchase :
  fst (respond (create_purchase env_read_back_fails cliente cart_example)
               (initial_world db_example))
  = Rejected TransactionFinished
  /\ persisted (snd (respond
        (create_purchase env_read_back_fails cliente cart_example)
        (initial_world db_example)))
     <> db_example
  /\ map Product.cantidad_disponible
         (products (persisted (snd (respond
            (create_purchase env_read_back_fails cliente cart_example)
            (initial_world db_example)))))
     = [3; 4]
  /\ List.length
       (purchases (persisted (snd (respond
          (create_purchase env_read_back_fails cliente cart_example)
          (initial_world db_example)))))
     = 1%nat.
Proof.
  split; [vm_compute; reflexivity|]. split; [|split; vm_compute; reflexivity].
  intros H.
  apply (f_equal (fun db => List.length (purchases db))) in H.
  vm_compute in H. discriminate.
Qed.

Lemma create_purchase_all_or_nothing_witness :
  (persisted (snd (respond (create_purchase env_half cliente cart_too_much)
                           (initial_world db_example)))
   = persisted (initial_world db_example)
   /\ ~ In EvSelectPurchase
          (log (snd (respond (create_purchase env_half cliente cart_too_much)
                             (initial_world db_example)))))
  \/ (In EvSelectPurchase
         (log (snd (respond (create_purchase env_half cliente cart_too_much)
                            (initial_world db_example))))
      /\ (is_created
            (fst (respond (create_purchase env_half cliente cart_too_much)
                          (initial_world db_example)))
          \/ fst (respond (create_purchase env_half cliente cart_too_much)
                          (initial_world db_example))
             = Rejected TransactionFinished)).
Proof.
  apply (@create_purchase_all_or_nothing env_half cliente cart_too_much
           (initial_world db_example)).
  cbn. auto.
Defined.

(** ** Amounts *)


Example example_scenario_total :
  map Purchase.total
      (purchases (persisted (snd (respond
         (create_purchase env_half cliente cart_example)
         (initial_world db_example)))))
  = [2500].
Proof. vm_compute. reflexivity. Qed.


(** ** Invoice number *)

Lemma invoice_number_assigned_once_witness :
  exists data w' row,
    respond (create_purchase env_half cliente cart_example)
            (initial_world db_example)
    = (Json 201 (Created "Compra realizada exitosamente" (Some data)), w')
    /\ purchases (persisted w') = (purchases db_example ++ [row])%list
    /\ Purchase.numero_factura row = Some (candidate env_half (0 + 0) (0 + 0))
    /\ taken (candidate env_half (0 + 0) (0 + 0)) db_example = false
    /\ random_reads w' = (0 + 1)%nat
    /\ log w'
       = success_log env_half (initial_world db_example) cart_items
           (detalles_of (locked_products (map product_id cart_items)
                                         db_example) cart_items) 0
    /\ (forall w0, Purchase_beforeCreate env_half row w0 = (Ok row, w0)
                   /\ Purchase_beforeSave env_half row w0 = (Ok row, w0)).
Proof.
  apply (@invoice_number_assigned_once env_half cliente cart_example cart_items
           (initial_world db_example) 0%nat).
  - exact env_half_no_rejection.
  - reflexivity.
  - apply cart_items_servable.
  - unfold maxAttempts. lia.
  - exact first_candidate_free.
Defined.


(** ** Insufficient stock *)

Lemma insufficient_stock_fails_witness :
  respond (create_purchase env_half cliente cart_too_much)
          (initial_world db_example)
  = (Json 400
       (Failure "Stock insuficiente para A. Disponible: 5, Solicitado: 10"
                []),
     mkWorld db_example Finished
       [EvBegin; EvSelectProductsForUpdate [1]; EvRollback] 2 0 0).
Proof.
  apply (@insufficient_stock_fails env_half cliente cart_too_much [] []
           (mkItem 1 10) product_A (initial_world db_example)).
  - reflexivity.
  - reflexivity.
  - reflexivity.
  - split; [|split].
    + repeat constructor; cbn; intuition discriminate.
    + repeat constructor; cbn; intuition discriminate.
    + intros item [<-|[]]. exists product_A. cbn. auto.
  - constructor.
  - cbn. auto.
  - reflexivity.
  - cbn. lia.
Defined.

Example example_scenario_insufficient :
  insufficient_stock_message product_A (mkItem 1 10)
  = "Stock insuficiente para A. Disponible: 5, Solicitado: 10".
Proof. reflexivity. Qed.

(** The failure does not carry the identity of the product: two products
    of the same name and stock, asked for the same quantity in two carts,
    give the same answer, in which no identifier appears. *)
Lemma insufficient_stock_names_no_product :
  fst (respond (create_purchase env_half cliente cart_first_homonym)
               (initial_world db_homonyms))
  = Json 400
      (Failure "Stock insuficiente para A. Disponible: 3, Solicitado: 10" [])
  /\ fst (respond (create_purchase env_half cliente cart_second_homonym)
                  (initial_world db_homonyms))
     = Json 400
         (Failure "Stock insuficiente para A. Disponible: 3, Solicitado: 10"
                  []).
Proof. split; vm_compute; reflexivity. Qed.

(** ** Malformed carts *)

Lemma malformed_cart_rejected_witness :
  (exists msg,
      respond (create_purchase env_half cliente cart_empty)
              (initial_world db_example)
      = (Json 400 (Failure "Error de validación de datos" [msg]),
         mkWorld db_example Finished [EvBegin; EvRollback] 1 0 0))
  /\ (exists msg,
        respond (create_purchase env_half cliente cart_unsafe)
                (initial_world db_example)
        = (Json 400 (Failure "Error de validación de datos" [msg]),
           mkWorld db_example Finished [EvBegin; EvRollback] 1 0 0))
  /\ (exists missingIds,
        respond (create_purchase env_half cliente cart_duplicate)
                (initial_world db_example)
        = (Json 404 (Failure (missing_message missingIds) []),
           mkWorld db_example Finished
             [EvBegin; EvSelectProductsForUpdate [1; 1]; EvRollback] 2 0 0)).
Proof.
  split; [|split].
  - apply (proj1 (@malformed_cart_rejected env_half cliente cart_empty
                    (initial_world db_example) eq_refl)).
    left. reflexivity.
  - apply (proj1 (@malformed_cart_rejected env_half cliente cart_unsafe
                    (initial_world db_example) eq_refl)).
    right. right.
    exists [raw_item 1 (2 ^ 53)], (raw_item 1 (2 ^ 53)), (inject_Z (2 ^ 53)).
    split; [reflexivity|]. split; [now left|].
    split; [now right|]. left. reflexivity.
  - apply (proj2 (@malformed_cart_rejected env_half cliente cart_duplicate
                    (initial_world db_example) eq_refl)
             [mkItem 1 1; mkItem 1 1]).
    + reflexivity.
    + intros H. inversion H as [|? ? Hn _]. apply Hn. now left.
    + repeat constructor; cbn; intuition discriminate.
    + reflexivity.
Defined.

(** A quantity of 2^53 is refused by the validation, with the message of
    Joi for a number that is not safe. *)
Example unsafe_quantity_refused :
  fst (respond (create_purchase env_half cliente cart_unsafe)
               (initial_world db_example))
  = Json 400
      (Failure "Error de validación de datos"
         [String "034"
            ("productos[0].cantidad"
             ++ String "034" " must be a safe number")]).
Proof. vm_compute. reflexivity. Qed.

(** A cart that names a product twice passes the schema: the lock query
    runs, and the answer is 404, not a validation error. *)
Lemma duplicate_cart_reaches_lock_query :
  respond (create_purchase env_half cliente cart_duplicate)
          (initial_world db_example)
  = (Json 404 (Failure "Productos no encontrados o inactivos: " []),
     mkWorld db_example Finished
       [EvBegin; EvSelectProductsForUpdate [1; 1]; EvRollback] 2 0 0).
Proof. vm_compute. reflexivity. Qed.

(** ** Lock order *)

Lemma lock_query_in_cart_order_witness :
  exists evs,
    log (snd (respond (create_purchase env_half cliente cart_swapped)
                      (initial_world db_example)))
    = (log (initial_world db_example)
       ++ [EvBegin;
           EvSelectProductsForUpdate
             (map product_id [mkItem 2 1; mkItem 1 2])]
       ++ evs)%list
    /\ Forall not_lock evs.
Proof.
  apply (proj1 (@lock_query_in_cart_order env_half cliente cart_swapped
                  (initial_world db_example))
               [mkItem 2 1; mkItem 1 2]);
    reflexivity.
Defined.

(** The same two products, listed B first: the lock query is handed the
    identifiers 2, 1; listed A first, it is handed 1, 2. *)
Lemma lock_query_not_sorted :
  nth_error (log (snd (respond (create_purchase env_half cliente cart_swapped)
                               (initial_world db_example)))) 1
  = Some (EvSelectProductsForUpdate [2; 1])
  /\ nth_error (log (snd (respond
                  (create_purchase env_half cliente cart_example)
                  (initial_world db_example)))) 1
     = Some (EvSelectProductsForUpdate [1; 2]).
Proof. split; vm_compute; reflexivity. Qed.

(** ** Read routes *)


Example other_client_purchase_hidden :
  fst (respond (get_purchase env_half cliente (Some 2))
               (initial_world db_two_clients)) = not_found.
Proof. vm_compute. reflexivity. Qed.

Example own_purchase_shown :
  status_of (fst (respond (get_purchase env_half cliente (Some 1))
                          (initial_world db_two_clients))) = Some 200.
Proof. vm_compute. reflexivity. Qed.

(* ================================================================== *)
(** * Every outcome of the purchase route *)
(* ================================================================== *)

(** ** Rules of the triples *)

Lemma triple_ret {A} (P : World -> Prop) (a : A) (Q : A -> World -> Prop)
    (E : Error -> World -> Prop) :
  (forall w, P w -> Q a w) -> triple P (ret a) Q E.
Proof. intros H w Hw. cbn. auto. Qed.

Lemma triple_throw {A} (P : World -> Prop) (e : Error)
    (Q : A -> World -> Prop) (E : Error -> World -> Prop) :
  (forall w, P w -> E e w) -> triple P (throw (A:=A) e) Q E.
Proof. intros H w Hw. cbn. auto. Qed.

Lemma triple_bind {A B} (P : World -> Prop) (m : M A) (f : A -> M B)
    (Q1 : A -> World -> Prop) (Q : B -> World -> Prop)
    (E : Error -> World -> Prop) :
  triple P m Q1 E -> (forall a, triple (Q1 a) (f a) Q E) ->
  triple P (bind m f) Q E.
Proof.
  intros Hm Hf w Hw. unfold bind. specialize (Hm w Hw).
  destruct (m w) as [[a|e] w1]; [exact (Hf a w1 Hm) | exact Hm].
Qed.

Lemma triple_try_catch {A} (P : World -> Prop) (m : M A) (h : Error -> M A)
    (Q : A -> World -> Prop) (E1 E : Error -> World -> Prop) :
  triple P m Q E1 -> (forall e, triple (E1 e) (h e) Q E) ->
  triple P (try_catch m h) Q E.
Proof.
  intros Hm Hh w Hw. unfold try_catch. specialize (Hm w Hw).
  destruct (m w) as [[a|e] w1]; [exact Hm | exact (Hh e w1 Hm)].
Qed.

Lemma triple_weaken {A} (P P' : World -> Prop) (m : M A)
    (Q Q' : A -> World -> Prop) (E E' : Error -> World -> Prop) :
  (forall w, P' w -> P w) -> (forall a w, Q a w -> Q' a w) ->
  (forall e w, E e w -> E' e w) ->
  triple P m Q E -> triple P' m Q' E'.
Proof.
  intros HP HQ HE H w Hw. specialize (H w (HP w Hw)).
  destruct (m w) as [[a|e] w1]; auto.
Qed.

(** ** The steps of the purchase, inside its transaction *)

Section PurchaseSteps.

Variable env : Env.
Variable db0 : DB.

Local Abbreviation failed := (fun (_ : Error) => untouched db0).

Lemma triple_in_transaction {A} (ev : Event) (q : DB -> A * DB)
    (working : DB) :
  triple (inside db0 working) (in_transaction env ev q)
         (fun a w => a = fst (q working) /\ inside db0 (snd (q working)) w)
         failed.
Proof.
  intros w [Hp Ht]. rewrite in_transaction_run.
  destruct (store_fault env (store_calls w)); [exact Hp|].
  rewrite Ht. split; [reflexivity | split; [exact Hp | reflexivity]].
Qed.

Lemma triple_rollback (working : DB) :
  triple (inside db0 working) rollback (fun _ => untouched db0) failed.
Proof. intros w [Hp Ht]. rewrite rollback_run, Ht. exact Hp. Qed.

Lemma triple_price_lines (working : DB) (available : list Product.t) :
  forall (productos : list Item) (total : Q) (detalles : list Detalle),
    triple (inside db0 working)
           (price_lines productos available total detalles)
           (fun r w =>
              match r with
              | inl response =>
                  untouched db0 w /\ status_of response = Some 400
              | inr (t, ds) =>
                  inside db0 working w
                  /\ Forall (accepted_line available) productos
                  /\ t = total_of (detalles_of available productos) total
                  /\ ds = (detalles ++ detalles_of available productos)%list
              end)
           failed.
Proof.
  induction productos as [|item rest IH]; intros total detalles w Hw.
  - cbn. rewrite app_nil_r. repeat split; try apply Hw. constructor.
  - cbn [price_lines detalles_of flat_map].
    destruct (find _ available) as [product|] eqn:Ef; [|apply Hw].
    destruct (_ <? _) eqn:El.
    + unfold bind. rewrite rollback_run. destruct Hw as [Hp Ht].
      rewrite Ht. split; [exact Hp | reflexivity].
    + specialize (IH (JsNumber.add total
                        (JsNumber.mul
                           (JsNumber.parseFloat_decimal (Product.precio product))
                           (inject_Z (cantidad item))))
                     (detalles
                      ++ [mkDetalle (Product.id product) (cantidad item)
                            (JsNumber.parseFloat_decimal
                               (Product.precio product))
                            (JsNumber.toFixed2
                               (JsNumber.mul
                                  (JsNumber.parseFloat_decimal
                                     (Product.precio product))
                                  (inject_Z (cantidad item))))
                            product])%list
                     w Hw).
      destruct (price_lines rest available _ _ w) as [[[r|[t ds]]|e] w1];
        try exact IH.
      destruct IH as (Hin & Hall & Ht & Hds).
      split; [exact Hin|]. split; [|split].
      * constructor; [|exact Hall]. exists product. split; [exact Ef|].
        now apply Z.ltb_ge.
      * exact Ht.
      * rewrite Hds, <- app_assoc. reflexivity.
Qed.

Lemma triple_sequence_invoice (working : DB) :
  forall (budget attempts : nat),
    triple (inside db0 working) (sequence_invoice env budget attempts)
           (fun r w =>
              match r with
              | inl response =>
                  untouched db0 w /\ status_of response = Some 500
              | inr nf =>
                  inside db0 working w /\ taken nf working = false
                  /\ falsy (Some nf) = false /\ blank nf = false
              end)
           failed.
Proof.
  induction budget as [|budget IH]; intros attempts w Hw.
  - apply Hw.
  - rewrite sequence_invoice_step. cbv zeta. destruct Hw as [Hp Ht].
    destruct (store_fault env (store_calls w)); [exact Hp|].
    rewrite Ht.
    destruct (find _ (purchases working)) eqn:Ef.
    + destruct (maxAttempts <=? S attempts)%nat eqn:E1;
        [split; [exact Hp | reflexivity]|].
      destruct (S attempts <? maxAttempts)%nat eqn:E2.
      * apply IH. split; [exact Hp | reflexivity].
      * apply Nat.leb_gt in E1. apply Nat.ltb_ge in E2. lia.
    + split; [split; [exact Hp | reflexivity]|].
      split; [|split; reflexivity].
      unfold taken. rewrite find_existsb, Ef. reflexivity.
Qed.

Lemma triple_Purchase_create (working : DB) (uid total : Z) (nf : string)
    (e : Estado) (fecha : Z) :
  falsy (Some nf) = false -> blank nf = false ->
  triple (inside db0 working)
         (Purchase_create env uid total (Some nf) e fecha)
         (fun row w =>
            inside db0 (mkDB (users working) (products working)
                             (purchases working ++ [row])
                             (purchase_details working)) w
            /\ exists created,
                 row = Purchase.mk
                         (next_id (map Purchase.id (purchases working)))
                         uid fecha total e (Some nf) created)
         failed.
Proof.
  intros Hfalsy Hblank w [Hp Ht]. unfold Purchase_create.
  unfold bind at 1. cbn [now].
  unfold bind at 1. unfold Purchase_beforeCreate.
  cbn [Purchase.numero_factura]. rewrite Hfalsy. cbn [ret].
  unfold bind at 1. unfold Purchase_beforeSave.
  cbn [Purchase.numero_factura]. rewrite Hfalsy, Hblank. cbn [orb ret].
  rewrite in_transaction_run.
  cbn [store_calls tx persisted log clock_reads random_reads].
  destruct (store_fault env (store_calls w)); [exact Hp|].
  rewrite Ht. cbn [fst snd]. split.
  - split; [exact Hp | reflexivity].
  - eexists. reflexivity.
Qed.

Lemma triple_create_details (purchase : Purchase.t) :
  forall (detalles : list Detalle) (created : list PurchaseDetail.t)
         (updates : list (Z * Z)) (working : DB),
    triple (inside db0 working)
           (create_details env purchase detalles created updates)
           (fun r w =>
              snd r = (updates ++ stock_updates detalles)%list
              /\ inside db0
                   (mkDB (users working) (products working)
                         (purchases working)
                         (purchase_details working
                          ++ detail_rows (purchase_details working)
                                         (Purchase.id purchase) detalles))
                   w)
           failed.
Proof.
  induction detalles as [|d rest IH]; intros created updates working w Hw.
  - cbn. rewrite !app_nil_r. destruct working. split; [reflexivity|exact Hw].
  - cbn [create_details]. unfold bind at 1. unfold PurchaseDetail_create.
    rewrite in_transaction_run. destruct Hw as [Hp Ht].
    destruct (store_fault env (store_calls w)); [exact Hp|].
    rewrite Ht. cbn [fst snd].
    match goal with
    | |- context [create_details env purchase rest ?c ?u ?w1] =>
        specialize (IH c u
                       (mkDB (users working) (products working)
                             (purchases working)
                             (purchase_details working
                              ++ [PurchaseDetail.mk
                                    (next_id (map PurchaseDetail.id
                                                  (purchase_details working)))
                                    (Purchase.id purchase) (d_product_id d)
                                    (d_cantidad d) (d_precio_unitario d)
                                    (JsNumber.toFixed2
                                       (JsNumber.mul
                                          (inject_Z (d_cantidad d))
                                          (d_precio_unitario d)))]))
                       w1 (conj Hp eq_refl));
        destruct (create_details env purchase rest c u w1) as [[r|e] w2]
    end; [|exact IH].
    destruct IH as [Hr Hin]. split.
    + rewrite Hr. cbn [stock_updates map]. now rewrite <- app_assoc.
    + cbn [detail_rows users products purchases purchase_details] in *.
      now rewrite <- app_assoc in Hin.
Qed.

Lemma triple_update_stock :
  forall (updates : list (Z * Z)) (working : DB),
    triple (inside db0 working) (update_stock env updates)
           (fun _ w =>
              inside db0
                (mkDB (users working)
                      (apply_updates updates (products working))
                      (purchases working) (purchase_details working)) w)
           failed.
Proof.
  induction updates as [|[id q] rest IH]; intros working w Hw.
  - cbn. destruct working. exact Hw.
  - cbn [update_stock]. unfold bind at 1. unfold Product_update.
    rewrite in_transaction_run. destruct Hw as [Hp Ht].
    destruct (store_fault env (store_calls w)); [exact Hp|].
    rewrite Ht. cbn [fst snd].
    match goal with
    | |- context [update_stock env rest ?w1] =>
        specialize (IH (mkDB (users working)
                             (map (set_stock id q) (products working))
                             (purchases working) (purchase_details working))
                       w1 (conj Hp eq_refl));
        destruct (update_stock env rest w1) as [[r|e] w2]
    end; exact IH.
Qed.

Lemma triple_commit (working : DB) :
  triple (inside db0 working) (commit env)
         (fun _ w => persisted w = working /\ tx w = Finished) failed.
Proof.
  intros w [Hp Ht]. rewrite commit_run, Ht.
  destruct (store_fault env (store_calls w)); [exact Hp | split; reflexivity].
Qed.

End PurchaseSteps.

Section Outcome.

Variable env : Env.

Lemma triple_read_back (db : DB) (id : Z) :
  let after := fun w => persisted w = db /\ tx w = Finished in
  triple after (Purchase_findByPk env id) (fun _ => after) (fun _ => after).
Proof.
  intros after w Hw. unfold Purchase_findByPk. rewrite Purchase_findOne_run.
  destruct (store_fault env (store_calls w)); exact Hw.
Qed.

Lemma not_created (r : Response) (status : Z) :
  status_of r = Some status -> status <> 201 -> status_of r <> Some 201.
Proof. intros H Hs E. rewrite H in E. inversion E. contradiction. Qed.

(** The [try] block, from the check of the locked rows on. *)
Lemma purchase_locked_settles (user : User.t) (body : RawBody)
    (productos : list Item) (db : DB) :
  purchaseSchema body = inr productos ->
  triple (inside db db)
         (purchase_locked env user productos
            (locked_products (map product_id productos) db))
         (settled_answer db user body)
         (fun _ => settled_throw db user body).
Proof.
  intros Hschema.
  set (available := locked_products (map product_id productos) db).
  assert (Hfail : forall (A : Type) (P : World -> Prop) (m : M A)
                          (Q : A -> World -> Prop),
             triple P m Q (fun _ => untouched db) ->
             triple P m Q (fun _ => settled_throw db user body)).
  { intros A P m Q H. eapply triple_weaken; [| | |exact H]; auto.
    intros e w Hw. now left. }
  unfold purchase_locked.
  destruct (negb _) eqn:Hlen.
  { eapply triple_bind; [apply Hfail, triple_rollback|].
    intros u. apply triple_ret. intros w Hw. right.
    split; [discriminate | exact Hw]. }
  apply negb_false_iff, Nat.eqb_eq in Hlen. rewrite length_map in Hlen.
  eapply triple_bind; [apply Hfail, triple_price_lines|].
  intros [response|[total detalles]].
  { apply triple_ret. intros w [Hw Hs]. right.
    split; [|exact Hw]. apply (not_created _ Hs). lia. }
  apply triple_bind with
    (Q1 := fun r w =>
             Forall (accepted_line available) productos
             /\ total = total_of (detalles_of available productos) 0%Q
             /\ detalles = detalles_of available productos
             /\ match r with
                | inl response =>
                    untouched db w /\ status_of response = Some 500
                | inr nf =>
                    inside db db w /\ taken nf db = false
                    /\ falsy (Some nf) = false /\ blank nf = false
                end).
  { intros w (Hin & Hall & Ht & Hds).
    pose proof (@triple_sequence_invoice env db db maxAttempts 0%nat w Hin)
      as H.
    destruct (sequence_invoice env maxAttempts 0 w) as [[r|e] w1].
    - repeat split; auto.
    - now left. }
  intros [response|nf].
  { apply triple_ret. intros w (_ & _ & _ & Hw & Hs). right.
    split; [|exact Hw]. apply (not_created _ Hs). lia. }
  apply triple_bind with
    (Q1 := fun fecha w =>
             Forall (accepted_line available) productos
             /\ total = total_of (detalles_of available productos) 0%Q
             /\ detalles = detalles_of available productos
             /\ inside db db w /\ taken nf db = false
             /\ falsy (Some nf) = false /\ blank nf = false).
  { intros w (Hall & Ht & Hds & [Hp Htx] & Hfree & Hf & Hb). cbn [now].
    repeat split; auto. }
  intros fecha w (Hall & Ht & Hds & Hin & Hfree & Hf & Hb).
  unfold bind at 1.
  pose proof (@triple_Purchase_create env db db (User.id user)
                (JsNumber.toFixed2 total) nf completada fecha Hf Hb w Hin)
    as H1.
  destruct (Purchase_create env (User.id user) (JsNumber.toFixed2 total)
              (Some nf) completada fecha w) as [[purchase|e] w1];
    [|now left].
  destruct H1 as [Hin1 [created Hrow]].
  unfold bind at 1.
  pose proof (@triple_create_details env db purchase detalles [] [] _ w1 Hin1)
    as H2.
  destruct (create_details env purchase detalles [] [] w1)
    as [[[rows updates]|e] w2]; [|now left].
  destruct H2 as [Hup Hin2]. cbn [snd List.app] in Hup. subst updates.
  cbn [users products purchases purchase_details snd] in *.
  unfold bind at 1.
  pose proof (@triple_update_stock env db (stock_updates detalles) _ w2 Hin2)
    as H3.
  destruct (update_stock env (stock_updates detalles) w2) as [[[]|e] w3];
    [|now left].
  cbn [users products purchases purchase_details] in H3.
  unfold bind at 1.
  pose proof (@triple_commit env db _ w3 H3) as H4.
  destruct (commit env w3) as [[[]|e] w4]; [|now left].
  destruct H4 as [H4 Hfin].
  assert (Hc : commits db user body (persisted w4)).
  { exists productos, nf, fecha, created.
    split; [exact Hschema|]. split; [exact Hlen|]. split; [exact Hall|].
    split; [exact Hfree|].
    rewrite H4. unfold committed_tables, committed_row.
    fold available. subst purchase total detalles. reflexivity. }
  unfold bind at 1.
  pose proof (@triple_read_back (persisted w4) (Purchase.id purchase) w4
                (conj eq_refl Hfin)) as H5.
  destruct (Purchase_findByPk env (Purchase.id purchase) w4)
    as [[v|e] w5]; cbn [ret]; destruct H5 as [H5 Hfin5].
  - left. split; [eexists; reflexivity | now rewrite H5].
  - right. split; [now rewrite H5 | exact Hfin5].
Qed.

Lemma triple_sequelize_transaction (db : DB) :
  triple (untouched db) (sequelize_transaction env)
         (fun _ => inside db db) (fun _ => untouched db).
Proof.
  intros w Hw.
  unfold sequelize_transaction, bind, store_call, get_persisted, set_tx.
  destruct (store_fault env (store_calls w)); [exact Hw|].
  split; [exact Hw | cbn; now rewrite Hw].
Qed.

(** The [catch] block answers only while the transaction is open, and then
    the tables are those of the start. *)
Lemma triple_on_error (db : DB) (user : User.t) (body : RawBody)
    (e : Error) :
  triple (settled_throw db user body) (on_error e)
         (settled_answer db user body)
         (fun _ => settled_throw db user body).
Proof.
  intros w Hw. unfold on_error, bind. rewrite rollback_run.
  destruct (tx w) eqn:Ht; [exact Hw| |exact Hw].
  assert (Hp : persisted w = db).
  { destruct Hw as [Hw|[_ Hw]]; [exact Hw | congruence]. }
  destruct e as [[]| | |]; cbn [ret]; right; (split; [discriminate | exact Hp]).
Qed.

Lemma create_purchase_settles (user : User.t) (body : RawBody) (db : DB) :
  triple (untouched db) (create_purchase env user body)
         (settled_answer db user body)
         (fun _ => settled_throw db user body).
Proof.
  assert (Hfail : forall (A : Type) (P : World -> Prop) (m : M A)
                          (Q : A -> World -> Prop),
             triple P m Q (fun _ => untouched db) ->
             triple P m Q (fun _ => settled_throw db user body)).
  { intros A P m Q H. eapply triple_weaken; [| | |exact H]; auto.
    intros e w Hw. now left. }
  unfold create_purchase.
  eapply triple_bind; [apply Hfail, triple_sequelize_transaction|].
  intros u.
  eapply triple_try_catch; [|intros e; apply triple_on_error].
  unfold purchase_body.
  destruct (purchaseSchema body) as [message|productos] eqn:Hschema.
  { eapply triple_bind; [apply Hfail, triple_rollback|].
    intros v. apply triple_ret. intros w Hw. right.
    split; [discriminate | exact Hw]. }
  eapply triple_bind; [apply Hfail, triple_in_transaction|].
  intros available w [Ha Hin]. cbn [fst snd] in Ha, Hin.
  fold (locked_products (map product_id productos) db) in Ha. subst available.
  exact (@purchase_locked_settles user body productos db Hschema w Hin).
Qed.

(** Every run of the purchase route, whatever the store rejects, leaves
    the tables as they were or as the purchase commits them. *)
Lemma purchase_outcome (user : User.t) (body : RawBody) (w : World) :
  let w' := snd (respond (create_purchase env user body) w) in
  persisted w' = persisted w
  \/ commits (persisted w) user body (persisted w').
Proof.
  cbv zeta. unfold respond.
  pose proof (@create_purchase_settles user body (persisted w) w eq_refl)
    as H.
  destruct (create_purchase env user body w) as [[r|e] w1]; cbn [snd].
  - destruct H as [[_ H]|[_ H]]; auto.
  - destruct H as [H|[H _]]; auto.
Qed.

End Outcome.

(* ================================================================== *)
(** * What every run of the purchase route keeps *)
(* ================================================================== *)

(** ** The tables a purchase commits *)

Lemma set_stock_id (id q : Z) (p : Product.t) :
  Product.id (set_stock id q p) = Product.id p.
Proof. unfold set_stock. destruct (_ =? _); reflexivity. Qed.

Lemma set_stock_catalog (id q : Z) (p : Product.t) :
  catalog_entry (set_stock id q p) = catalog_entry p.
Proof. unfold set_stock. destruct (_ =? _); reflexivity. Qed.

Lemma map_apply_updates {B} (f : Product.t -> B) :
  (forall id q p, f (set_stock id q p) = f p) ->
  forall updates ps, map f (apply_updates updates ps) = map f ps.
Proof.
  intros Hf. induction updates as [|u updates IH]; intros ps; [reflexivity|].
  cbn [apply_updates fold_left]. fold (apply_updates updates).
  rewrite IH, map_map. apply map_ext. intros p. apply Hf.
Qed.

Lemma apply_updates_nonneg (updates : list (Z * Z)) :
  Forall (fun u => 0 <= snd u) updates ->
  forall ps, Forall (fun p => 0 <= Product.cantidad_disponible p) ps ->
             Forall (fun p => 0 <= Product.cantidad_disponible p)
                    (apply_updates updates ps).
Proof.
  induction 1 as [|u updates Hu _ IH]; intros ps Hps; [exact Hps|].
  cbn [apply_updates fold_left]. fold (apply_updates updates).
  apply IH. apply Forall_forall. intros p Hp.
  apply in_map_iff in Hp as (p0 & <- & Hp0).
  unfold set_stock. destruct (_ =? _).
  - exact Hu.
  - exact (proj1 (Forall_forall _ _) Hps p0 Hp0).
Qed.

Lemma detalles_of_cons (available : list Product.t) (item : Item)
    (rest : list Item) (p : Product.t) :
  find (fun p => Product.id p =? product_id item) available = Some p ->
  detalles_of available (item :: rest)
  = detalle_of p item :: detalles_of available rest.
Proof. intros H. cbn [detalles_of flat_map]. now rewrite H. Qed.

Lemma accepted_updates_nonneg (available : list Product.t)
    (productos : list Item) :
  Forall (accepted_line available) productos ->
  Forall (fun u => 0 <= snd u)
         (stock_updates (detalles_of available productos)).
Proof.
  induction 1 as [|item rest (p & Hf & Hq) _ IH]; [constructor|].
  rewrite (@detalles_of_cons available item rest p Hf). cbn [stock_updates map].
  constructor; [|exact IH]. cbn. lia.
Qed.

Lemma accepted_detalles (available : list Product.t)
    (productos : list Item) :
  Forall (accepted_line available) productos ->
  Forall2 (fun item d =>
             exists p, In p available
                       /\ Product.id p = product_id item
                       /\ cantidad item <= Product.cantidad_disponible p
                       /\ d = detalle_of p item)
          productos (detalles_of available productos).
Proof.
  induction 1 as [|item rest (p & Hf & Hq) _ IH]; [constructor|].
  rewrite (@detalles_of_cons available item rest p Hf). constructor; [|exact IH].
  exists p. apply find_some in Hf as [Hin Hid]. apply Z.eqb_eq in Hid.
  auto.
Qed.

Lemma accepted_detalles_products (db : DB) (ids : list Z)
    (productos : list Item) :
  Forall (accepted_line (locked_products ids db)) productos ->
  forall d, In d (detalles_of (locked_products ids db) productos) ->
            In (d_product_id d) (map Product.id (products db)).
Proof.
  induction 1 as [|item rest (p & Hf & Hq) _ IH]; intros d Hd;
    [destruct Hd|].
  rewrite (@detalles_of_cons _ item rest p Hf) in Hd.
  destruct Hd as [<-|Hd]; [|now apply IH].
  cbn [detalle_of d_product_id]. apply in_map.
  apply find_some in Hf as [Hin _]. unfold locked_products in Hin.
  now apply filter_In in Hin as [Hin _].
Qed.

Lemma NoDup_snoc {A} (l : list A) (x : A) :
  NoDup l -> ~ In x l -> NoDup (l ++ [x]).
Proof.
  induction l as [|a l IH]; intros Hnd Hx; cbn.
  - constructor; [intros [] | constructor].
  - inversion Hnd as [|? ? Hn Hd]; subst. constructor.
    + intros Hin. apply in_app_or in Hin as [Hin|[->|[]]]; [auto|].
      apply Hx. now left.
    + apply IH; [exact Hd|]. intros Hin. apply Hx. now right.
Qed.

Lemma next_id_not_in (ids : list Z) : ~ In (next_id ids) ids.
Proof. intros H. apply next_id_fresh in H. lia. Qed.

Lemma detail_rows_keys (pid : Z) (ds : list Detalle) :
  forall existing,
    NoDup (map PurchaseDetail.id existing) ->
    NoDup (map PurchaseDetail.id (existing ++ detail_rows existing pid ds)).
Proof.
  induction ds as [|d ds IH]; intros existing Hnd.
  - cbn. now rewrite app_nil_r.
  - cbn [detail_rows]. set (row := PurchaseDetail.mk _ _ _ _ _ _).
    replace (existing ++ row :: detail_rows (existing ++ [row]) pid ds)%list
      with ((existing ++ [row]) ++ detail_rows (existing ++ [row]) pid ds)%list
      by (now rewrite <- app_assoc).
    apply IH. rewrite map_app. cbn [map].
    apply NoDup_snoc; [exact Hnd | apply next_id_not_in].
Qed.

Lemma invoices_In (nf : string) (db : DB) :
  In nf (invoices db) <-> taken nf db = true.
Proof.
  unfold invoices, taken. rewrite in_flat_map, existsb_exists.
  split; intros (p & Hp & H); exists p; (split; [exact Hp|]);
    unfold has_invoice in *; destruct (Purchase.numero_factura p) as [s|].
  - destruct H as [->|[]]. apply String.eqb_refl.
  - destruct H.
  - apply String.eqb_eq in H. now left.
  - discriminate.
Qed.

Lemma invoices_snoc (db : DB) (row : Purchase.t) (nf : string) (ps : list Product.t)
    (ds : list PurchaseDetail.t) :
  Purchase.numero_factura row = Some nf ->
  invoices (mkDB (users db) ps (purchases db ++ [row]) ds)
  = (invoices db ++ [nf])%list.
Proof.
  intros H. unfold invoices. cbn [purchases].
  rewrite flat_map_app. cbn [flat_map]. now rewrite H, app_nil_r.
Qed.


(** ** Units in stock and units sold *)

Lemma filter_key_unique {A} (key : A -> Z) (l : list A) (a : A) :
  NoDup (map key l) -> In a l ->
  filter (fun x => key x =? key a) l = [a].
Proof.
  induction l as [|b l IH]; cbn; intros Hnd Hin; [contradiction|].
  inversion Hnd as [|? ? Hn Hd]; subst.
  assert (Hrest : forall c, In c l -> key c = key b -> False).
  { intros c Hc E. apply Hn. rewrite <- E. now apply in_map. }
  destruct Hin as [->|Hin].
  - rewrite Z.eqb_refl. f_equal.
    clear IH Hd Hn Hnd. induction l as [|c l IH]; [reflexivity|]. cbn.
    destruct (key c =? key a) eqn:E.
    + apply Z.eqb_eq in E. exfalso. apply (Hrest c); [now left | exact E].
    + apply IH. intros d Hd. apply Hrest. now right.
  - destruct (key b =? key a) eqn:E.
    + apply Z.eqb_eq in E. exfalso. apply (Hrest a Hin). now symmetry.
    + now apply IH.
Qed.

Lemma filter_key_none {A} (key : A -> Z) (l : list A) (k : Z) :
  ~ In k (map key l) -> filter (fun x => key x =? k) l = [].
Proof.
  induction l as [|b l IH]; cbn; intros Hn; [reflexivity|].
  destruct (key b =? k) eqn:E.
  - apply Z.eqb_eq in E. exfalso. apply Hn. now left.
  - apply IH. intros H. apply Hn. now right.
Qed.

Lemma sum_Z_app (a b : list Z) : sum_Z (a ++ b) = sum_Z a + sum_Z b.
Proof.
  unfold sum_Z. induction a as [|x a IH]; cbn [List.app fold_right]; lia.
Qed.

(** The units of the product [id] that the cart asks for. *)
Lemma detail_rows_lines (pid : Z) (ds : list Detalle) :
  forall existing,
    map (fun r => (PurchaseDetail.product_id r, PurchaseDetail.cantidad r))
        (detail_rows existing pid ds)
    = map (fun d => (d_product_id d, d_cantidad d)) ds.
Proof.
  induction ds as [|d ds IH]; intros existing; [reflexivity|].
  cbn [detail_rows map PurchaseDetail.product_id PurchaseDetail.cantidad].
  now rewrite IH.
Qed.

Lemma accepted_lines (available : list Product.t) (productos : list Item) :
  Forall (accepted_line available) productos ->
  map (fun d => (d_product_id d, d_cantidad d))
      (detalles_of available productos)
  = map (fun item => (product_id item, cantidad item)) productos.
Proof.
  induction 1 as [|item rest (p & Hf & Hq) _ IH]; [reflexivity|].
  rewrite (@detalles_of_cons available item rest p Hf).
  cbn [map detalle_of d_product_id d_cantidad]. rewrite IH.
  apply find_some in Hf as [_ Hid]. apply Z.eqb_eq in Hid. now rewrite Hid.
Qed.

Lemma sold_lines (id : Z) (rows : list PurchaseDetail.t) :
  sum_Z (map PurchaseDetail.cantidad
             (filter (fun d => PurchaseDetail.product_id d =? id) rows))
  = sum_Z (map snd (filter (fun l => fst l =? id)
                           (map (fun r => (PurchaseDetail.product_id r,
                                           PurchaseDetail.cantidad r))
                                rows))).
Proof.
  unfold sum_Z in *.
  induction rows as [|r rows IH]; [reflexivity|]. cbn [map filter fst].
  destruct (PurchaseDetail.product_id r =? id); cbn [map fold_right snd];
    now rewrite IH.
Qed.

(** A cart that was accepted on tables whose product key is a key can be
    locked. *)
Lemma accepted_lockable (db : DB) (productos : list Item) :
  NoDup (map Product.id (products db)) ->
  List.length (locked_products (map product_id productos) db)
  = List.length productos ->
  Forall (accepted_line (locked_products (map product_id productos) db))
         productos ->
  servable productos db.
Proof.
  intros Hnd Hlen Ha.
  set (available := locked_products (map product_id productos) db) in *.
  assert (Hitems : forall item, In item productos ->
            exists p, In p (products db) /\ Product.id p = product_id item
                      /\ Product.activo p = true
                      /\ cantidad item <= Product.cantidad_disponible p).
  { intros item Hitem.
    destruct (proj1 (Forall_forall _ _) Ha item Hitem) as (p & Hf & Hq).
    apply find_some in Hf as [Hin Hid]. apply Z.eqb_eq in Hid.
    unfold available, locked_products in Hin.
    apply filter_In in Hin as [Hin Hc]. apply andb_true_iff in Hc as [_ Hact].
    exists p. auto. }
  split; [split; [|split]|].
  - apply NoDup_incl_NoDup with (l := map Product.id available).
    + unfold available, locked_products. now apply NoDup_map_filter.
    + rewrite !length_map. lia.
    + intros i Hi. apply in_map_iff in Hi as (p & <- & Hp).
      unfold available, locked_products in Hp.
      apply filter_In in Hp as [_ Hc]. apply andb_true_iff in Hc as [Hc _].
      now apply existsb_eqb_In in Hc.
  - exact Hnd.
  - intros item Hitem. destruct (Hitems item Hitem) as (p & ? & ? & ? & ?).
    exists p. auto.
  - apply Forall_forall. intros item Hitem p' Hp' Hid'.
    destruct (Hitems item Hitem) as (p & Hp & Hid & _ & Hq).
    pose proof (find_unique Product.id (products db) p Hnd Hp) as F1.
    pose proof (find_unique Product.id (products db) p' Hnd Hp') as F2.
    rewrite Hid in F1. rewrite Hid' in F2. assert (p' = p) by congruence.
    now subst.
Qed.

Lemma bought_id (productos : list Item) (p : Product.t) :
  Product.id (bought productos p) = Product.id p.
Proof. unfold bought. destruct (find _ productos); reflexivity. Qed.

Lemma filter_map_bought (id : Z) (productos : list Item)
    (ps : list Product.t) :
  filter (fun p => Product.id p =? id) (map (bought productos) ps)
  = map (bought productos) (filter (fun p => Product.id p =? id) ps).
Proof.
  induction ps as [|p ps IH]; [reflexivity|]. cbn [map filter].
  rewrite bought_id. destruct (Product.id p =? id); cbn [map]; now rewrite IH.
Qed.

(** ** The invariants *)

Section Invariants.

Variable env : Env.

(** X1. Whatever the store rejects and whenever, a run of the purchase route
    leaves the tables as they were, or as the purchase of an accepted cart
    commits them: the stock of each line lowered, one purchase row with a
    free invoice number, one line row per line of the cart. *)
Theorem purchase_leaves_or_commits (user : User.t) (body : RawBody)
    (w : World) :
  let w' := snd (respond (create_purchase env user body) w) in
  persisted w' = persisted w
  \/ exists productos nf fecha created,
       purchaseSchema body = inr productos
       /\ Forall (accepted_line
                    (locked_products (map product_id productos) (persisted w)))
                 productos
       /\ taken nf (persisted w) = false
       /\ persisted w'
          = committed_tables (persisted w) productos
              (committed_row (persisted w) user productos nf fecha created).
Proof.
  cbv zeta. destruct (purchase_outcome env user body w) as [H|H];
    [now left | right].
  destruct H as (productos & nf & fecha & created & Hs & _ & Ha & Hf & Hd).
  exists productos, nf, fecha, created. auto.
Qed.

(** X3. No run of the purchase route makes a stock negative. *)
Theorem purchase_keeps_stock_nonneg (user : User.t) (body : RawBody)
    (w : World) :
  stock_nonneg (persisted w) ->
  stock_nonneg (persisted (snd (respond (create_purchase env user body) w))).
Proof.
  intros Hn. destruct (purchase_outcome env user body w) as [H|H];
    cbv zeta in H; [now rewrite H|].
  destruct H as (productos & nf & fecha & created & _ & _ & Ha & _ & ->).
  unfold stock_nonneg, committed_tables. cbn [products].
  apply apply_updates_nonneg; [|exact Hn].
  now apply accepted_updates_nonneg.
Qed.

(** X4. No run of the purchase route touches the users, an existing purchase
    or line row, or anything of a product but its stock: it adds at most
    one purchase, of the buyer, and lines of that purchase only. *)
Theorem purchase_only_appends (user : User.t) (body : RawBody) (w : World) :
  let db := persisted w in
  let db' := persisted (snd (respond (create_purchase env user body) w)) in
  users db' = users db
  /\ map catalog_entry (products db') = map catalog_entry (products db)
  /\ (exists rows,
        purchases db' = (purchases db ++ rows)%list
        /\ (List.length rows <= 1)%nat
        /\ Forall (fun r => Purchase.user_id r = User.id user
                            /\ Purchase.estado r = completada) rows)
  /\ (exists lines,
        purchase_details db' = (purchase_details db ++ lines)%list
        /\ Forall (fun d => forall r, In r (purchases db) ->
                     PurchaseDetail.purchase_id d <> Purchase.id r) lines).
Proof.
  cbv zeta. destruct (purchase_outcome env user body w) as [H|H];
    cbv zeta in H.
  - rewrite H. repeat split; auto.
    + exists []. rewrite app_nil_r. repeat split; auto.
    + exists []. rewrite app_nil_r. repeat split; auto.
  - destruct H as (productos & nf & fecha & created & _ & _ & _ & _ & ->).
    unfold committed_tables.
    cbn [users products purchases purchase_details].
    split; [reflexivity|]. split; [|split].
    + apply map_apply_updates. intros. apply set_stock_catalog.
    + eexists. split; [reflexivity|]. split; [cbn; lia|].
      constructor; [|constructor]. split; reflexivity.
    + eexists. split; [reflexivity|].
      apply detail_rows_Forall. intros d i Hd r Hr.
      cbn [PurchaseDetail.purchase_id committed_row Purchase.id].
      pose proof (next_id_fresh (map Purchase.id (purchases (persisted w)))
                                (Purchase.id r) (in_map _ _ _ Hr)).
      lia.
Qed.

(** X5. The keys stay keys: after any run of the purchase route no two rows
    of a table share an [id] and no two purchases an invoice number, if
    that was so before. *)
Theorem purchase_keeps_keys (user : User.t) (body : RawBody) (w : World) :
  keys_unique (persisted w) ->
  keys_unique (persisted (snd (respond (create_purchase env user body) w))).
Proof.
  intros (Kp & Kc & Kd & Ki).
  destruct (purchase_outcome env user body w) as [H|H]; cbv zeta in H.
  { rewrite H. repeat split; assumption. }
  destruct H as (productos & nf & fecha & created & _ & _ & _ & Hf & ->).
  unfold keys_unique, committed_tables.
  cbn [products purchases purchase_details].
  split; [|split; [|split]].
  - rewrite map_apply_updates; [exact Kp|]. intros. apply set_stock_id.
  - rewrite map_app. cbn [map]. apply NoDup_snoc; [exact Kc|].
    apply next_id_not_in.
  - now apply detail_rows_keys.
  - rewrite (@invoices_snoc (persisted w) _ nf); [|reflexivity].
    apply NoDup_snoc; [exact Ki|]. rewrite invoices_In. congruence.
Qed.

(** X6. The references stay valid: after any run of the purchase route every
    line row refers to a purchase and to a product of the tables, if that
    was so before. *)
Theorem purchase_keeps_references (user : User.t) (body : RawBody)
    (w : World) :
  references_hold (persisted w) ->
  references_hold
    (persisted (snd (respond (create_purchase env user body) w))).
Proof.
  intros Hr. destruct (purchase_outcome env user body w) as [H|H];
    cbv zeta in H; [now rewrite H|].
  destruct H as (productos & nf & fecha & created & _ & _ & Ha & _ & ->).
  unfold references_hold, committed_tables.
  cbn [products purchases purchase_details].
  rewrite map_apply_updates by (intros; apply set_stock_id).
  apply Forall_app. split.
  - apply Forall_forall. intros d Hd.
    destruct (proj1 (Forall_forall _ _) Hr d Hd) as [H1 H2].
    split; [|exact H2]. rewrite map_app. apply in_or_app. now left.
  - apply detail_rows_Forall. intros d i Hd.
    cbn [PurchaseDetail.purchase_id PurchaseDetail.product_id].
    split; [|exact (@accepted_detalles_products _ _ _ Ha d Hd)].
    rewrite map_app. apply in_or_app. right. now left.
Qed.

(** X7. Units are conserved: after any run of the purchase route, for every
    product, the units in stock plus the units that the line rows record
    as sold are what they were, and the stock has not grown. *)
Theorem purchase_conserves_units (user : User.t) (body : RawBody)
    (w : World) (id : Z) :
  NoDup (map Product.id (products (persisted w))) ->
  let db := persisted w in
  let db' := persisted (snd (respond (create_purchase env user body) w)) in
  stock_of id db' + sold_of id db' = stock_of id db + sold_of id db
  /\ stock_of id db' <= stock_of id db.
Proof.
  intros Hnd. cbv zeta.
  destruct (purchase_outcome env user body w) as [H|H]; cbv zeta in H.
  { rewrite H. split; lia. }
  destruct H as (productos & nf & fecha & created & Hs & Hlen & Ha & _ & ->).
  set (db := persisted w) in *.
  destruct (@accepted_lockable db productos Hnd Hlen Ha) as [Hlock Hstock].
  destruct (@purchaseSchema_valid body productos Hs) as [_ Hpos].
  unfold stock_of, sold_of, committed_tables.
  cbn [products purchase_details].
  rewrite (@purchased_products productos db Hlock), filter_map_bought.
  rewrite filter_app, map_app, sum_Z_app.
  rewrite (@sold_lines id (detail_rows _ _ _)), detail_rows_lines,
    (@accepted_lines _ _ Ha).
  destruct (in_dec Z.eq_dec id (map product_id productos)) as [Hin|Hout].
  - apply in_map_iff in Hin as (item & Hid & Hitem).
    destruct Hlock as (Hndc & _ & Hall).
    destruct (Hall item Hitem) as (p & Hp & Hpid & _).
    assert (Hq : 1 <= cantidad item)
      by (apply (proj1 (Forall_forall _ _) Hpos item Hitem)).
    assert (F1 : filter (fun p0 => Product.id p0 =? id) (products db) = [p]).
    { rewrite <- Hid, <- Hpid. now apply filter_key_unique. }
    assert (F2 : filter (fun l => fst l =? id)
                        (map (fun i => (product_id i, cantidad i)) productos)
                 = [(product_id item, cantidad item)]).
    { rewrite <- Hid.
      change (fun l : Z * Z => fst l =? product_id item)
        with (fun l : Z * Z =>
                fst l =? fst (product_id item, cantidad item)).
      apply filter_key_unique.
      - now rewrite map_map.
      - apply in_map_iff. eauto. }
    rewrite F1, F2. cbn [map sum_Z fold_right snd].
    rewrite (@bought_line productos db (conj Hndc (conj Hnd Hall)) item p
               Hitem Hpid).
    cbn [Product.cantidad_disponible Product.with_cantidad_disponible].
    split; lia.
  - assert (F2 : filter (fun l => fst l =? id)
                        (map (fun i => (product_id i, cantidad i)) productos)
                 = []).
    { apply filter_key_none. now rewrite map_map. }
    rewrite F2. cbn [map sum_Z fold_right].
    assert (F1 : map (bought productos)
                     (filter (fun p => Product.id p =? id) (products db))
                 = filter (fun p => Product.id p =? id) (products db)).
    { rewrite <- (map_id (filter _ (products db))) at 2.
      apply map_ext_in. intros p Hp. apply filter_In in Hp as [_ Hp].
      apply Z.eqb_eq in Hp. apply bought_other. now rewrite Hp. }
    rewrite F1. split; lia.
Qed.

(** X2. The answer tells what happened: 201 is sent only after the purchase
    was committed, and every other answer (a failure body, or the error
    passed on to the error middleware) only with the tables as they were.
    Only a handler that rejects, sending nothing, says nothing. *)
Theorem purchase_answer_truthful (user : User.t) (body : RawBody)
    (w : World) :
  let r := fst (respond (create_purchase env user body) w) in
  let w' := snd (respond (create_purchase env user body) w) in
  (is_created r /\ commits (persisted w) user body (persisted w'))
  \/ (status_of r <> Some 201 /\ persisted w' = persisted w)
  \/ (exists e, r = Rejected e).
Proof.
  cbv zeta. unfold respond.
  pose proof (@create_purchase_settles env user body (persisted w) w eq_refl)
    as H.
  destruct (create_purchase env user body w) as [[r|e] w1]; cbn [fst snd].
  - destruct H as [H|H]; auto.
  - right. right. eauto.
Qed.

End Invariants.

(* ================================================================== *)
(** * The pages of GET /api/purchases *)
(* ================================================================== *)

(** ** The query *)

Lemma unsafe_inject_Z (n : Z) :
  unsafe (inject_Z n)
  = ((MAX_SAFE_INTEGER <? n) || (n <? - MAX_SAFE_INTEGER))%bool.
Proof. unfold unsafe. now rewrite !Qltb_inject_Z. Qed.

Lemma safe_inject_Z (n : Z) :
  - MAX_SAFE_INTEGER <= n <= MAX_SAFE_INTEGER -> unsafe (inject_Z n) = false.
Proof.
  intros H. rewrite unsafe_inject_Z. apply orb_false_iff.
  split; apply Z.ltb_ge; lia.
Qed.

Lemma queryParamsSchema_page_unsafe (page limit : Z) :
  MAX_SAFE_INTEGER < page ->
  exists message, queryParamsSchema (page_query page limit) = inl message.
Proof.
  intros Hp. unfold queryParamsSchema, page_query. cbn [raw_page raw_limit].
  rewrite unsafe_inject_Z.
  replace (MAX_SAFE_INTEGER <? page) with true
    by (symmetry; apply Z.ltb_lt; lia).
  cbn [orb]. eauto.
Qed.

Lemma queryParamsSchema_page_query (page limit : Z) :
  1 <= page <= MAX_SAFE_INTEGER -> 1 <= limit <= 100 ->
  queryParamsSchema (page_query page limit) = inr (page, limit).
Proof.
  intros Hp Hl. unfold queryParamsSchema, page_query.
  cbn [raw_page raw_limit].
  rewrite !safe_inject_Z by (unfold MAX_SAFE_INTEGER in *; lia).
  rewrite !is_integer_inject_Z. cbn [negb].
  change 1%Q with (inject_Z 1). change 100%Q with (inject_Z 100).
  rewrite !Qltb_inject_Z.
  replace (page <? 1) with false by (symmetry; apply Z.ltb_ge; lia).
  replace (limit <? 1) with false by (symmetry; apply Z.ltb_ge; lia).
  replace (100 <? limit) with false by (symmetry; apply Z.ltb_ge; lia).
  now rewrite !Qfloor_Z.
Qed.

Lemma queryParamsSchema_range (q : RawQuery) (page limit : Z) :
  queryParamsSchema q = inr (page, limit) ->
  1 <= page /\ 1 <= limit <= 100
  /\ (raw_page q = None -> page = 1)
  /\ (raw_limit q = None -> limit = 10).
Proof.
  unfold queryParamsSchema.
  assert (F1 : forall x, Qltb x 1 = false -> 1 <= Qfloor x).
  { intros x H. unfold Qltb in H. apply negb_false_iff, Qle_bool_iff in H.
    change 1 with (Qfloor 1). now apply Qfloor_resp_le. }
  assert (F2 : forall x, Qltb 100 x = false -> Qfloor x <= 100).
  { intros x H. unfold Qltb in H. apply negb_false_iff, Qle_bool_iff in H.
    change 100 with (Qfloor 100). now apply Qfloor_resp_le. }
  destruct (raw_page q) as [p|].
  - destruct (unsafe p); [discriminate|].
    destruct (is_integer p); [|discriminate]. cbn [negb].
    destruct (Qltb p 1) eqn:Ep; [discriminate|].
    destruct (raw_limit q) as [l|].
    + destruct (unsafe l); [discriminate|].
      destruct (is_integer l); [|discriminate]. cbn [negb].
      destruct (Qltb l 1) eqn:El; [discriminate|].
      destruct (Qltb 100 l) eqn:Eh; [discriminate|].
      intros H. inversion H; subst. repeat split; auto; discriminate.
    + intros H. inversion H; subst.
      repeat split; auto; try lia; discriminate.
  - destruct (raw_limit q) as [l|].
    + destruct (unsafe l); [discriminate|].
      destruct (is_integer l); [|discriminate]. cbn [negb].
      destruct (Qltb l 1) eqn:El; [discriminate|].
      destruct (Qltb 100 l) eqn:Eh; [discriminate|].
      intros H. inversion H; subst. repeat split; auto; try lia; discriminate.
    + intros H. inversion H; subst. repeat split; auto; lia.
Qed.

Lemma queryParamsSchema_refuses (q : RawQuery) :
  out_of_range q -> exists message, queryParamsSchema q = inl message.
Proof.
  unfold queryParamsSchema.
  intros [(p & Hp & H)|(l & Hl & H)].
  - rewrite Hp. destruct (unsafe p); [eauto|].
    destruct (is_integer p) eqn:Ip; cbn [negb]; [|eauto].
    destruct H as [H|H]; [discriminate|].
    apply Qltb_lt in H. rewrite H. eauto.
  - destruct (match raw_page q with
              | Some p => _
              | None => _
              end) as [msg|page]; [eauto|].
    rewrite Hl. destruct (unsafe l); [eauto|].
    destruct (is_integer l) eqn:Il; cbn [negb]; [|eauto].
    destruct (Qltb l 1) eqn:E1; [eauto|].
    destruct H as [H|[H|H]]; [discriminate| |].
    + apply Qltb_lt in H. congruence.
    + apply Qltb_lt in H. rewrite H. eauto.
Qed.

(** ** Lists cut into pages *)

Lemma skipn_skipn {A} (a b : nat) (l : list A) :
  skipn a (skipn b l) = skipn (b + a) l.
Proof.
  revert l. induction b as [|b IH]; intros l; [reflexivity|].
  destruct l as [|x l]; cbn [skipn Nat.add]; [now rewrite skipn_nil | apply IH].
Qed.

Lemma pages_concat {A} (n : nat) :
  forall (t : nat) (l : list A),
    (List.length l <= t * n)%nat ->
    flat_map (fun i => firstn n (skipn (i * n) l)) (seq 0 t) = l.
Proof.
  induction t as [|t IH]; intros l Hl.
  - destruct l; [reflexivity | cbn in Hl; lia].
  - rewrite <- cons_seq, <- seq_shift. cbn [flat_map].
    rewrite flat_map_concat_map, map_map, <- flat_map_concat_map.
    cbn [Nat.mul skipn].
    rewrite (flat_map_ext _ (fun i => firstn n (skipn (i * n) (skipn n l)))).
    + rewrite IH; [apply firstn_skipn|]. rewrite length_skipn. cbn in Hl. lia.
    + intros i. now rewrite skipn_skipn.
Qed.

(** ** Newest first *)

Lemma Forall_insert_desc (P : Purchase.t -> Prop) (p : Purchase.t)
    (l : list Purchase.t) :
  P p -> Forall P l -> Forall P (insert_desc p l).
Proof.
  intros Hp. induction 1 as [|q l Hq Hl IH]; cbn [insert_desc].
  - now constructor.
  - destruct (_ <=? _); repeat constructor; auto.
Qed.

Lemma descending_insert_desc (p : Purchase.t) (l : list Purchase.t) :
  descending (map Purchase.created_at l) ->
  descending (map Purchase.created_at (insert_desc p l)).
Proof.
  induction l as [|q l IH]; cbn [insert_desc map descending].
  - intros _. split; [constructor | exact I].
  - intros [Hq Hl]. destruct (_ <=? _) eqn:E; cbn [map descending].
    + apply Z.leb_le in E. split; [|split; assumption].
      constructor; [lia|]. apply Forall_forall. intros y Hy.
      pose proof (proj1 (Forall_forall _ _) Hq y Hy) as H. cbv beta in H. lia.
    + apply Z.leb_gt in E. split; [|now apply IH].
      rewrite Forall_map in *. apply Forall_insert_desc; [lia | exact Hq].
Qed.

Lemma descending_order_desc (l : list Purchase.t) :
  descending (map Purchase.created_at (order_desc l)).
Proof.
  induction l as [|p l IH]; cbn [order_desc fold_right map descending];
    [exact I|].
  now apply descending_insert_desc.
Qed.

Lemma Permutation_insert_desc (p : Purchase.t) (l : list Purchase.t) :
  Permutation (p :: l) (insert_desc p l).
Proof.
  induction l as [|q l IH]; cbn [insert_desc]; [reflexivity|].
  destruct (_ <=? _); [reflexivity|].
  rewrite perm_swap. now constructor.
Qed.

Lemma Permutation_order_desc (l : list Purchase.t) :
  Permutation l (order_desc l).
Proof.
  induction l as [|p l IH]; cbn [order_desc fold_right]; [constructor|].
  rewrite <- Permutation_insert_desc. now constructor.
Qed.

Lemma length_order_desc (l : list Purchase.t) :
  List.length (order_desc l) = List.length l.
Proof. symmetry. apply Permutation_length, Permutation_order_desc. Qed.

Lemma descending_skipn (n : nat) (l : list Z) :
  descending l -> descending (skipn n l).
Proof.
  revert l. induction n as [|n IH]; intros l H; [exact H|].
  destruct l as [|x l]; [exact I|]. cbn [skipn]. apply IH. apply H.
Qed.

Lemma descending_firstn (n : nat) (l : list Z) :
  descending l -> descending (firstn n l).
Proof.
  revert l. induction n as [|n IH]; intros l H; [exact I|].
  destruct l as [|x l]; [exact I|]. cbn [firstn descending].
  destruct H as [Hx Hl]. split; [|now apply IH].
  apply Forall_forall. intros y Hy. apply In_firstn in Hy.
  exact (proj1 (Forall_forall _ _) Hx y Hy).
Qed.

Lemma descending_strictly (l : list Z) :
  descending l -> NoDup l -> strictly_descending l.
Proof.
  induction l as [|x l IH]; cbn [descending strictly_descending]; [auto|].
  intros [Hx Hl] Hnd. inversion Hnd as [|? ? Hn Hnd']; subst.
  split; [|now apply IH].
  apply Forall_forall. intros y Hy.
  pose proof (proj1 (Forall_forall _ _) Hx y Hy) as H. cbv beta in H.
  assert (y <> x) by (intros ->; contradiction). lia.
Qed.

(** ** The count *)

Lemma left_joined_key {A} (key : A -> Z) (l : list A) (k : Z) :
  NoDup (map key l) ->
  left_joined (List.length (filter (fun x => key x =? k) l)) = 1%nat.
Proof.
  intros Hnd. destruct (in_dec Z.eq_dec k (map key l)) as [Hin|Hin].
  - apply in_map_iff in Hin as (a & <- & Ha).
    now rewrite (filter_key_unique key l a Hnd Ha).
  - now rewrite (filter_key_none key l k Hin).
Qed.

Lemma joined_rows_pos (b : bool) (db : DB) (p : Purchase.t) :
  (1 <= joined_rows b db p)%nat.
Proof.
  unfold joined_rows, left_joined. destruct b; nia.
Qed.

Lemma joined_rows_total (b : bool) (db : DB) (l : list Purchase.t) :
  (List.length l <= list_sum (map (joined_rows b db) l))%nat.
Proof.
  induction l as [|p l IH]; cbn [List.length map list_sum fold_right];
    [lia|].
  fold (list_sum (map (joined_rows b db) l)).
  pose proof (@joined_rows_pos b db p). lia.
Qed.

Lemma joined_rows_lines (b : bool) (db : DB) (p : Purchase.t) :
  NoDup (map User.id (users db)) -> NoDup (map Product.id (products db)) ->
  Z.of_nat (joined_rows b db p) = joined_lines db p.
Proof.
  intros Hu Hp. unfold joined_rows, joined_lines.
  set (lines := filter _ (purchase_details db)).
  assert (Hsum : list_sum
                   (map (fun d =>
                           left_joined
                             (List.length
                                (filter (fun p0 => Product.id p0
                                                   =? PurchaseDetail.product_id d)
                                        (products db))))
                        lines)
                 = List.length lines).
  { induction lines as [|d lines IH]; [reflexivity|].
    cbn [map list_sum fold_right List.length]. unfold list_sum in IH.
    now rewrite IH, (@left_joined_key _ Product.id (products db) _ Hp). }
  rewrite Hsum.
  assert (Hone : (if b then
                    left_joined
                      (List.length
                         (filter (fun u => User.id u =? Purchase.user_id p)
                                 (users db)))
                  else 1%nat) = 1%nat).
  { destruct b; [|reflexivity].
    apply (@left_joined_key _ User.id (users db) _ Hu). }
  rewrite Hone. unfold left_joined. lia.
Qed.

Lemma joined_rows_sum (b : bool) (db : DB) (l : list Purchase.t) :
  NoDup (map User.id (users db)) -> NoDup (map Product.id (products db)) ->
  Z.of_nat (list_sum (map (joined_rows b db) l))
  = sum_Z (map (joined_lines db) l).
Proof.
  intros Hu Hp. unfold sum_Z.
  induction l as [|p l IH]; cbn [map list_sum fold_right]; [reflexivity|].
  unfold list_sum in IH. rewrite Nat2Z.inj_add, IH. now rewrite (@joined_rows_lines b db p Hu Hp).
Qed.

Section Pages.

Variable env : Env.

(** What GET / answers, for a user of any role. *)
Lemma list_purchases_answer (user : User.t) (query : RawQuery) (w : World) :
  respond (list_purchases env user query) w =
  match queryParamsSchema query with
  | inl message =>
      (Json 400 (Failure "Parámetros de consulta inválidos" [message]), w)
  | inr (page, limit) =>
      match store_fault env (store_calls w) with
      | Some e => (Next (StoreRejected e), logged EvSelectPurchase w)
      | None =>
          let found := visible_to user (persisted w) in
          let count :=
            Z.of_nat
              (list_sum (map (joined_rows (negb (is_cliente user))
                                          (persisted w))
                             found)) in
          (Json 200
             (PurchaseList
                (map (view (negb (is_cliente user)) (persisted w))
                     (firstn (Z.to_nat limit)
                             (skipn (Z.to_nat ((page - 1) * limit))
                                    (order_desc found))))
                (mkPagination page (ceil_div count limit) count limit
                              (page <? ceil_div count limit) (1 <? page))),
           logged EvSelectPurchase w)
      end
  end.
Proof.
  unfold respond, list_purchases, try_catch.
  destruct (queryParamsSchema query) as [msg|[page limit]]; [reflexivity|].
  unfold bind, Purchase_findAndCountAll. rewrite read_persisted_run.
  destruct (store_fault env (store_calls w)); reflexivity.
Qed.

Lemma ceil_div_bounds (count limit : Z) :
  0 <= count -> 1 <= limit ->
  (ceil_div count limit - 1) * limit < count <= ceil_div count limit * limit.
Proof.
  intros Hc Hl. unfold ceil_div.
  pose proof (Z.div_mod (count + limit - 1) limit ltac:(lia)) as D.
  pose proof (Z.mod_pos_bound (count + limit - 1) limit ltac:(lia)) as M.
  nia.
Qed.

Lemma ceil_div_le (a b limit : Z) :
  0 <= a <= b -> 1 <= limit -> ceil_div a limit <= ceil_div b limit.
Proof.
  intros H Hl. unfold ceil_div. apply Z.div_le_mono; lia.
Qed.

(** X10. A page of GET /: the page and the limit are in range (1 and 10 when
    the query leaves them out, at most 100 rows), and the rows are the
    purchases of the page, among those the user may see.  The pagination
    block does not count these purchases but the rows of their join with
    their lines, a purchase once for each of its lines and once when it has
    none: [totalItems] is that number, at least the number of the
    purchases; [totalPages] is the least number of pages that holds
    [totalItems], [hasNextPage] says whether [totalItems] exceeds the rows
    up to the page, [hasPrevPage] whether the page is not the first. *)
Theorem listed_page (user : User.t) (query : RawQuery) (w : World)
    (rows : list PurchaseView) (pg : Pagination) :
  fst (respond (list_purchases env user query) w)
  = Json 200 (PurchaseList rows pg) ->
  let db := persisted w in
  let visible := visible_to user db in
  1 <= currentPage pg
  /\ 1 <= itemsPerPage pg <= 100
  /\ (raw_page query = None -> currentPage pg = 1)
  /\ (raw_limit query = None -> itemsPerPage pg = 10)
  /\ Z.of_nat (List.length rows)
     = Z.min (itemsPerPage pg)
             (Z.max 0 (Z.of_nat (List.length visible)
                       - (currentPage pg - 1) * itemsPerPage pg))
  /\ Z.of_nat (List.length visible) <= totalItems pg
  /\ (NoDup (map User.id (users db)) ->
      NoDup (map Product.id (products db)) ->
      totalItems pg = sum_Z (map (joined_lines db) visible))
  /\ (totalPages pg - 1) * itemsPerPage pg < totalItems pg
     <= totalPages pg * itemsPerPage pg
  /\ (hasNextPage pg = true
      <-> currentPage pg * itemsPerPage pg < totalItems pg)
  /\ (hasPrevPage pg = true <-> 1 < currentPage pg).
Proof.
  rewrite list_purchases_answer.
  destruct (queryParamsSchema query) as [msg|[page limit]] eqn:Eq;
    [discriminate|].
  destruct (store_fault env (store_calls w)); [discriminate|].
  cbv zeta. cbn [fst]. intros H. inversion H; subst; clear H.
  cbn [currentPage itemsPerPage totalItems totalPages hasNextPage hasPrevPage].
  destruct (queryParamsSchema_range _ Eq) as (Hp & Hl & Dp & Dl).
  set (found := visible_to user (persisted w)).
  set (b := negb (is_cliente user)).
  pose proof (@joined_rows_total b (persisted w) found) as Hle.
  set (count := Z.of_nat (list_sum (map (joined_rows b (persisted w)) found)))
    in *.
  assert (Hc : 0 <= count) by (unfold count; lia).
  pose proof (ceil_div_bounds Hc (proj1 Hl)) as Hceil.
  split; [exact Hp|]. split; [exact Hl|]. split; [exact Dp|].
  split; [exact Dl|]. split.
  { rewrite length_map, length_firstn, length_skipn, length_order_desc. nia. }
  split; [unfold count; lia|]. split.
  { intros Hu Hpr. apply joined_rows_sum; assumption. }
  split; [exact Hceil|]. split.
  - rewrite Z.ltb_lt. split; nia.
  - apply Z.ltb_lt.
Qed.

(** The rows of the page [i], from 1 on. *)
Lemma page_rows (user : User.t) (limit : Z) (w : World) (i : nat) :
  store_fault env (store_calls w) = None ->
  1 <= limit <= 100 ->
  Z.of_nat (List.length (visible_to user (persisted w)))
  <= MAX_SAFE_INTEGER ->
  views_of (fst (respond (list_purchases env user
                            (page_query (Z.of_nat (S i)) limit)) w))
  = map (view (negb (is_cliente user)) (persisted w))
        (firstn (Z.to_nat limit)
                (skipn (i * Z.to_nat limit)
                       (order_desc (visible_to user (persisted w))))).
Proof.
  intros Hf Hl Hsafe. rewrite list_purchases_answer.
  destruct (Z_le_gt_dec (Z.of_nat (S i)) MAX_SAFE_INTEGER) as [Hi|Hi].
  - rewrite queryParamsSchema_page_query by lia. rewrite Hf.
    cbv zeta. cbn [fst views_of].
    replace (Z.to_nat ((Z.of_nat (S i) - 1) * limit))
      with (i * Z.to_nat limit)%nat by nia.
    reflexivity.
  - destruct (@queryParamsSchema_page_unsafe (Z.of_nat (S i)) limit
                ltac:(lia)) as [message ->].
    cbn [fst views_of]. rewrite skipn_all2; [now rewrite firstn_nil|].
    rewrite length_order_desc. nia.
Qed.

(** X11. The pages of GET / cut the purchases the user may see, newest first,
    into consecutive pieces, when no two of these purchases have the same
    time stamp (the store does not fix the order of such rows) and they are
    fewer than 2^53: read one after the other, the pages 1 to [n] show each
    of them once, in the one order that is newest first, for every [n] that
    is at least the number of pages needed; the [totalPages] that a page
    announces is such a number. *)
Theorem pages_cover_once (user : User.t) (limit : Z) (w : World) :
  store_fault env (store_calls w) = None ->
  1 <= limit <= 100 ->
  let found := visible_to user (persisted w) in
  NoDup (map Purchase.created_at found) ->
  Z.of_nat (List.length found) <= MAX_SAFE_INTEGER ->
  let needed := Z.to_nat (ceil_div (Z.of_nat (List.length found)) limit) in
  let page i :=
    fst (respond (list_purchases env user (page_query (Z.of_nat i) limit))
                 w) in
  exists sorted,
    Permutation sorted found
    /\ strictly_descending (map Purchase.created_at sorted)
    /\ (forall n, (needed <= n)%nat ->
          flat_map (fun i => views_of (page i)) (seq 1 n)
          = map (view (negb (is_cliente user)) (persisted w)) sorted)
    /\ (forall i rows pg,
          page i = Json 200 (PurchaseList rows pg) ->
          (needed <= Z.to_nat (totalPages pg))%nat).
Proof.
  intros Hf Hl found Hties Hsafe needed page.
  pose proof (@ceil_div_bounds (Z.of_nat (List.length found)) limit
                ltac:(lia) ltac:(lia)) as Hceil.
  exists (order_desc found).
  split; [symmetry; apply Permutation_order_desc|]. split.
  { apply descending_strictly; [apply descending_order_desc|].
    apply (Permutation_NoDup
             (Permutation_map _ (Permutation_order_desc found))).
    exact Hties. }
  split.
  - intros n Hn.
    rewrite <- seq_shift, flat_map_concat_map, map_map,
      <- flat_map_concat_map.
    rewrite (flat_map_ext _
               (fun i => map (view (negb (is_cliente user)) (persisted w))
                             (firstn (Z.to_nat limit)
                                     (skipn (i * Z.to_nat limit)
                                            (order_desc found))))).
    + rewrite flat_map_concat_map, <- map_map, <- concat_map,
        <- flat_map_concat_map.
      f_equal. apply pages_concat. rewrite length_order_desc.
      unfold needed in Hn. nia.
    + intros i. unfold page. now apply page_rows.
  - intros i rows pg. unfold page. rewrite list_purchases_answer.
    destruct (queryParamsSchema _) as [msg|[p l]] eqn:Eq; [discriminate|].
    rewrite Hf. cbv zeta. cbn [fst]. intros H. inversion H; subst; clear H.
    cbn [totalPages].
    assert (l = limit).
    { unfold queryParamsSchema, page_query in Eq.
      cbn [raw_page raw_limit] in Eq.
      destruct (unsafe (inject_Z (Z.of_nat i))); [discriminate|].
      destruct (negb (is_integer (inject_Z (Z.of_nat i)))); [discriminate|].
      destruct (Qltb (inject_Z (Z.of_nat i)) 1); [discriminate|].
      destruct (unsafe (inject_Z limit)); [discriminate|].
      destruct (negb (is_integer (inject_Z limit))); [discriminate|].
      destruct (Qltb (inject_Z limit) 1); [discriminate|].
      destruct (Qltb 100 (inject_Z limit)); [discriminate|].
      inversion Eq. apply Qfloor_Z. }
    subst l. fold found.
    pose proof (@joined_rows_total (negb (is_cliente user)) (persisted w)
                                   found) as Hrows.
    unfold needed. apply Z2Nat.inj_le.
    + unfold ceil_div. apply Z.div_pos; lia.
    + unfold ceil_div. apply Z.div_pos; lia.
    + apply ceil_div_le; lia.
Qed.

(** X12. The purchases of a page of GET / come newest first. *)
Theorem listed_newest_first (user : User.t) (query : RawQuery) (w : World) :
  descending
    (listed_stamps (fst (respond (list_purchases env user query) w))).
Proof.
  rewrite list_purchases_answer. unfold listed_stamps.
  destruct (queryParamsSchema query) as [msg|[page limit]]; [exact I|].
  destruct (store_fault env (store_calls w)); [exact I|].
  cbv zeta. cbn [fst views_of]. rewrite map_map.
  rewrite <- firstn_map, <- skipn_map.
  apply descending_firstn, descending_skipn.
  exact (descending_order_desc (visible_to user (persisted w))).
Qed.

(** X13. A page or a limit out of range (not an integer, below 1, a limit
    above 100) is answered 400 before any call to the store. *)
Theorem query_out_of_range_refused (user : User.t) (query : RawQuery)
    (w : World) :
  out_of_range query ->
  exists message,
    respond (list_purchases env user query) w
    = (Json 400 (Failure "Parámetros de consulta inválidos" [message]), w).
Proof.
  intros H. destruct (queryParamsSchema_refuses H) as [message E].
  exists message. now rewrite list_purchases_answer, E.
Qed.

End Pages.

(* ================================================================== *)
(** * Carts that cannot be locked, and a store that is busy *)
(* ================================================================== *)

Lemma existsb_map_filter {A B} (f : B -> bool) (g : A -> B) (h : A -> bool)
    (l : list A) :
  existsb f (map g (filter h l)) = existsb (fun x => (h x && f (g x))%bool) l.
Proof.
  induction l as [|a l IH]; [reflexivity|]. cbn [filter existsb].
  destruct (h a); cbn [map existsb andb]; now rewrite IH.
Qed.

Lemma missing_ids (ids : list Z) (db : DB) :
  filter (fun id => negb (existsb (Z.eqb id)
                            (map Product.id (locked_products ids db)))) ids
  = filter (fun id => negb (existsb (fun p => (Product.id p =? id)
                                               && Product.activo p)%bool
                                    (products db))) ids.
Proof.
  apply filter_ext_in. intros id Hid. f_equal.
  unfold locked_products. rewrite existsb_map_filter.
  induction (products db) as [|p ps IH]; [reflexivity|]. cbn [existsb].
  rewrite IH. f_equal.
  destruct (Product.id p =? id) eqn:E.
  - apply Z.eqb_eq in E. rewrite Z.eqb_sym, <- E, Z.eqb_refl.
    rewrite andb_true_r, andb_true_l.
    replace (existsb (Z.eqb (Product.id p)) ids) with true; [reflexivity|].
    symmetry. apply existsb_eqb_In. now rewrite E.
  - rewrite Z.eqb_sym, E. now rewrite andb_false_r.
Qed.

(** A cart whose products are all locked names distinct products, each of
    them present and active. *)
Lemma locked_all (ids : list Z) (db : DB) :
  NoDup (map Product.id (products db)) ->
  List.length (locked_products ids db) = List.length ids ->
  NoDup ids
  /\ forall id, In id ids ->
       exists p, In p (products db) /\ Product.id p = id
                 /\ Product.activo p = true.
Proof.
  intros Hnd Hlen.
  assert (Hin : incl (map Product.id (locked_products ids db)) ids).
  { intros i Hi. apply in_map_iff in Hi as (p & <- & Hp).
    unfold locked_products in Hp. apply filter_In in Hp as [_ Hc].
    apply andb_true_iff in Hc as [Hc _]. now apply existsb_eqb_In in Hc. }
  assert (Hnl : NoDup (map Product.id (locked_products ids db))).
  { unfold locked_products. now apply NoDup_map_filter. }
  split.
  - apply NoDup_incl_NoDup with (l := map Product.id (locked_products ids db));
      [exact Hnl | rewrite length_map; lia | exact Hin].
  - intros id Hid.
    assert (H : In id (map Product.id (locked_products ids db))).
    { apply (@NoDup_length_incl Z (map Product.id (locked_products ids db))
               ids Hnl); [rewrite length_map; lia | exact Hin | exact Hid]. }
    apply in_map_iff in H as (p & Hp & H).
    unfold locked_products in H. apply filter_In in H as [H Hc].
    apply andb_true_iff in Hc as [_ Hc]. exists p. auto.
Qed.

Section TurnedDown.

Variable env : Env.

(** X8. A cart that names a product twice, or a product that is absent or
    inactive, is answered 404 with the identifiers of the cart that no
    active product carries, in the order of the cart (none, when the cart
    only repeats products); the transaction is rolled back right after the
    lock query and the tables are unchanged. *)
Theorem unlockable_cart_not_found (user : User.t) (body : RawBody)
    (productos : list Item) (w : World) :
  store_fault env (store_calls w) = None ->
  store_fault env (S (store_calls w)) = None ->
  purchaseSchema body = inr productos ->
  NoDup (map Product.id (products (persisted w))) ->
  (~ NoDup (map product_id productos)
   \/ exists item,
        In item productos
        /\ forall p, In p (products (persisted w)) ->
                     Product.id p = product_id item ->
                     Product.activo p = false) ->
  respond (create_purchase env user body) w =
  (Json 404
     (Failure
        (missing_message
           (filter (fun id =>
                      negb (existsb (fun p => (Product.id p =? id)
                                              && Product.activo p)%bool
                                    (products (persisted w))))
                   (map product_id productos)))
        []),
   mkWorld (persisted w) Finished
           (log w ++ [EvBegin;
                      EvSelectProductsForUpdate (map product_id productos);
                      EvRollback])
           (S (S (store_calls w))) (clock_reads w) (random_reads w)).
Proof.
  intros Hf0 Hf1 Hschema Hnd Hbad.
  unfold respond, create_purchase. unfold bind at 1.
  rewrite (sequelize_transaction_run env w Hf0).
  unfold try_catch, purchase_body. rewrite Hschema.
  unfold bind at 1. unfold Product_findAll_locked.
  rewrite in_transaction_run. cbn [store_calls tx]. rewrite Hf1.
  cbv [with_tx logged].
  cbn [fst snd persisted log store_calls clock_reads random_reads tx].
  fold (locked_products (map product_id productos) (persisted w)).
  unfold purchase_locked.
  destruct (Nat.eqb _ _) eqn:Hlen.
  { exfalso. apply Nat.eqb_eq in Hlen.
    destruct (locked_all _ _ Hnd Hlen) as [Hn Hall].
    destruct Hbad as [Hbad|(item & Hitem & Hgone)]; [now apply Hbad|].
    destruct (Hall (product_id item) (in_map _ _ _ Hitem))
      as (p & Hp & Hid & Hact).
    rewrite (Hgone p Hp Hid) in Hact. discriminate. }
  cbn [negb]. unfold bind. rewrite rollback_run.
  cbn [tx ret persisted log store_calls clock_reads random_reads].
  rewrite missing_ids. rewrite <- !app_assoc. cbn [List.app]. reflexivity.
Qed.

(** X9. When the lock query runs into a timeout (a lock wait timeout, or a
    timeout of the store), the answer is 503 'busy': the transaction is
    rolled back, nothing else is asked of the store and the tables are
    unchanged. *)
Theorem lock_timeout_answers_busy (user : User.t) (body : RawBody)
    (productos : list Item) (e : StoreError) (w : World) :
  store_fault env (store_calls w) = None ->
  store_fault env (S (store_calls w)) = Some e ->
  e = SequelizeTimeoutError \/ e = LockWaitTimeout ->
  purchaseSchema body = inr productos ->
  respond (create_purchase env user body) w =
  (Json 503
     (Failure "El sistema está ocupado, intente nuevamente en unos segundos"
              []),
   mkWorld (persisted w) Finished
           (log w ++ [EvBegin;
                      EvSelectProductsForUpdate (map product_id productos);
                      EvRollback])
           (S (S (store_calls w))) (clock_reads w) (random_reads w)).
Proof.
  intros Hf0 Hf1 He Hschema.
  unfold respond, create_purchase. unfold bind at 1.
  rewrite (sequelize_transaction_run env w Hf0).
  unfold try_catch, purchase_body. rewrite Hschema.
  unfold bind at 1. unfold Product_findAll_locked.
  rewrite in_transaction_run. cbn [store_calls tx]. rewrite Hf1.
  unfold on_error, bind. rewrite rollback_run.
  cbv [logged]. cbn [tx persisted log store_calls clock_reads random_reads].
  rewrite <- !app_assoc. cbn [List.app].
  destruct He as [-> | ->]; reflexivity.
Qed.

End TurnedDown.

(* ================================================================== *)
(** * The methods of the models *)
(* ================================================================== *)

Section Models.

Variable env : Env.

Lemma write_persisted_run {A} (ev : Event) (q : DB -> A * DB) (w : World) :
  write_persisted env ev q w =
  match store_fault env (store_calls w) with
  | Some e => (Throw (StoreRejected e), logged ev w)
  | None =>
      (Ok (fst (q (persisted w))),
       mkWorld (snd (q (persisted w))) (tx w) (log w ++ [ev])
               (S (store_calls w)) (clock_reads w) (random_reads w))
  end.
Proof.
  unfold write_persisted, bind, store_call, get_persisted, set_persisted,
    ret, logged.
  destruct (store_fault env (store_calls w)); [reflexivity|].
  cbn [persisted tx log store_calls clock_reads random_reads].
  destruct (q (persisted w)). reflexivity.
Qed.

(** ** [Product.prototype.reducirStock] and [aumentarStock] *)

Lemma Product_save_run (previous : Z) (this : Product.t) (w : World) :
  Product.cantidad_disponible this <> previous ->
  0 <= Product.cantidad_disponible this ->
  Product_save env previous this w
  = match store_fault env (store_calls w) with
    | Some e =>
        (Throw (StoreRejected e),
         logged (EvUpdateStock (Product.id this)
                               (Product.cantidad_disponible this)) w)
    | None =>
        (Ok tt,
         mkWorld
           (mkDB (users (persisted w))
                 (map (set_stock (Product.id this)
                                 (Product.cantidad_disponible this))
                      (products (persisted w)))
                 (purchases (persisted w)) (purchase_details (persisted w)))
           (tx w)
           (log w ++ [EvUpdateStock (Product.id this)
                                    (Product.cantidad_disponible this)])
           (S (store_calls w)) (clock_reads w) (random_reads w))
    end.
Proof.
  intros Hc Hv. unfold Product_save.
  apply Z.eqb_neq in Hc. rewrite Hc.
  apply Z.ltb_ge in Hv. rewrite Hv.
  rewrite write_persisted_run.
  destruct (store_fault env (store_calls w)); reflexivity.
Qed.

Lemma Product_save_unchanged (this : Product.t) (w : World) :
  Product_save env (Product.cantidad_disponible this) this w = (Ok tt, w).
Proof. unfold Product_save. now rewrite Z.eqb_refl. Qed.

(** X14. [reducirStock] never stores a negative stock: when the instance holds
    less than is asked it throws its 'Stock insuficiente' error without a
    call to the store; otherwise the rows of its key get the stock of the
    instance less the quantity, which is not negative (for the quantity 0
    nothing has changed and nothing is sent), and the only error is a
    rejection of the update by the store, never one of the validator, with
    the tables unchanged. *)
Theorem reducirStock_guarded (this : Product.t) (cantidad : Z) (w : World) :
  match reducirStock env this cantidad w with
  | (Ok (inl message), w') =>
      Product.cantidad_disponible this < cantidad
      /\ message = reducirStock_message this cantidad /\ w' = w
  | (Ok (inr (this', result)), w') =>
      result = true
      /\ this' = Product.with_cantidad_disponible
                   (Product.cantidad_disponible this - cantidad) this
      /\ 0 <= Product.cantidad_disponible this'
      /\ products (persisted w')
         = if cantidad =? 0 then products (persisted w)
           else map (set_stock (Product.id this)
                               (Product.cantidad_disponible this - cantidad))
                    (products (persisted w))
  | (Throw e, w') =>
      cantidad <= Product.cantidad_disponible this
      /\ (exists rejection,
            store_fault env (store_calls w) = Some rejection
            /\ e = StoreRejected rejection)
      /\ persisted w' = persisted w
  end.
Proof.
  unfold reducirStock, tieneStock.
  destruct (cantidad <=? Product.cantidad_disponible this) eqn:E; cbn [negb].
  - apply Z.leb_le in E. cbv zeta. unfold bind.
    destruct (Z.eq_dec cantidad 0) as [->|Hz].
    + replace (Product.cantidad_disponible this - 0)
        with (Product.cantidad_disponible this) by lia.
      pose proof (Product_save_unchanged
                    (Product.with_cantidad_disponible
                       (Product.cantidad_disponible this) this) w) as S0.
      cbn [Product.cantidad_disponible Product.with_cantidad_disponible]
        in S0.
      rewrite S0. cbn [ret Z.eqb].
      destruct this; cbn in *. repeat split; lia.
    + rewrite Product_save_run;
        [|cbn [Product.cantidad_disponible Product.with_cantidad_disponible];
          lia ..].
      assert (Hz' : (cantidad =? 0) = false) by now apply Z.eqb_neq.
      rewrite Hz'.
      destruct (store_fault env (store_calls w)) as [rejection|];
        cbn [fst snd ret].
      * split; [exact E|]. split; [now exists rejection | reflexivity].
      * destruct this; cbn in *. repeat split; lia.
  - apply Z.leb_gt in E. cbn [ret]. auto.
Qed.

Lemma with_cantidad_disponible_twice (a b : Z) (p : Product.t) :
  Product.with_cantidad_disponible a (Product.with_cantidad_disponible b p)
  = Product.with_cantidad_disponible a p.
Proof. reflexivity. Qed.

Lemma with_cantidad_disponible_same (p : Product.t) :
  Product.with_cantidad_disponible (Product.cantidad_disponible p) p = p.
Proof. destruct p. reflexivity. Qed.

Lemma set_stock_back (this : Product.t) (q : Z) (ps : list Product.t) :
  NoDup (map Product.id ps) -> In this ps ->
  map (set_stock (Product.id this) (Product.cantidad_disponible this))
      (map (set_stock (Product.id this) q) ps)
  = ps.
Proof.
  intros Hnd Hin. rewrite map_map. rewrite <- (map_id ps) at 2.
  apply map_ext_in. intros p Hp. unfold set_stock.
  destruct (Product.id p =? Product.id this) eqn:E.
  - change (Product.id (Product.with_cantidad_disponible q p))
      with (Product.id p).
    rewrite E. apply Z.eqb_eq in E.
    pose proof (find_unique Product.id ps p Hnd Hp) as F1.
    pose proof (find_unique Product.id ps this Hnd Hin) as F2.
    rewrite E in F1. assert (p = this) by congruence. subst p.
    rewrite with_cantidad_disponible_twice.
    apply with_cantidad_disponible_same.
  - now rewrite E.
Qed.

(** X15. [aumentarStock] undoes [reducirStock]: when a product of the tables
    holds the quantity, its stock is not negative, and the store accepts
    the updates, reducing and then increasing the stock by the same
    quantity restores the instance and the tables. *)
Theorem aumentarStock_undoes_reducirStock (this : Product.t) (cantidad : Z)
    (w : World) :
  store_fault env (store_calls w) = None ->
  store_fault env (S (store_calls w)) = None ->
  NoDup (map Product.id (products (persisted w))) ->
  In this (products (persisted w)) ->
  0 <= Product.cantidad_disponible this ->
  cantidad <= Product.cantidad_disponible this ->
  exists reduced w1 w2,
    reducirStock env this cantidad w = (Ok (inr (reduced, true)), w1)
    /\ Product.cantidad_disponible reduced
       = Product.cantidad_disponible this - cantidad
    /\ aumentarStock env reduced cantidad w1 = (Ok this, w2)
    /\ persisted w2 = persisted w.
Proof.
  intros Hf0 Hf1 Hnd Hin Hpos Hq.
  unfold reducirStock, aumentarStock, tieneStock.
  pose proof Hq as Hq'. apply Z.leb_le in Hq'. rewrite Hq'. cbn [negb].
  cbv zeta. unfold bind.
  set (reduced := Product.with_cantidad_disponible
                    (Product.cantidad_disponible this - cantidad) this).
  assert (E2 : Product.cantidad_disponible reduced
               = Product.cantidad_disponible this - cantidad) by reflexivity.
  assert (E3 : Product.with_cantidad_disponible
                 (Product.cantidad_disponible reduced + cantidad) reduced
               = this).
  { rewrite E2. unfold reduced. rewrite with_cantidad_disponible_twice.
    replace (Product.cantidad_disponible this - cantidad + cantidad)
      with (Product.cantidad_disponible this) by lia.
    apply with_cantidad_disponible_same. }
  destruct (Z.eq_dec cantidad 0) as [Hz|Hz].
  - subst cantidad.
    assert (Er : reduced = this).
    { unfold reduced. rewrite Z.sub_0_r.
      apply with_cantidad_disponible_same. }
    clearbody reduced. subst reduced.
    exists this, w, w. rewrite E3, !Product_save_unchanged. cbn [ret].
    repeat split; lia.
  - rewrite (@Product_save_run (Product.cantidad_disponible this) reduced w);
      [|rewrite E2; lia ..].
    rewrite Hf0. cbn [ret].
    do 3 eexists. split; [reflexivity|]. split; [exact E2|].
    rewrite E3.
    rewrite Product_save_run; [|cbn; lia ..].
    cbn [store_calls persisted tx log clock_reads random_reads].
    rewrite Hf1. cbn [ret]. split; [reflexivity|].
    cbn [persisted users products purchases purchase_details Product.id
         Product.cantidad_disponible Product.with_cantidad_disponible
         reduced].
    rewrite (@set_stock_back this _ _ Hnd Hin).
    now destruct (persisted w).
Qed.

(** ** The hooks of the line rows *)

(** X16. The subtotal that the hooks store is exact: for a unit price of [c]
    cents and a quantity that are at least 1, with a product of at most
    10^12 cents, [beforeCreate] stores exactly [c] times the quantity,
    whatever subtotal it is given, and so does [beforeUpdate] when
    [changed] reports a new quantity or unit price; the product of the two
    numbers, rounded by [toFixed(2)], loses no cent.  Nothing else of the
    row is touched, and [beforeUpdate] leaves the row alone when neither
    has changed. *)
Theorem hooks_subtotal_exact (changed : string -> bool)
    (detail : PurchaseDetail.t) (c : Z) :
  PurchaseDetail.precio_unitario detail = JsNumber.parseFloat_decimal c ->
  1 <= c -> 1 <= PurchaseDetail.cantidad detail ->
  c * PurchaseDetail.cantidad detail <= decimal12 ->
  PurchaseDetail_beforeCreate detail
  = PurchaseDetail.with_subtotal (c * PurchaseDetail.cantidad detail) detail
  /\ (changed "precio_unitario" = true \/ changed "cantidad" = true ->
      PurchaseDetail_beforeUpdate changed detail
      = PurchaseDetail.with_subtotal (c * PurchaseDetail.cantidad detail)
                                     detail)
  /\ (changed "precio_unitario" = false -> changed "cantidad" = false ->
      PurchaseDetail_beforeUpdate changed detail = detail).
Proof.
  intros Hp Hc Hq Hb.
  assert (E : JsNumber.toFixed2
                (JsNumber.mul (inject_Z (PurchaseDetail.cantidad detail))
                              (PurchaseDetail.precio_unitario detail))
              = c * PurchaseDetail.cantidad detail).
  { rewrite Hp, JsNumberFacts.mul_comm.
    exact (MoneyFacts.line_subtotal_exact Hc Hq Hb). }
  split; [|split].
  - unfold PurchaseDetail_beforeCreate. cbv zeta. now rewrite E.
  - intros H. unfold PurchaseDetail_beforeUpdate.
    assert (Hor : (changed "precio_unitario" || changed "cantidad")%bool
                  = true).
    { apply orb_true_iff. exact H. }
    rewrite Hor. cbv zeta. now rewrite E.
  - intros H1 H2. unfold PurchaseDetail_beforeUpdate. now rewrite H1, H2.
Qed.

(** ** The static methods of [Purchase] *)

(** X17. [isInvoiceNumberUnique] never throws and changes nothing: it answers
    whether no stored purchase carries the number, and answers [false]
    whenever the store rejects the query, also for a number that is
    free. *)
Theorem isInvoiceNumberUnique_answer (nf : string) (w : World) :
  isInvoiceNumberUnique env nf w =
  (Ok (match store_fault env (store_calls w) with
       | Some _ => false
       | None => negb (taken nf (persisted w))
       end),
   logged (EvSelectPurchaseByInvoice nf) w).
Proof.
  unfold isInvoiceNumberUnique, try_catch, bind.
  rewrite read_persisted_run.
  destruct (store_fault env (store_calls w)); [reflexivity|].
  cbn [ret]. unfold taken. rewrite find_existsb.
  destruct (find _ _); reflexivity.
Qed.

Lemma Purchase_create_on_run (transaction : bool) (uid total : Z)
    (nf : string) (e : Estado) (fecha : Z) (w : World) :
  falsy (Some nf) = false -> blank nf = false ->
  Purchase_create_on env transaction uid total (Some nf) e fecha w =
  run_statement env transaction EvInsertPurchase
    (fun db =>
       let row :=
         Purchase.mk (next_id (map Purchase.id (purchases db)))
                     uid fecha total e (Some nf)
                     (Date_now env (clock_reads w)) in
       (row, mkDB (users db) (products db) (purchases db ++ [row])
                  (purchase_details db)))
    (mkWorld (persisted w) (tx w) (log w) (store_calls w)
             (S (clock_reads w)) (random_reads w)).
Proof.
  intros Hfalsy Hblank. unfold Purchase_create_on.
  unfold bind at 1. cbn [now].
  unfold bind at 1. unfold Purchase_beforeCreate.
  cbn [Purchase.numero_factura]. rewrite Hfalsy. cbn [ret].
  unfold bind at 1. unfold Purchase_beforeSave.
  cbn [Purchase.numero_factura]. rewrite Hfalsy, Hblank. cbn [orb ret].
  reflexivity.
Qed.

(** X18. [createPurchaseWithDetails] writes a purchase and no detail: when the
    store accepts the insertion, the tables it sees gain one purchase row,
    of the user, with the invoice number just generated (which is not
    looked up in the table) and the total of the items; the line rows and
    the stock are left as they were. *)
Theorem createPurchaseWithDetails_writes_no_line (userId : Z)
    (productos : list PricedItem) (transaction : bool) (w : World)
    (db : DB) :
  tables_of transaction w = Some db ->
  store_fault env (store_calls w) = None ->
  exists row w',
    createPurchaseWithDetails env userId productos transaction w
    = (Ok row, w')
    /\ tables_of transaction w'
       = Some (mkDB (users db) (products db) (purchases db ++ [row])
                    (purchase_details db))
    /\ Purchase.user_id row = userId
    /\ Purchase.estado row = completada
    /\ Purchase.total row = JsNumber.toFixed2 (items_total productos)
    /\ Purchase.numero_factura row
       = Some (candidate env (clock_reads w) (random_reads w)).
Proof.
  intros Ht Hf. unfold createPurchaseWithDetails, try_catch.
  unfold bind at 1. rewrite generateInvoiceNumber_candidate.
  unfold bind at 1. cbn [now clock_reads persisted tx log store_calls
                         random_reads].
  rewrite Purchase_create_on_run by reflexivity.
  cbn [clock_reads persisted tx log store_calls random_reads].
  unfold run_statement, tables_of in *. destruct transaction.
  - rewrite in_transaction_run. cbn [store_calls tx]. rewrite Hf.
    destruct (tx w) as [|working|]; try discriminate.
    inversion Ht; subst. cbv zeta. cbn [fst snd].
    do 2 eexists. split; [reflexivity|]. cbn [with_tx tx].
    repeat split; reflexivity.
  - rewrite write_persisted_run. cbn [store_calls persisted]. rewrite Hf.
    inversion Ht; subst. cbv zeta. cbn [fst snd].
    do 2 eexists. split; [reflexivity|]. cbn [persisted].
    repeat split; reflexivity.
Qed.

End Models.

(* ================================================================== *)
(** * Invoice numbers that coincide *)
(* ================================================================== *)

Lemma length_append (a b : string) :
  String.length (a ++ b) = (String.length a + String.length b)%nat.
Proof. induction a as [|c a IH]; cbn; [reflexivity | now rewrite IH]. Qed.

Lemma append_inj_same_length (a a' s s' : string) :
  String.length s = String.length s' ->
  (a ++ s)%string = (a' ++ s')%string -> a = a' /\ s = s'.
Proof.
  intros Hl. revert a'. induction a as [|c a IH]; intros [|c' a'] H;
    cbn [append] in H.
  - auto.
  - exfalso. rewrite H in Hl. cbn [String.length] in Hl.
    rewrite length_append in Hl. lia.
  - exfalso. rewrite <- H in Hl. cbn [String.length] in Hl.
    rewrite length_append in Hl. lia.
  - inversion H as [[Hc Ht]]. destruct (IH a' Ht) as [-> ->]. auto.
Qed.

Lemma String_tail_inj (c : ascii) (a b : string) :
  String c a = String c b -> a = b.
Proof. intros H. now injection H. Qed.

Lemma show_Z_inj (a b : Z) : show_Z a = show_Z b -> a = b.
Proof.
  unfold show_Z. intros H.
  assert (Hn : forall z, Z.to_int z <> Decimal.Pos Decimal.Nil
                         /\ Z.to_int z <> Decimal.Neg Decimal.Nil).
  { intros [|p|p]; cbn; split; try discriminate; intros E; inversion E as [E'];
      exact (DecimalPos.Unsigned.to_uint_nonnil p E'). }
  assert (E : Some (Z.to_int a) = Some (Z.to_int b)).
  { rewrite <- (NilZero.isi (Z.to_int a)), <- (NilZero.isi (Z.to_int b));
      try apply Hn. now rewrite H. }
  inversion E as [E']. clear E H Hn.
  destruct a as [|p|p], b as [|q|q]; cbn in E'; try discriminate;
    try reflexivity; inversion E' as [E''].
  - exfalso. symmetry in E''.
    exact (DecimalPos.Unsigned.to_uint_nonzero q E'').
  - exfalso. exact (DecimalPos.Unsigned.to_uint_nonzero p E'').
  - now rewrite (DecimalPos.Unsigned.to_uint_inj p q E'').
  - now rewrite (DecimalPos.Unsigned.to_uint_inj p q E'').
Qed.

Lemma digit_inj (a b : Z) :
  0 <= a <= 9 -> 0 <= b <= 9 -> digit a = digit b -> a = b.
Proof.
  unfold digit. intros Ha Hb H. apply (f_equal nat_of_ascii) in H.
  rewrite !nat_ascii_embedding in H by lia. lia.
Qed.

Lemma three_digits_inj (n m : Z) :
  0 <= n <= 999 -> 0 <= m <= 999 -> three_digits n = three_digits m -> n = m.
Proof.
  unfold three_digits. intros Hn Hm H. inversion H as [[H1 H2 H3]].
  pose proof (Z.div_mod n 10 ltac:(lia)) as Dn.
  pose proof (Z.div_mod m 10 ltac:(lia)) as Dm.
  pose proof (Z.div_mod (n / 10) 10 ltac:(lia)) as En.
  pose proof (Z.div_mod (m / 10) 10 ltac:(lia)) as Em.
  rewrite Z.div_div in En, Em by lia. change (10 * 10) with 100 in En, Em.
  pose proof (Z.mod_pos_bound n 10 ltac:(lia)).
  pose proof (Z.mod_pos_bound m 10 ltac:(lia)).
  pose proof (Z.mod_pos_bound (n / 10) 10 ltac:(lia)).
  pose proof (Z.mod_pos_bound (m / 10) 10 ltac:(lia)).
  pose proof (Z.div_mod n 100 ltac:(lia)).
  pose proof (Z.div_mod m 100 ltac:(lia)).
  pose proof (Z.mod_pos_bound n 100 ltac:(lia)).
  pose proof (Z.mod_pos_bound m 100 ltac:(lia)).
  assert (0 <= n / 100 <= 9) by lia.
  assert (0 <= m / 100 <= 9) by lia.
  apply digit_inj in H1; [|lia|lia].
  apply digit_inj in H2; [|lia|lia].
  apply digit_inj in H3; [|lia|lia].
  lia.
Qed.

Section InvoiceNumbers.

Variable env : Env.

(** X19. Two invoice numbers that the generator returns are the same text only
    when they were made in the same millisecond with the same number of
    0..999 drawn: the format itself merges no two draws. *)
Theorem invoice_numbers_coincide_on_same_draw (w w' : World) :
  JsNumber.unit_double (Math_random env (random_reads w)) ->
  JsNumber.unit_double (Math_random env (random_reads w')) ->
  fst (generateInvoiceNumber env w) = fst (generateInvoiceNumber env w') ->
  Date_now env (clock_reads w) = Date_now env (clock_reads w')
  /\ JsNumber.floor (JsNumber.mul (Math_random env (random_reads w)) 1000)
     = JsNumber.floor (JsNumber.mul (Math_random env (random_reads w')) 1000).
Proof.
  intros Hr Hr'. rewrite !generateInvoiceNumber_run. cbn [fst].
  pose proof (JsNumberFacts.random_thousand Hr) as Hn.
  pose proof (JsNumberFacts.random_thousand Hr') as Hn'.
  rewrite !(padStart_three_digits) by assumption.
  set (n := JsNumber.floor
              (JsNumber.mul (Math_random env (random_reads w)) 1000)) in *.
  set (n' := JsNumber.floor
               (JsNumber.mul (Math_random env (random_reads w')) 1000)) in *.
  intros H. injection H as H1. cbn [append] in H1.
  repeat (injection H1 as H1).
  apply append_inj_same_length in H1 as [Ht Hd]; [|reflexivity].
  split; [now apply show_Z_inj|].
  cbn [append] in Hd. apply String_tail_inj in Hd.
  apply three_digits_inj; assumption.
Qed.

End InvoiceNumbers.

(* ================================================================== *)
(** * Sums of stored amounts *)
(* ================================================================== *)

Module TotalsFacts.
Import JsNumber JsNumberFacts MoneyFacts.
Local Open Scope Q_scope.

Lemma decimal_bounds (c : Z) :
  (1 <= c)%Z ->
  inject_Z c * (1 - 3 * u53) <= parseFloat_decimal c * 100
  /\ parseFloat_decimal c * 100 <= inject_Z c * (1 + 3 * u53)
  /\ 0 < parseFloat_decimal c.
Proof.
  intros Hc. unfold parseFloat_decimal.
  assert (Hcq : 0 < inject_Z c)
    by (change 0 with (inject_Z 0); rewrite <- Zlt_Qlt; lia).
  assert (Hx : 0 < inject_Z c / 100)
    by (apply Qlt_shift_div_l; [reflexivity | lra]).
  destruct (fl_error Hx) as [P1 P2].
  assert (Ex : inject_Z c / 100 * 100 == inject_Z c) by field.
  set (x := inject_Z c / 100) in *. set (P := fl x) in *.
  assert (Hu : 0 < u53) by reflexivity.
  assert (Hu1 : u53 < 1 # 1000) by reflexivity.
  repeat split; nra.
Qed.

Lemma add_decimal_step (t d : Q) (e c : Z) :
  (1 <= c)%Z -> (0 <= e)%Z -> (e + c <= decimal12)%Z ->
  0 <= t -> 0 <= d -> d + drift <= 1 # 2 ->
  inject_Z e - d <= t * 100 -> t * 100 <= inject_Z e + d ->
  let t' := add t (parseFloat_decimal c) in
  0 <= t'
  /\ inject_Z (e + c) - (d + drift) <= t' * 100
  /\ t' * 100 <= inject_Z (e + c) + (d + drift).
Proof.
  intros Hc He Hb Ht Hd Hdd Lo Hi t'.
  destruct (decimal_bounds Hc) as (S1 & S2 & Spos).
  set (s := parseFloat_decimal c) in *.
  assert (Hts : 0 < t + s) by lra.
  destruct (fl_error Hts) as [F1 F2].
  fold (add t s) in F1, F2. fold t' in F1, F2.
  rewrite inject_Z_plus.
  set (E := inject_Z e) in *. set (C := inject_Z c) in *.
  assert (HE : 0 <= E)
    by (unfold E; change 0 with (inject_Z 0); rewrite <- Zle_Qle; lia).
  assert (HC : 0 < C)
    by (unfold C; change 0 with (inject_Z 0); rewrite <- Zlt_Qlt; lia).
  assert (HB : E + C <= inject_Z decimal12).
  { unfold E, C. rewrite <- inject_Z_plus, <- Zle_Qle. exact Hb. }
  set (B := inject_Z decimal12) in *.
  assert (Hdrift : drift == (4 * B + 1) * u53) by reflexivity.
  assert (Hu : 0 < u53) by reflexivity.
  assert (HBu : 3 * B * u53 <= 1 # 2) by (unfold B, u53, Qle; simpl; lia).
  assert (HBpos : 0 < B) by reflexivity.
  assert (U1 : (t + s) * 100 <= E + d + C * (1 + 3 * u53)) by lra.
  assert (L1 : E - d + C * (1 - 3 * u53) <= (t + s) * 100) by lra.
  assert (M1 : (E + C) * u53 <= B * u53) by nra.
  assert (M2 : C * u53 <= B * u53) by nra.
  assert (M3 : C * u53 * u53 <= B * u53 * u53) by nra.
  assert (M4 : d * u53 <= (1 # 2) * u53) by nra.
  assert (M5 : B * u53 * u53 * 3 <= (1 # 2) * u53) by nra.
  assert (M6 : 0 <= d * u53) by nra.
  assert (M7 : 0 <= C * u53 * u53) by nra.
  repeat split.
  - assert (0 < 1 - u53) by reflexivity. nra.
  - assert (K : ((t + s) * 100) * (1 - u53) <= t' * 100) by nra.
    assert (K2 : (E - d + C * (1 - 3 * u53)) * (1 - u53)
                 <= ((t + s) * 100) * (1 - u53)).
    { apply Qmult_le_compat_r; [exact L1 | ]. unfold u53, Qle; simpl; lia. }
    nra.
  - assert (K : t' * 100 <= ((t + s) * 100) * (1 + u53)) by nra.
    assert (K2 : ((t + s) * 100) * (1 + u53)
                 <= (E + d + C * (1 + 3 * u53)) * (1 + u53)).
    { apply Qmult_le_compat_r; [exact U1 | ]. unfold u53, Qle; simpl; lia. }
    nra.
Qed.

Lemma sum_Z_nonneg (cs : list Z) :
  Forall (fun c => (1 <= c)%Z) cs -> (0 <= sum_Z cs)%Z.
Proof.
  unfold sum_Z. induction 1 as [|c cs Hc _ IH]; cbn [fold_right]; lia.
Qed.

Lemma sum_decimals_bounds :
  forall (cs : list Z) (t d : Q) (e : Z),
    Forall (fun c => (1 <= c)%Z) cs ->
    (0 <= e)%Z -> (e + sum_Z cs <= decimal12)%Z ->
    0 <= t -> 0 <= d ->
    d + inject_Z (Z.of_nat (List.length cs)) * drift <= 1 # 2 ->
    inject_Z e - d <= t * 100 -> t * 100 <= inject_Z e + d ->
    0 <= sum_decimals cs t
    /\ inject_Z (e + sum_Z cs)
       - (d + inject_Z (Z.of_nat (List.length cs)) * drift)
       <= sum_decimals cs t * 100
    /\ sum_decimals cs t * 100
       <= inject_Z (e + sum_Z cs)
          + (d + inject_Z (Z.of_nat (List.length cs)) * drift).
Proof.
  induction cs as [|c cs IH]; intros t d e Hall He Hb Ht Hd Hdd Lo Hi.
  - cbn [sum_decimals fold_left sum_Z fold_right List.length Z.of_nat].
    rewrite Z.add_0_r. change (inject_Z 0) with 0. repeat split; lra.
  - inversion Hall as [|? ? Hc Hrest]; subst.
    pose proof (sum_Z_nonneg Hrest) as Hn.
    assert (Es : sum_Z (c :: cs) = (c + sum_Z cs)%Z) by reflexivity.
    rewrite Es in *.
    assert (Ec : inject_Z (Z.of_nat (List.length (c :: cs)))
                 == inject_Z (Z.of_nat (List.length cs)) + 1).
    { cbn [List.length]. rewrite Nat2Z.inj_succ. unfold Z.succ.
      rewrite inject_Z_plus. reflexivity. }
    rewrite Ec in *.
    assert (Hdr : 0 < drift) by reflexivity.
    assert (Hcn : 0 <= inject_Z (Z.of_nat (List.length cs)))
      by (change 0 with (inject_Z 0); rewrite <- Zle_Qle; lia).
    assert (Hd1 : d + drift <= 1 # 2) by nra.
    destruct (@add_decimal_step t d e c Hc He ltac:(lia) Ht Hd Hd1 Lo Hi)
      as (T0 & T1 & T2).
    change (sum_decimals (c :: cs) t)
      with (sum_decimals cs (add t (parseFloat_decimal c))).
    destruct (IH (add t (parseFloat_decimal c)) (d + drift) (e + c)%Z Hrest
                 ltac:(lia) ltac:(lia) T0 ltac:(lra) ltac:(nra) T1 T2)
      as (R0 & R1 & R2).
    replace (e + (c + sum_Z cs))%Z with (e + c + sum_Z cs)%Z by lia.
    repeat split; [exact R0 | nra | nra].
Qed.

(** Up to 1000 amounts of at least one cent whose sum fits DECIMAL(12,2)
    are added without loss: the text of [toFixed(2)] is their exact sum. *)
Lemma sum_decimals_exact (cs : list Z) :
  Forall (fun c => (1 <= c)%Z) cs ->
  (sum_Z cs <= decimal12)%Z ->
  (List.length cs <= max_lines)%nat ->
  toFixed2 (sum_decimals cs 0) = sum_Z cs.
Proof.
  intros Hall Hb Hlen.
  assert (Hc : inject_Z (Z.of_nat (List.length cs)) <= 1000).
  { change 1000 with (inject_Z 1000). rewrite <- Zle_Qle.
    unfold max_lines in Hlen. lia. }
  assert (Hc0 : 0 <= inject_Z (Z.of_nat (List.length cs)))
    by (change 0 with (inject_Z 0); rewrite <- Zle_Qle; lia).
  assert (H49 : 1000 * drift <= 49 # 100) by (unfold Qle; simpl; lia).
  assert (Hdr : 0 < drift) by reflexivity.
  destruct (@sum_decimals_bounds cs 0 0 0%Z Hall ltac:(lia) ltac:(lia)
              ltac:(lra) ltac:(lra)) as (T0 & T1 & T2).
  - nra.
  - change (inject_Z 0) with 0. lra.
  - change (inject_Z 0) with 0. lra.
  - cbn [Z.add] in T1, T2.
    apply toFixed2_near; [exact T0 | nra | nra].
Qed.

End TotalsFacts.

(* ================================================================== *)
(** * GET /api/purchases/history *)
(* ================================================================== *)

Lemma filter_or_disjoint {A} (f g : A -> bool) (l : list A) :
  (forall x, In x l -> f x = true -> g x = false) ->
  Permutation (filter (fun x => f x || g x)%bool l)
              (filter f l ++ filter g l).
Proof.
  induction l as [|a l IH]; intros H; [constructor|]. cbn [filter].
  assert (IH' : Permutation (filter (fun x => f x || g x)%bool l)
                            (filter f l ++ filter g l))
    by (apply IH; intros x Hx; apply H; now right).
  destruct (f a) eqn:Ef.
  - rewrite (H a (or_introl eq_refl) Ef). cbn [orb List.app].
    now constructor.
  - cbn [orb]. destruct (g a); [|exact IH'].
    rewrite IH'. apply Permutation_middle.
Qed.

Lemma lines_of_purchases (ds : list PurchaseDetail.t) :
  forall l : list Purchase.t,
    NoDup (map Purchase.id l) ->
    Permutation
      (flat_map (fun p => filter (fun d => PurchaseDetail.purchase_id d
                                           =? Purchase.id p) ds) l)
      (filter (fun d => existsb (fun p => Purchase.id p
                                          =? PurchaseDetail.purchase_id d) l)
              ds).
Proof.
  induction l as [|p l IH]; intros Hnd.
  - cbn [flat_map existsb]. induction ds as [|d ds IHd]; [constructor|].
    exact IHd.
  - inversion Hnd as [|? ? Hn Hd]; subst. cbn [flat_map existsb].
    rewrite (IH Hd). symmetry.
    rewrite (filter_ext (fun d => (Purchase.id p
                                   =? PurchaseDetail.purchase_id d)
                                  || existsb _ l)%bool
                        (fun d => (PurchaseDetail.purchase_id d
                                   =? Purchase.id p)
                                  || existsb
                                       (fun q => Purchase.id q
                                                 =? PurchaseDetail.purchase_id d)
                                       l)%bool)
      by (intros d; now rewrite Z.eqb_sym).
    apply filter_or_disjoint. intros d _ E.
    apply Z.eqb_eq in E.
    destruct (existsb _ l) eqn:Ex; [|reflexivity].
    apply existsb_exists in Ex as (q & Hq & Eq). apply Z.eqb_eq in Eq.
    exfalso. apply Hn. rewrite <- E, <- Eq. now apply in_map.
Qed.

Lemma sum_Z_Permutation (a b : list Z) :
  Permutation a b -> sum_Z a = sum_Z b.
Proof.
  unfold sum_Z. induction 1; cbn [fold_right]; lia.
Qed.

Lemma sum_totals_decimals (views : list PurchaseView) :
  sum_totals views
  = sum_decimals (map (fun v => Purchase.total (pv_purchase v)) views) 0%Q.
Proof.
  unfold sum_totals, sum_decimals. generalize 0%Q.
  induction views as [|v views IH]; intros t; [reflexivity|].
  cbn [fold_left map]. apply IH.
Qed.

Section History.

Variable env : Env.

Lemma history_answer (user : User.t) (w : World) :
  is_cliente user = true ->
  reply (get_history env user) w =
  match store_fault env (store_calls w) with
  | Some e => (Plain (Next (StoreRejected e)), logged EvSelectPurchase w)
  | None =>
      let purchases :=
        map (view false (persisted w))
            (order_desc (own (User.id user) (persisted w))) in
      (Data (History.mk (history_entries purchases)
               (History.mkSummary
                  (Z.of_nat (List.length purchases))
                  (Z.of_nat (List.length (history_entries purchases)))
                  (JsNumber.toFixed2 (sum_totals purchases)))),
       logged EvSelectPurchase w)
  end.
Proof.
  intros Hc. unfold reply, get_history, authorize_for.
  unfold is_cliente in Hc. cbn [existsb]. rewrite Hc. cbn [orb].
  unfold history, try_catch, bind, Purchase_findAll_of_user.
  rewrite read_persisted_run.
  destruct (store_fault env (store_calls w)); reflexivity.
Qed.

Lemma history_lines (db : DB) (l : list Purchase.t) :
  map entry_line (history_entries (map (view false db) l))
  = map (detail_line db)
        (flat_map (fun p => filter (fun d => PurchaseDetail.purchase_id d
                                             =? Purchase.id p)
                                   (purchase_details db)) l).
Proof.
  unfold history_entries.
  induction l as [|p l IH]; [reflexivity|].
  cbn [map flat_map]. rewrite !map_app, IH. f_equal.
  cbn [view pv_details pv_purchase]. unfold details_of.
  rewrite !map_map. apply map_ext_in. intros d Hd.
  apply filter_In in Hd as [_ Hd]. apply Z.eqb_eq in Hd.
  unfold entry_line, detail_line. cbn. now rewrite Hd.
Qed.

(** X20. The history of a client shows the lines of the client's purchases,
    each of them once and no other, and counts them: [total_compras] is
    the number of the client's purchases, [total_productos] the number of
    their lines. *)
Theorem history_shows_own_lines (user : User.t) (w : World) :
  is_cliente user = true ->
  store_fault env (store_calls w) = None ->
  NoDup (map Purchase.id (purchases (persisted w))) ->
  let db := persisted w in
  exists h,
    fst (reply (get_history env user) w) = Data h
    /\ Permutation (map entry_line (History.data h))
                   (map (detail_line db) (own_details (User.id user) db))
    /\ History.total_compras (History.summary h)
       = Z.of_nat (List.length (own (User.id user) db))
    /\ History.total_productos (History.summary h)
       = Z.of_nat (List.length (own_details (User.id user) db)).
Proof.
  intros Hc Hf Hnd db. rewrite (history_answer _ _ Hc), Hf. cbv zeta.
  eexists. split; [reflexivity|]. cbn [fst History.data History.summary
    History.total_compras History.total_productos].
  fold db.
  assert (P : Permutation
                (map entry_line
                   (history_entries
                      (map (view false db)
                           (order_desc (own (User.id user) db)))))
                (map (detail_line db) (own_details (User.id user) db))).
  { rewrite history_lines. apply Permutation_map.
    rewrite <- (Permutation_flat_map _
                  (Permutation_order_desc (own (User.id user) db))).
    unfold own_details. apply lines_of_purchases.
    unfold own. now apply NoDup_map_filter. }
  split; [exact P|]. split.
  - now rewrite length_map, length_order_desc.
  - apply Permutation_length in P. rewrite !length_map in P. now rewrite P.
Qed.

(** X21. [total_gastado] is the exact sum of the totals of the client's
    purchases, when they are at most 1000, of at least one cent each, and
    their sum fits DECIMAL(12,2). *)
Theorem history_total_exact (user : User.t) (w : World) :
  is_cliente user = true ->
  store_fault env (store_calls w) = None ->
  let totals := map Purchase.total (own (User.id user) (persisted w)) in
  Forall (fun c => 1 <= c) totals ->
  sum_Z totals <= decimal12 ->
  (List.length totals <= max_lines)%nat ->
  exists h,
    fst (reply (get_history env user) w) = Data h
    /\ History.total_gastado (History.summary h) = sum_Z totals.
Proof.
  intros Hc Hf totals Hall Hsum Hlen.
  rewrite (history_answer _ _ Hc), Hf. cbv zeta.
  eexists. split; [reflexivity|].
  cbn [fst History.summary History.total_gastado].
  rewrite sum_totals_decimals, map_map. cbn [view pv_purchase].
  assert (P : Permutation
                (map Purchase.total
                     (order_desc (own (User.id user) (persisted w))))
                totals).
  { apply Permutation_map. symmetry. apply Permutation_order_desc. }
  rewrite <- (sum_Z_Permutation P).
  apply TotalsFacts.sum_decimals_exact.
  - apply (Permutation_Forall (Permutation_sym P)). exact Hall.
  - now rewrite (sum_Z_Permutation P).
  - now rewrite (Permutation_length P).
Qed.

End History.

(* ================================================================== *)
(** * Integers held by JavaScript numbers *)
(* ================================================================== *)

Module IntegerFacts.
Import JsNumber JsNumberFacts.
Local Open Scope Q_scope.

Lemma pow2_le (a b : Z) : (a <= b)%Z -> 2 ^ a <= 2 ^ b.
Proof.
  intros H. replace b with (a + (b - a))%Z by lia.
  rewrite Qpower_plus by discriminate.
  assert (H1 : 1 <= 2 ^ (b - a)).
  { rewrite <- pow2_Z by lia. change 1 with (inject_Z 1).
    rewrite <- Zle_Qle.
    pose proof (Z.pow_pos_nonneg 2 (b - a) ltac:(lia) ltac:(lia)). lia. }
  pose proof (pow2_pos a). nra.
Qed.

Lemma ilog2_below (x : Q) (k : Z) : 0 < x -> x < 2 ^ k -> (ilog2 x < k)%Z.
Proof.
  intros Hx Hk. destruct (Z_lt_le_dec (ilog2 x) k) as [H|H]; [exact H|].
  pose proof (@pow2_le k (ilog2 x) H). pose proof (@ilog2_le x Hx). lra.
Qed.

Lemma rne_integer (y : Q) (m : Z) : y == inject_Z m -> rne y = m.
Proof.
  intros Hy. destruct (rne_bounds y) as [B1 B2].
  assert (L : inject_Z (rne y) < inject_Z (m + 1)).
  { rewrite inject_Z_plus. change (inject_Z 1) with 1. lra. }
  assert (U : inject_Z (m - 1) < inject_Z (rne y)).
  { unfold Z.sub. rewrite inject_Z_plus.
    change (inject_Z (Z.opp 1)) with (Qopp 1). lra. }
  rewrite <- Zlt_Qlt in L, U. lia.
Qed.

Lemma round53_integer (x : Q) (n : Z) :
  x == inject_Z n -> (0 < n < 2 ^ 53)%Z -> round53 x == inject_Z n.
Proof.
  intros Hx Hn. unfold round53.
  assert (Hpos : 0 < x).
  { rewrite Hx. change 0 with (inject_Z 0). rewrite <- Zlt_Qlt. lia. }
  assert (Hlt : x < 2 ^ 53).
  { rewrite Hx. rewrite <- (pow2_Z (n:=53%Z)) by lia.
    rewrite <- Zlt_Qlt. lia. }
  pose proof (@ilog2_below x 53 Hpos Hlt) as Hl.
  set (e := (ilog2 x - 52)%Z) in *.
  assert (He : (e <= 0)%Z) by (unfold e; lia).
  assert (Hk : 2 ^ e * inject_Z (2 ^ (- e)) == 1).
  { rewrite pow2_Z by lia. rewrite <- Qpower_plus by discriminate.
    replace (e + - e)%Z with 0%Z by lia. reflexivity. }
  pose proof (pow2_pos e) as Hpe.
  assert (Hy : x / 2 ^ e == inject_Z (n * 2 ^ (- e))).
  { rewrite inject_Z_mult, Hx.
    apply Qeq_trans with (inject_Z n * (2 ^ e * inject_Z (2 ^ (- e))) / 2 ^ e);
      [rewrite Hk; field; lra | field; lra]. }
  rewrite (@rne_integer _ _ Hy), inject_Z_mult.
  apply Qeq_trans with (inject_Z n * (2 ^ e * inject_Z (2 ^ (- e))));
    [ring | rewrite Hk; ring].
Qed.

Lemma Qred_inject_Z (n : Z) : Qred (inject_Z n) = inject_Z n.
Proof.
  unfold Qred, inject_Z.
  pose proof (Z.ggcd_gcd n 1) as Hg.
  pose proof (Z.ggcd_correct_divisors n 1) as Hd.
  destruct (Z.ggcd n 1) as [g [a b]]. cbn [fst snd] in *.
  rewrite Z.gcd_1_r in Hg. subst g. destruct Hd as [Ha Hb].
  replace a with n by lia. replace b with 1%Z by lia. reflexivity.
Qed.

(** A number that is an integer of 0 .. 2^53 - 1 is a JavaScript number. *)
Lemma fl_integer (x : Q) (n : Z) :
  x == inject_Z n -> (0 <= n < 2 ^ 53)%Z -> fl x = inject_Z n.
Proof.
  intros Hx Hn. destruct (Z.eq_dec n 0) as [->|Hz].
  - now rewrite (fl_zero Hx).
  - unfold fl.
    assert (Hpos : 0 < x).
    { rewrite Hx. change 0 with (inject_Z 0). rewrite <- Zlt_Qlt. lia. }
    apply Qgt_alt in Hpos. rewrite Hpos.
    rewrite <- (Qred_inject_Z n). apply Qred_complete.
    apply round53_integer; [exact Hx | lia].
Qed.

Lemma add_integers (a b : Z) :
  (0 <= a)%Z -> (0 <= b)%Z -> (a + b < 2 ^ 53)%Z ->
  add (inject_Z a) (inject_Z b) = inject_Z (a + b).
Proof.
  intros Ha Hb Hs. unfold add. apply fl_integer; [|lia].
  now rewrite inject_Z_plus.
Qed.

End IntegerFacts.

(* ================================================================== *)
(** * The sales report *)
(* ================================================================== *)

(** ** Objects with integer keys *)

Section Objects.

Variable V : Type.
Implicit Types (o : list (Z * V)) (k j : Z) (v : V).

Lemma obj_get_set_same k v o : obj_get k (obj_set k v o) = Some v.
Proof.
  induction o as [|[k' v'] o IH]; cbn [obj_set obj_get].
  - now rewrite Z.eqb_refl.
  - destruct (k' =? k) eqn:E.
    + cbn [obj_get]. now rewrite Z.eqb_refl.
    + destruct (is_index k && _)%bool; cbn [obj_get].
      * now rewrite Z.eqb_refl.
      * now rewrite E.
Qed.

Lemma obj_get_set_other k j v o :
  k <> j -> obj_get j (obj_set k v o) = obj_get j o.
Proof.
  intros Hkj. assert (Hk : (k =? j) = false) by now apply Z.eqb_neq.
  induction o as [|[k' v'] o IH]; cbn [obj_set obj_get].
  - now rewrite Hk.
  - destruct (k' =? k) eqn:E.
    + apply Z.eqb_eq in E. subst k'. cbn [obj_get]. now rewrite Hk.
    + destruct (is_index k && _)%bool; cbn [obj_get].
      * now rewrite Hk.
      * now rewrite IH.
Qed.

Lemma obj_get_Some_In k v o : obj_get k o = Some v -> In (k, v) o.
Proof.
  induction o as [|[k' v'] o IH]; cbn [obj_get]; [discriminate|].
  destruct (k' =? k) eqn:E.
  - apply Z.eqb_eq in E. intros [= ->]. subst. now left.
  - intros H. right. now apply IH.
Qed.

Lemma In_obj_get k v o :
  NoDup (map fst o) -> In (k, v) o -> obj_get k o = Some v.
Proof.
  induction o as [|[k' v'] o IH]; cbn [obj_get map fst]; [easy|].
  intros Hnd [H|H].
  - injection H as -> ->. now rewrite Z.eqb_refl.
  - inversion Hnd as [|? ? Hn Hnd']; subst.
    destruct (k' =? k) eqn:E; [|now apply IH].
    apply Z.eqb_eq in E. subst k'. exfalso. apply Hn.
    change k with (fst (k, v)). now apply in_map.
Qed.

Lemma obj_set_In k v o (x : Z * V) :
  In x (obj_set k v o) -> x = (k, v) \/ In x o.
Proof.
  induction o as [|[k' v'] o IH]; cbn [obj_set].
  - intros [H|[]]. now left.
  - destruct (k' =? k).
    + intros [H|H]; [now left | right; now right].
    + destruct (is_index k && _)%bool.
      * intros [H|H]; [now left | now right].
      * intros [H|H]; [right; now left|].
        destruct (IH H) as [H'|H']; [now left | right; now right].
Qed.

Lemma js_ordered_NoDup (keys : list Z) : js_ordered keys -> NoDup keys.
Proof.
  induction keys as [|k keys IH]; cbn [js_ordered]; [constructor|].
  intros [H1 H2]. constructor; [|now apply IH].
  intros Hin. now destruct (H1 k Hin).
Qed.

Lemma obj_set_ordered k v o :
  js_ordered (map fst o) -> js_ordered (map fst (obj_set k v o)).
Proof.
  induction o as [|[k' v'] o IH]; cbn [obj_set map fst js_ordered].
  - intros _. split; [intros ? []|exact I].
  - intros [H1 H2]. destruct (k' =? k) eqn:E.
    + apply Z.eqb_eq in E. subst k'. cbn [map fst js_ordered]. now split.
    + apply Z.eqb_neq in E.
      destruct (is_index k && _)%bool eqn:C; cbn [map fst js_ordered].
      * apply andb_true_iff in C as [Ck C].
        split; [|now split].
        intros j [<-|Hj].
        -- split; [congruence|]. intros Hi. split; [exact Ck|].
           rewrite Hi in C. cbn in C. apply Z.ltb_lt in C. exact C.
        -- destruct (H1 j Hj) as [Hne Hidx].
           destruct (is_index j) eqn:Ij.
           ++ destruct (Hidx eq_refl) as [Ik' Hlt].
              rewrite Ik' in C. cbn in C. apply Z.ltb_lt in C.
              split; [lia|]. intros _. split; [exact Ck | lia].
           ++ split; [|discriminate]. intros ->. congruence.
      * split; [|now apply IH].
        intros j Hj. apply in_map_iff in Hj as [[j' x] [Hx Hj]].
        cbn [fst] in Hx. subst j'.
        destruct (obj_set_In _ _ _ _ Hj) as [Hj'|Hj'].
        -- injection Hj' as -> ->. split; [exact E|].
           intros Ik. rewrite Ik in C. cbn [andb] in C.
           apply orb_false_iff in C as [C1 C2].
           apply negb_false_iff in C1. apply Z.ltb_ge in C2.
           split; [exact C1 | lia].
        -- apply H1. change j with (fst (j, x)). now apply in_map.
Qed.

End Objects.

(** ** The tally *)

Lemma record_sale_get (o : list (Z * Sales.vendido)) (d : PurchaseDetail.t)
    (product : ProductAttrs) (j : Z) :
  obj_get j (record_sale o d product)
  = if pa_id product =? j then
      Some (bump (match obj_get j o with
                  | Some v => v
                  | None => Sales.mkVendido product 0 0 0
                  end) d)
    else obj_get j o.
Proof.
  unfold record_sale. set (k := pa_id product).
  destruct (obj_get k o) as [v0|] eqn:G.
  - rewrite G. destruct (k =? j) eqn:E.
    + apply Z.eqb_eq in E. subst j. now rewrite obj_get_set_same, G.
    + apply Z.eqb_neq in E. now rewrite obj_get_set_other.
  - rewrite obj_get_set_same. destruct (k =? j) eqn:E.
    + apply Z.eqb_eq in E. subst j. now rewrite obj_get_set_same, G.
    + apply Z.eqb_neq in E. now rewrite !obj_get_set_other.
Qed.

Lemma record_sale_keys (o : list (Z * Sales.vendido)) (d : PurchaseDetail.t)
    (product : ProductAttrs) :
  js_ordered (map fst o) ->
  Forall (fun kv => pa_id (Sales.producto (snd kv)) = fst kv) o ->
  js_ordered (map fst (record_sale o d product))
  /\ Forall (fun kv => pa_id (Sales.producto (snd kv)) = fst kv)
            (record_sale o d product).
Proof.
  intros Ho Hk. unfold record_sale. cbv zeta. set (k := pa_id product).
  assert (Step : forall o1 v,
             js_ordered (map fst o1) ->
             Forall (fun kv => pa_id (Sales.producto (snd kv)) = fst kv) o1 ->
             pa_id (Sales.producto v) = k ->
             js_ordered (map fst (obj_set k v o1))
             /\ Forall (fun kv => pa_id (Sales.producto (snd kv)) = fst kv)
                       (obj_set k v o1)).
  { intros o1 v H1 H2 H3. split; [now apply obj_set_ordered|].
    apply Forall_forall. intros x Hx.
    destruct (obj_set_In _ _ _ _ Hx) as [->|Hx']; [exact H3|].
    exact (proj1 (Forall_forall _ _) H2 _ Hx'). }
  assert (Keep : forall o1,
             js_ordered (map fst o1) ->
             Forall (fun kv => pa_id (Sales.producto (snd kv)) = fst kv) o1 ->
             js_ordered
               (map fst
                  match obj_get k o1 with
                  | Some v =>
                      obj_set k (bump v d) o1
                  | None => o1
                  end)
             /\ Forall (fun kv => pa_id (Sales.producto (snd kv)) = fst kv)
                  match obj_get k o1 with
                  | Some v => obj_set k (bump v d) o1
                  | None => o1
                  end).
  { intros o1 H1 H2. destruct (obj_get k o1) as [v|] eqn:G; [|now split].
    apply Step; [exact H1 | exact H2 |].
    apply obj_get_Some_In in G.
    exact (proj1 (Forall_forall _ _) H2 _ G). }
  destruct (obj_get k o) as [v0|] eqn:G.
  - cbv beta iota. now apply Keep.
  - cbv beta iota. destruct (Step o (Sales.mkVendido product 0 0 0) Ho Hk eq_refl)
      as [S1 S2].
    now apply Keep.
Qed.

Lemma tally_keys (lines : list (PurchaseDetail.t * option ProductAttrs)) :
  forall o o',
    js_ordered (map fst o) ->
    Forall (fun kv => pa_id (Sales.producto (snd kv)) = fst kv) o ->
    tally lines o = Some o' ->
    js_ordered (map fst o')
    /\ Forall (fun kv => pa_id (Sales.producto (snd kv)) = fst kv) o'.
Proof.
  induction lines as [|[d [product|]] lines IH]; intros o o' Ho Hk;
    cbn [tally].
  - intros [= <-]. now split.
  - intros H. destruct (record_sale_keys d product Ho Hk) as [R1 R2].
    exact (IH _ _ R1 R2 H).
  - discriminate.
Qed.

Lemma tally_get (j : Z)
    (lines : list (PurchaseDetail.t * option ProductAttrs)) :
  forall o o',
    tally lines o = Some o' ->
    obj_get j o' = entry_after j lines (obj_get j o).
Proof.
  unfold entry_after.
  induction lines as [|[d [product|]] lines IH]; intros o o'; cbn [tally].
  - now intros [= <-].
  - intros H. rewrite (IH _ _ H), record_sale_get. reflexivity.
  - discriminate.
Qed.

Lemma tally_None (lines : list (PurchaseDetail.t * option ProductAttrs)) :
  forall o, tally lines o = None <-> exists d, In (d, None) lines.
Proof.
  induction lines as [|[d [product|]] lines IH]; intros o; cbn [tally].
  - split; [discriminate | intros [? []]].
  - rewrite IH. split.
    + intros [d' H]. exists d'. now right.
    + intros [d' [H|H]]; [discriminate | now exists d'].
  - split; [|reflexivity]. intros _. exists d. now left.
Qed.

Lemma entry_after_Some (k : Z)
    (lines : list (PurchaseDetail.t * option ProductAttrs)) :
  forall v,
    entry_after k lines (Some v)
    = Some (fold_left bump (lines_of_product k lines) v).
Proof.
  unfold entry_after, lines_of_product.
  induction lines as [|[d [product|]] lines IH]; intros v;
    cbn [fold_left filter map fst snd]; [reflexivity| |apply IH].
  destruct (pa_id product =? k); [|apply IH].
  cbn [map fst fold_left]. apply IH.
Qed.

Lemma entry_after_None (k : Z)
    (lines : list (PurchaseDetail.t * option ProductAttrs))
    (v : Sales.vendido) :
  entry_after k lines None = Some v ->
  exists product,
    pa_id product = k
    /\ lines_of_product k lines <> []
    /\ v = fold_left bump (lines_of_product k lines)
                     (Sales.mkVendido product 0 0 0).
Proof.
  induction lines as [|[d [product|]] lines IH].
  - discriminate.
  - unfold entry_after, lines_of_product in *.
    cbn [fold_left filter map fst snd].
    destruct (pa_id product =? k) eqn:E; [|exact IH].
    intros H. exists product. apply Z.eqb_eq in E.
    split; [exact E|]. split; [discriminate|].
    pose proof (entry_after_Some k lines
                  (bump (Sales.mkVendido product 0 0 0) d)) as HS.
    unfold entry_after, lines_of_product in HS. rewrite HS in H.
    injection H as <-. reflexivity.
  - unfold entry_after, lines_of_product in *.
    cbn [fold_left filter map fst snd]. exact IH.
Qed.

(** ** The sums of a tally *)

Lemma bump_producto (ds : list PurchaseDetail.t) :
  forall v, Sales.producto (fold_left bump ds v) = Sales.producto v.
Proof.
  induction ds as [|d ds IH]; intros v; cbn [fold_left]; [reflexivity|].
  now rewrite IH.
Qed.

Lemma bump_cantidad_total (ds : list PurchaseDetail.t) :
  forall v (s : Z),
    Sales.cantidad_total v = inject_Z s -> 0 <= s ->
    Forall (fun d => 0 <= PurchaseDetail.cantidad d) ds ->
    s + sum_Z (map PurchaseDetail.cantidad ds) < max_safe ->
    Sales.cantidad_total (fold_left bump ds v)
    = inject_Z (s + sum_Z (map PurchaseDetail.cantidad ds)).
Proof.
  unfold sum_Z, max_safe.
  induction ds as [|d ds IH]; intros v s Hv Hs Hall Hb;
    cbn [fold_left map fold_right] in *.
  - now rewrite Z.add_0_r.
  - inversion Hall as [|? ? Hd Hall']; subst.
    assert (N : 0 <= fold_right Z.add 0 (map PurchaseDetail.cantidad ds)).
    { clear -Hall'. induction Hall' as [|? ? ? ? IH'];
        cbn [map fold_right]; lia. }
    rewrite (IH (bump v d) (s + PurchaseDetail.cantidad d)); try lia.
    + f_equal. lia.
    + cbn [bump Sales.cantidad_total]. rewrite Hv.
      apply IntegerFacts.add_integers; lia.
    + exact Hall'.
Qed.

Lemma bump_veces_vendido (ds : list PurchaseDetail.t) :
  forall v (s : Z),
    Sales.veces_vendido v = inject_Z s -> 0 <= s ->
    s + Z.of_nat (List.length ds) < max_safe ->
    Sales.veces_vendido (fold_left bump ds v)
    = inject_Z (s + Z.of_nat (List.length ds)).
Proof.
  unfold max_safe.
  induction ds as [|d ds IH]; intros v s Hv Hs Hb;
    cbn [fold_left List.length] in *.
  - now rewrite Z.add_0_r.
  - rewrite (IH (bump v d) (s + 1)); try lia.
    + f_equal. lia.
    + cbn [bump Sales.veces_vendido]. rewrite Hv.
      change 1%Q with (inject_Z 1).
      apply IntegerFacts.add_integers; lia.
Qed.

Lemma bump_ingresos_total (ds : list PurchaseDetail.t) :
  forall v,
    Sales.ingresos_total (fold_left bump ds v)
    = sum_decimals (map PurchaseDetail.subtotal ds) (Sales.ingresos_total v).
Proof.
  unfold sum_decimals.
  induction ds as [|d ds IH]; intros v; cbn [fold_left map]; [reflexivity|].
  now rewrite IH.
Qed.

Lemma length_le_sum (ds : list PurchaseDetail.t) :
  Forall (fun d => 1 <= PurchaseDetail.cantidad d) ds ->
  Z.of_nat (List.length ds) <= sum_Z (map PurchaseDetail.cantidad ds).
Proof.
  unfold sum_Z. induction 1 as [|d ds Hd _ IH];
    cbn [List.length map fold_right]; lia.
Qed.

(** ** The ranking *)

Lemma Permutation_insert_top (a : Sales.vendido) (l : list Sales.vendido) :
  Permutation (a :: l) (insert_top a l).
Proof.
  induction l as [|b l IH]; cbn [insert_top]; [reflexivity|].
  destruct (Qltb _ _); [|reflexivity].
  rewrite perm_swap. now constructor.
Qed.

Lemma Permutation_sort_top (l : list Sales.vendido) :
  Permutation l (sort_top l).
Proof.
  induction l as [|a l IH]; cbn [sort_top fold_right]; [constructor|].
  rewrite <- Permutation_insert_top. now constructor.
Qed.



Lemma In_firstn_list {A} (n : nat) (l : list A) (x : A) :
  In x (firstn n l) -> In x l.
Proof.
  intros H. rewrite <- (firstn_skipn n l). apply in_or_app. now left.
Qed.





(** ** The purchases of the report *)

Lemma Permutation_insert_by_fecha (p : Purchase.t) (l : list Purchase.t) :
  Permutation (p :: l) (insert_by_fecha p l).
Proof.
  induction l as [|q l IH]; cbn [insert_by_fecha]; [reflexivity|].
  destruct (_ <=? _); [reflexivity|].
  rewrite perm_swap. now constructor.
Qed.

Lemma Permutation_order_by_fecha (l : list Purchase.t) :
  Permutation l (order_by_fecha l).
Proof.
  induction l as [|p l IH]; cbn [order_by_fecha fold_right]; [constructor|].
  rewrite <- Permutation_insert_by_fecha. now constructor.
Qed.

Lemma descending_insert_by_fecha (p : Purchase.t) (l : list Purchase.t) :
  descending (map Purchase.fecha_compra l) ->
  descending (map Purchase.fecha_compra (insert_by_fecha p l)).
Proof.
  induction l as [|q l IH]; cbn [insert_by_fecha map descending].
  - intros _. split; [constructor | exact I].
  - intros [Hq Hl]. destruct (_ <=? _) eqn:E; cbn [map descending].
    + apply Z.leb_le in E. split; [|split; assumption].
      constructor; [lia|]. apply Forall_forall. intros y Hy.
      pose proof (proj1 (Forall_forall _ _) Hq y Hy) as H. cbv beta in H. lia.
    + apply Z.leb_gt in E. split; [|now apply IH].
      rewrite Forall_map in *.
      apply (Permutation_Forall (Permutation_insert_by_fecha p l)).
      constructor; [lia | exact Hq].
Qed.

Lemma descending_order_by_fecha (l : list Purchase.t) :
  descending (map Purchase.fecha_compra (order_by_fecha l)).
Proof.
  induction l as [|p l IH]; cbn [order_by_fecha fold_right map descending];
    [exact I|].
  now apply descending_insert_by_fecha.
Qed.

Lemma product_attrs_None (db : DB) (pid : Z) :
  product_attrs db pid = None <-> ~ In pid (map Product.id (products db)).
Proof.
  unfold product_attrs. generalize (products db) as ps.
  induction ps as [|p ps IH]; cbn [find map In option_map].
  - tauto.
  - destruct (Product.id p =? pid) eqn:E.
    + apply Z.eqb_eq in E. cbn [option_map]. split; [discriminate|].
      intros H. exfalso. apply H. now left.
    + apply Z.eqb_neq in E. rewrite IH. tauto.
Qed.

Lemma lines_dangling (db : DB) (ps : list Purchase.t) :
  (exists d, In (d, None) (flat_map pv_details (map (view true db) ps)))
  <-> exists p d, In p ps /\ dangling_line db p d.
Proof.
  unfold dangling_line. split.
  - intros [d H]. apply in_flat_map in H as [x [Hx Hd]].
    apply in_map_iff in Hx as [p [<- Hp]].
    cbn [view pv_details] in Hd. unfold details_of in Hd.
    apply in_map_iff in Hd as [d0 [Hd0 Hin]].
    injection Hd0 as -> Hn. apply filter_In in Hin as [Hin Hid].
    apply Z.eqb_eq in Hid. apply product_attrs_None in Hn.
    now exists p, d.
  - intros [p [d [Hp [Hin [Hid Hn]]]]]. exists d.
    apply in_flat_map. exists (view true db p).
    split; [now apply in_map|].
    cbn [view pv_details]. unfold details_of. apply in_map_iff.
    exists d. split.
    + f_equal. now apply product_attrs_None.
    + apply filter_In. split; [exact Hin | now apply Z.eqb_eq].
Qed.

Section Sales.

Variable env : Env.
Variables on_or_after on_or_before : string -> Z -> bool.

Lemma sales_answer (user : User.t) (startDate endDate : option string)
    (w : World) :
  is_admin user = true ->
  reply (get_sales env on_or_after on_or_before user startDate endDate) w =
  match store_fault env (store_calls w) with
  | Some e => (Plain (Next (StoreRejected e)), logged EvSelectPurchase w)
  | None =>
      let purchases :=
        map (view true (persisted w))
            (order_by_fecha
               (in_range on_or_after on_or_before startDate endDate
                         (persisted w))) in
      match tally (flat_map pv_details purchases) [] with
      | None => (Plain (Next TypeError), logged EvSelectPurchase w)
      | Some productosVendidos =>
          (Data
             (Sales.mk
                (Sales.mkResumen
                   (JsNumber.toFixed2 (sum_totals purchases))
                   (Z.of_nat (List.length purchases))
                   (Z.of_nat
                      (List.length
                         (nodup Z.eq_dec
                            (map (fun p => Purchase.user_id (pv_purchase p))
                                 purchases))))
                   (if 0 <? Z.of_nat (List.length purchases) then
                      JsNumber.toFixed2
                        (JsNumber.fl
                           (sum_totals purchases
                            / inject_Z (Z.of_nat (List.length purchases))))
                    else 0)
                   (match given startDate with
                    | Some s => s
                    | None => "Sin límite"
                    end)
                   (match given endDate with
                    | Some e => e
                    | None => "Sin límite"
                    end))
                (firstn 5 (sort_top (map snd productosVendidos)))
                purchases),
           logged EvSelectPurchase w)
      end
  end.
Proof.
  intros Ha. unfold reply, get_sales, adminOnly, authorize_for.
  unfold is_admin in Ha. cbn [existsb]. rewrite Ha. cbn [orb].
  unfold sales, try_catch, bind, Purchase_findAll_sold.
  rewrite read_persisted_run.
  destruct (store_fault env (store_calls w)); [reflexivity|].
  unfold in_range. cbv zeta.
  destruct (tally _ _); reflexivity.
Qed.

(** Whatever the role and the store, a report that is sent is made of the
    purchases of the range and of their tally. *)
Lemma sales_data (user : User.t) (startDate endDate : option string)
    (w : World) (report : Sales.t) :
  fst (reply (get_sales env on_or_after on_or_before user startDate endDate)
             w) = Data report ->
  Sales.compras report
  = map (view true (persisted w))
        (order_by_fecha
           (in_range on_or_after on_or_before startDate endDate
                     (persisted w)))
  /\ exists productosVendidos,
       tally (flat_map pv_details (Sales.compras report)) []
       = Some productosVendidos
       /\ Sales.top_productos report
          = firstn 5 (sort_top (map snd productosVendidos)).
Proof.
  destruct (is_admin user) eqn:Ha.
  - rewrite (sales_answer _ _ _ _ Ha).
    destruct (store_fault env (store_calls w)); [discriminate|].
    cbv zeta. destruct (tally _ _) as [pv|] eqn:T; [|discriminate].
    cbn [fst]. intros [= <-]. cbn [Sales.compras Sales.top_productos].
    split; [reflexivity|]. now exists pv.
  - unfold reply, get_sales, adminOnly, authorize_for.
    unfold is_admin in Ha. cbn [existsb]. rewrite Ha. cbn [orb].
    discriminate.
Qed.


Lemma sales_entry (user : User.t) (startDate endDate : option string)
    (w : World) (report : Sales.t) (v : Sales.vendido) :
  fst (reply (get_sales env on_or_after on_or_before user startDate endDate)
             w) = Data report ->
  In v (Sales.top_productos report) ->
  let sold := lines_of_product (pa_id (Sales.producto v))
                (flat_map pv_details (Sales.compras report)) in
  sold <> []
  /\ v = fold_left bump sold
                   (Sales.mkVendido (Sales.producto v) 0 0 0).
Proof.
  intros H Hv. destruct (sales_data _ _ _ _ H) as [_ [pv [T Htop]]].
  rewrite Htop in Hv. apply In_firstn_list in Hv.
  apply (Permutation_in _ (Permutation_sym (Permutation_sort_top _))) in Hv.
  apply in_map_iff in Hv as [[k v'] [Hv' Hin]]. cbn [snd] in Hv'. subst v'.
  destruct (@tally_keys _ [] pv I (Forall_nil _) T) as [K1 K2].
  apply js_ordered_NoDup in K1.
  pose proof (proj1 (Forall_forall _ _) K2 _ Hin) as Hk. cbn [fst snd] in Hk.
  pose proof (In_obj_get _ _ _ K1 Hin) as G.
  rewrite (tally_get k _ _ T) in G. cbn [obj_get] in G.
  destruct (entry_after_None _ _ G) as [product [Hp [Hne Hfold]]].
  rewrite Hk. cbv zeta. split; [exact Hne|].
  assert (Hprod : Sales.producto v = product).
  { rewrite Hfold at 1. now rewrite bump_producto. }
  now rewrite Hprod.
Qed.

(** X23. A product of the ranking is tallied from the lines of the purchases of
    the report that sold it: when each of these lines sold at least one
    unit and they sold fewer than 2^53 units together, [cantidad_total] is
    the number of units they sold, [veces_vendido] is their number, and
    [ingresos_total] is the running sum of their subtotals. *)
Theorem sales_units_counted (user : User.t)
    (startDate endDate : option string) (w : World) (report : Sales.t)
    (v : Sales.vendido) :
  fst (reply (get_sales env on_or_after on_or_before user startDate endDate)
             w) = Data report ->
  In v (Sales.top_productos report) ->
  let sold := lines_of_product (pa_id (Sales.producto v))
                (flat_map pv_details (Sales.compras report)) in
  Forall (fun d => 1 <= PurchaseDetail.cantidad d) sold ->
  sum_Z (map PurchaseDetail.cantidad sold) < max_safe ->
  sold <> []
  /\ Sales.cantidad_total v
     = inject_Z (sum_Z (map PurchaseDetail.cantidad sold))
  /\ Sales.veces_vendido v = inject_Z (Z.of_nat (List.length sold))
  /\ Sales.ingresos_total v
     = sum_decimals (map PurchaseDetail.subtotal sold) 0.
Proof.
  intros H Hv sold Hall Hb.
  destruct (sales_entry _ _ _ _ _ H Hv) as [Hne Hfold]. fold sold in Hne, Hfold.
  split; [exact Hne|].
  set (v0 := Sales.mkVendido (Sales.producto v) 0 0 0) in *.
  pose proof (length_le_sum Hall) as Hlen.
  split; [|split].
  - rewrite Hfold.
    rewrite (@bump_cantidad_total sold v0 0); [reflexivity | reflexivity | lia | | exact Hb].
    apply Forall_forall. intros d Hd.
    pose proof (proj1 (Forall_forall _ _) Hall d Hd) as H1. cbv beta in H1. lia.
  - rewrite Hfold.
    rewrite (@bump_veces_vendido sold v0 0); [reflexivity | reflexivity | lia | lia].
  - rewrite Hfold. now rewrite bump_ingresos_total.
Qed.

(** X24. The income of a product of the ranking, written with two decimals, is
    the exact sum of the subtotals of the lines that sold it, when these
    are at most 1000, of at least one cent each, and their sum fits
    DECIMAL(12,2). *)
Theorem sales_income_exact (user : User.t)
    (startDate endDate : option string) (w : World) (report : Sales.t)
    (v : Sales.vendido) :
  fst (reply (get_sales env on_or_after on_or_before user startDate endDate)
             w) = Data report ->
  In v (Sales.top_productos report) ->
  let subtotals :=
    map PurchaseDetail.subtotal
        (lines_of_product (pa_id (Sales.producto v))
           (flat_map pv_details (Sales.compras report))) in
  Forall (fun c => 1 <= c) subtotals ->
  sum_Z subtotals <= decimal12 ->
  (List.length subtotals <= max_lines)%nat ->
  JsNumber.toFixed2 (Sales.ingresos_total v) = sum_Z subtotals.
Proof.
  intros H Hv subtotals Hall Hsum Hlen.
  destruct (sales_entry _ _ _ _ _ H Hv) as [_ Hfold].
  rewrite Hfold, bump_ingresos_total. cbn [Sales.ingresos_total].
  now apply TotalsFacts.sum_decimals_exact.
Qed.

(** X25. For an administrator, when the store answers, the report fails with a
    TypeError exactly when a purchase of the range has a line whose product
    is not in the tables; otherwise the report is sent. *)
Theorem sales_fails_on_dangling_line (user : User.t)
    (startDate endDate : option string) (w : World) :
  is_admin user = true ->
  store_fault env (store_calls w) = None ->
  let db := persisted w in
  let answer :=
    fst (reply (get_sales env on_or_after on_or_before user startDate
                          endDate) w) in
  (answer = Plain (Next TypeError) \/ exists report, answer = Data report)
  /\ (answer = Plain (Next TypeError)
      <-> exists p d,
            In p (in_range on_or_after on_or_before startDate endDate db)
            /\ dangling_line db p d).
Proof.
  intros Ha Hf db answer. unfold answer.
  rewrite (sales_answer _ _ _ _ Ha), Hf. cbv zeta. fold db.
  pose proof (lines_dangling db
                (order_by_fecha
                   (in_range on_or_after on_or_before startDate endDate db)))
    as L.
  assert (P : (exists p d,
                  In p (order_by_fecha
                          (in_range on_or_after on_or_before startDate
                                    endDate db))
                  /\ dangling_line db p d)
              <-> exists p d,
                  In p (in_range on_or_after on_or_before startDate endDate
                                 db)
                  /\ dangling_line db p d).
  { split; intros [p [d [Hp Hd]]]; exists p, d; (split; [|exact Hd]).
    - exact (Permutation_in _
               (Permutation_sym (Permutation_order_by_fecha _)) Hp).
    - exact (Permutation_in _ (Permutation_order_by_fecha _) Hp). }
  rewrite <- P, <- L, <- (tally_None _ []).
  destruct (tally _ _) as [pv|]; cbn [fst].
  - split; [right; eexists; reflexivity|].
    split; discriminate.
  - split; [now left|]. split; reflexivity.
Qed.

Lemma sales_data_total (user : User.t) (startDate endDate : option string)
    (w : World) (report : Sales.t) :
  fst (reply (get_sales env on_or_after on_or_before user startDate endDate)
             w) = Data report ->
  Sales.total_ventas (Sales.resumen report)
  = JsNumber.toFixed2 (sum_totals (Sales.compras report)).
Proof.
  destruct (is_admin user) eqn:Ha.
  - rewrite (sales_answer _ _ _ _ Ha).
    destruct (store_fault env (store_calls w)); [discriminate|].
    cbv zeta. destruct (tally _ _) as [pv|] eqn:T; [|discriminate].
    cbn [fst]. now intros [= <-].
  - unfold reply, get_sales, adminOnly, authorize_for.
    unfold is_admin in Ha. cbn [existsb]. rewrite Ha. cbn [orb].
    discriminate.
Qed.

(** X26. [total_ventas] of a report is the exact sum of the totals of its
    purchases, when they are at most 1000, of at least one cent each, and
    their sum fits DECIMAL(12,2). *)
Theorem sales_total_exact (user : User.t)
    (startDate endDate : option string) (w : World) (report : Sales.t) :
  fst (reply (get_sales env on_or_after on_or_before user startDate endDate)
             w) = Data report ->
  let totals :=
    map Purchase.total
        (in_range on_or_after on_or_before startDate endDate (persisted w)) in
  Forall (fun c => 1 <= c) totals ->
  sum_Z totals <= decimal12 ->
  (List.length totals <= max_lines)%nat ->
  Sales.total_ventas (Sales.resumen report) = sum_Z totals.
Proof.
  intros H totals Hall Hsum Hlen.
  rewrite (sales_data_total _ _ _ _ H).
  destruct (sales_data _ _ _ _ H) as [-> _].
  rewrite sum_totals_decimals, map_map. cbn [view pv_purchase].
  assert (P : Permutation
                (map Purchase.total
                     (order_by_fecha
                        (in_range on_or_after on_or_before startDate endDate
                                  (persisted w))))
                totals).
  { apply Permutation_map. symmetry. apply Permutation_order_by_fecha. }
  rewrite <- (sum_Z_Permutation P).
  apply TotalsFacts.sum_decimals_exact.
  - apply (Permutation_Forall (Permutation_sym P)). exact Hall.
  - now rewrite (sum_Z_Permutation P).
  - now rewrite (Permutation_length P).
Qed.

(** X27. For an administrator, when the store answers and every line row
    refers to a product of the tables, the report is sent: it lists the
    purchases of the range, each once, the latest first, counts them and
    their distinct buyers, and for an empty range its totals are zero and
    its ranking is empty. *)
Theorem sales_summary (user : User.t) (startDate endDate : option string)
    (w : World) :
  is_admin user = true ->
  store_fault env (store_calls w) = None ->
  references_hold (persisted w) ->
  let sold :=
    in_range on_or_after on_or_before startDate endDate (persisted w) in
  exists report,
    fst (reply (get_sales env on_or_after on_or_before user startDate
                          endDate) w) = Data report
    /\ Permutation (map pv_purchase (Sales.compras report)) sold
    /\ descending (map Purchase.fecha_compra
                       (map pv_purchase (Sales.compras report)))
    /\ Sales.total_compras (Sales.resumen report)
       = Z.of_nat (List.length sold)
    /\ (exists buyers,
          NoDup buyers
          /\ (forall u, In u buyers
                        <-> exists p, In p sold /\ Purchase.user_id p = u)
          /\ Sales.clientes_unicos (Sales.resumen report)
             = Z.of_nat (List.length buyers))
    /\ (sold = [] ->
        Sales.total_ventas (Sales.resumen report) = 0
        /\ Sales.promedio_por_compra (Sales.resumen report) = 0
        /\ Sales.top_productos report = []).
Proof.
  intros Ha Hf Href sold.
  rewrite (sales_answer _ _ _ _ Ha), Hf. cbv zeta. fold sold.
  set (db := persisted w) in *.
  assert (Hv : map pv_purchase (map (view true db) (order_by_fecha sold))
               = order_by_fecha sold).
  { rewrite map_map. cbn [view pv_purchase]. apply map_id. }
  destruct (tally _ _) as [pv|] eqn:T.
  - eexists. split; [reflexivity|].
    cbn [fst Sales.compras Sales.resumen Sales.top_productos
         Sales.total_compras Sales.clientes_unicos Sales.total_ventas
         Sales.promedio_por_compra].
    rewrite Hv.
    split; [symmetry; apply Permutation_order_by_fecha|].
    split; [apply descending_order_by_fecha|].
    split.
    { rewrite length_map.
      now rewrite <- (Permutation_length (Permutation_order_by_fecha sold)). }
    split.
    { eexists. split; [apply NoDup_nodup|]. split; [|reflexivity].
      intros u. rewrite nodup_In, in_map_iff. split.
      - intros [x [Hu Hx]]. apply in_map_iff in Hx as [p [<- Hp]].
        exists p. split; [|exact Hu].
        exact (Permutation_in _
                 (Permutation_sym (Permutation_order_by_fecha _)) Hp).
      - intros [p [Hp Hu]]. exists (view true db p). split; [exact Hu|].
        apply in_map.
        exact (Permutation_in _ (Permutation_order_by_fecha _) Hp). }
    intros Hemp. rewrite Hemp in T |- *.
    cbn in T. injection T as <-. cbn. repeat split; reflexivity.
  - exfalso. apply tally_None in T. apply lines_dangling in T.
    destruct T as [p [d [_ [Hin [_ Hn]]]]]. apply Hn.
    exact (proj2 (proj1 (Forall_forall _ _) Href d Hin)).
Qed.

End Sales.

(** ** Roles *)

(** X28. A user who is not a client is refused by POST / and by GET /history,
    and one who is not an administrator by GET /admin/sales: the answer is
    403, and nothing is asked of the store, of the clock or of the random
    source. *)
Theorem wrong_role_forbidden (env : Env)
    (on_or_after on_or_before : string -> Z -> bool) (user : User.t)
    (body : RawBody) (startDate endDate : option string) (w : World) :
  let forbidden :=
    Json 403 (Failure "No tienes permisos para realizar esta acción" []) in
  (is_cliente user = false ->
   post_purchases env user body w = (Ok forbidden, w)
   /\ get_history env user w = (Ok (Plain forbidden), w))
  /\ (is_admin user = false ->
      get_sales env on_or_after on_or_before user startDate endDate w
      = (Ok (Plain forbidden), w)).
Proof.
  unfold is_cliente, is_admin, post_purchases, get_history, get_sales,
    clientOnly, adminOnly, authorize, authorize_for.
  cbn [existsb]. split.
  - intros ->. split; reflexivity.
  - intros ->. reflexivity.
Qed.

(* ================================================================== *)
(** * The further properties on the concrete tables *)
(* ================================================================== *)

Lemma env_half_unit_double (n : nat) :
  JsNumber.unit_double (Math_random env_half n).
Proof.
  unfold JsNumber.unit_double. cbn.
  split; [|split]; [unfold Qle; simpl; lia | reflexivity | reflexivity].
Qed.

Lemma db_example_stock_nonneg : stock_nonneg db_example.
Proof. repeat constructor; cbn; lia. Qed.

Lemma NoDup_two {A} (a b : A) : a <> b -> NoDup [a; b].
Proof.
  intros H. constructor; [intros [E|[]]; congruence|].
  constructor; [intros []|constructor].
Qed.

Lemma db_two_clients_keys : keys_unique db_two_clients.
Proof.
  unfold keys_unique. cbn.
  repeat split; apply NoDup_two; discriminate.
Qed.

Lemma db_two_clients_references : references_hold db_two_clients.
Proof.
  unfold references_hold. cbn.
  repeat apply Forall_cons; try apply Forall_nil; cbn; tauto.
Qed.

(** ** The purchase route *)

Lemma purchase_keeps_stock_nonneg_witness :
  stock_nonneg
    (persisted (snd (respond (create_purchase env_half cliente cart_example)
                             (initial_world db_example)))).
Proof.
  apply (@purchase_keeps_stock_nonneg env_half cliente cart_example
           (initial_world db_example)).
  exact db_example_stock_nonneg.
Defined.

Lemma purchase_keeps_keys_witness :
  keys_unique
    (persisted (snd (respond (create_purchase env_half otro cart_example)
                             (initial_world db_two_clients)))).
Proof.
  apply (@purchase_keeps_keys env_half otro cart_example
           (initial_world db_two_clients)).
  exact db_two_clients_keys.
Defined.

Lemma purchase_keeps_references_witness :
  references_hold
    (persisted (snd (respond (create_purchase env_half cliente cart_swapped)
                             (initial_world db_two_clients)))).
Proof.
  apply (@purchase_keeps_references env_half cliente cart_swapped
           (initial_world db_two_clients)).
  exact db_two_clients_references.
Defined.

Lemma purchase_conserves_units_witness :
  let db := db_two_clients in
  let db' :=
    persisted (snd (respond (create_purchase env_half cliente cart_example)
                            (initial_world db_two_clients))) in
  stock_of 1 db' + sold_of 1 db' = stock_of 1 db + sold_of 1 db
  /\ stock_of 1 db' <= stock_of 1 db.
Proof.
  apply (@purchase_conserves_units env_half cliente cart_example
           (initial_world db_two_clients) 1).
  cbn. apply NoDup_two. discriminate.
Defined.

Lemma unlockable_cart_not_found_witness :
  respond (create_purchase env_half cliente cart_missing)
          (initial_world db_example)
  = (Json 404
       (Failure
          (missing_message
             (filter (fun id =>
                        negb (existsb (fun p => (Product.id p =? id)
                                                && Product.activo p)%bool
                                      (products db_example)))
                     (map product_id [mkItem 9 1])))
          []),
     mkWorld db_example Finished
             ([] ++ [EvBegin;
                     EvSelectProductsForUpdate (map product_id [mkItem 9 1]);
                     EvRollback])
             2 0 0).
Proof.
  apply (@unlockable_cart_not_found env_half cliente cart_missing
           [mkItem 9 1] (initial_world db_example)).
  - reflexivity.
  - reflexivity.
  - reflexivity.
  - cbn. apply NoDup_two. discriminate.
  - right. exists (mkItem 9 1). split; [now left|].
    intros p [<-|[<-|[]]]; cbn; discriminate.
Defined.

Lemma lock_timeout_answers_busy_witness :
  respond (create_purchase env_lock_timeout cliente cart_example)
          (initial_world db_example)
  = (Json 503
       (Failure
          "El sistema está ocupado, intente nuevamente en unos segundos" []),
     mkWorld db_example Finished
             ([] ++ [EvBegin;
                     EvSelectProductsForUpdate (map product_id cart_items);
                     EvRollback])
             2 0 0).
Proof.
  apply (@lock_timeout_answers_busy env_lock_timeout cliente cart_example
           cart_items LockWaitTimeout (initial_world db_example)).
  - reflexivity.
  - reflexivity.
  - now right.
  - reflexivity.
Defined.

(** ** The pages of GET / *)

Lemma listed_page_witness :
  let db := db_two_lines in
  let visible := visible_to cliente db in
  exists rows pg,
    fst (respond (list_purchases env_half cliente (page_query 1 1))
                 (initial_world db_two_lines))
    = Json 200 (PurchaseList rows pg)
    /\ 1 <= currentPage pg
    /\ 1 <= itemsPerPage pg <= 100
    /\ (raw_page (page_query 1 1) = None -> currentPage pg = 1)
    /\ (raw_limit (page_query 1 1) = None -> itemsPerPage pg = 10)
    /\ Z.of_nat (List.length rows)
       = Z.min (itemsPerPage pg)
               (Z.max 0 (Z.of_nat (List.length visible)
                         - (currentPage pg - 1) * itemsPerPage pg))
    /\ Z.of_nat (List.length visible) <= totalItems pg
    /\ (NoDup (map User.id (users db)) ->
        NoDup (map Product.id (products db)) ->
        totalItems pg = sum_Z (map (joined_lines db) visible))
    /\ (totalPages pg - 1) * itemsPerPage pg < totalItems pg
       <= totalPages pg * itemsPerPage pg
    /\ (hasNextPage pg = true
        <-> currentPage pg * itemsPerPage pg < totalItems pg)
    /\ (hasPrevPage pg = true <-> 1 < currentPage pg).
Proof.
  cbv zeta. eexists. eexists. split; [reflexivity|].
  apply (@listed_page env_half cliente (page_query 1 1)
           (initial_world db_two_lines)).
  reflexivity.
Defined.

(** One purchase of two lines is counted twice: with one row to a page,
    the first page shows the purchase and announces a second page, which
    is empty. *)
Example one_purchase_of_two_lines_counted_twice :
  (exists rows,
      fst (respond (list_purchases env_half cliente (page_query 1 1))
                   (initial_world db_two_lines))
      = Json 200 (PurchaseList rows (mkPagination 1 2 2 1 true false))
      /\ List.length rows = 1%nat)
  /\ fst (respond (list_purchases env_half cliente (page_query 2 1))
                  (initial_world db_two_lines))
     = Json 200 (PurchaseList [] (mkPagination 2 2 2 1 false true)).
Proof.
  split; [eexists; split|]; vm_compute; reflexivity.
Qed.

Lemma pages_cover_once_witness :
  let found := visible_to otro db_two_clients_later in
  let page i :=
    fst (respond (list_purchases env_half otro
                    (page_query (Z.of_nat i) 1))
                 (initial_world db_two_clients_later)) in
  exists sorted,
    Permutation sorted found
    /\ strictly_descending (map Purchase.created_at sorted)
    /\ (forall n, (Z.to_nat (ceil_div (Z.of_nat (List.length found)) 1)
                   <= n)%nat ->
          flat_map (fun i => views_of (page i)) (seq 1 n)
          = map (view (negb (is_cliente otro)) db_two_clients_later) sorted)
    /\ (forall i rows pg,
          page i = Json 200 (PurchaseList rows pg) ->
          (Z.to_nat (ceil_div (Z.of_nat (List.length found)) 1)
           <= Z.to_nat (totalPages pg))%nat).
Proof.
  apply (@pages_cover_once env_half otro 1
           (initial_world db_two_clients_later)).
  - reflexivity.
  - lia.
  - cbn. apply NoDup_two. discriminate.
  - cbn. unfold MAX_SAFE_INTEGER. lia.
Defined.

Lemma query_out_of_range_refused_witness :
  exists message,
    respond (list_purchases env_half cliente (page_query 1 101))
            (initial_world db_two_clients)
    = (Json 400 (Failure "Parámetros de consulta inválidos" [message]),
       initial_world db_two_clients).
Proof.
  apply (@query_out_of_range_refused env_half cliente (page_query 1 101)
           (initial_world db_two_clients)).
  right. exists (inject_Z 101). split; [reflexivity|].
  right. right. reflexivity.
Defined.

(** ** The models *)

Lemma aumentarStock_undoes_reducirStock_witness :
  exists reduced w1 w2,
    reducirStock env_half product_A 2 (initial_world db_example)
    = (Ok (inr (reduced, true)), w1)
    /\ Product.cantidad_disponible reduced
       = Product.cantidad_disponible product_A - 2
    /\ aumentarStock env_half reduced 2 w1 = (Ok product_A, w2)
    /\ persisted w2 = persisted (initial_world db_example).
Proof.
  apply (@aumentarStock_undoes_reducirStock env_half product_A 2
           (initial_world db_example)).
  - reflexivity.
  - reflexivity.
  - cbn. apply NoDup_two. discriminate.
  - now left.
  - cbn. lia.
  - cbn. lia.
Defined.

Lemma hooks_subtotal_exact_witness :
  PurchaseDetail_beforeCreate detail_example
  = PurchaseDetail.with_subtotal (1000 * 2) detail_example
  /\ ((fun _ : string => true) "precio_unitario" = true
      \/ (fun _ : string => true) "cantidad" = true ->
      PurchaseDetail_beforeUpdate (fun _ => true) detail_example
      = PurchaseDetail.with_subtotal (1000 * 2) detail_example)
  /\ ((fun _ : string => true) "precio_unitario" = false ->
      (fun _ : string => true) "cantidad" = false ->
      PurchaseDetail_beforeUpdate (fun _ => true) detail_example
      = detail_example).
Proof.
  apply (@hooks_subtotal_exact (fun _ => true) detail_example 1000).
  - reflexivity.
  - lia.
  - cbn. lia.
  - cbn. unfold decimal12. lia.
Defined.

Lemma createPurchaseWithDetails_writes_no_line_witness :
  exists row w',
    createPurchaseWithDetails env_half 7 [mkPricedItem 2 10%Q] false
                              (initial_world db_example)
    = (Ok row, w')
    /\ tables_of false w'
       = Some (mkDB (users db_example) (products db_example)
                    (purchases db_example ++ [row])
                    (purchase_details db_example))
    /\ Purchase.user_id row = 7
    /\ Purchase.estado row = completada
    /\ Purchase.total row
       = JsNumber.toFixed2 (items_total [mkPricedItem 2 10%Q])
    /\ Purchase.numero_factura row = Some (candidate env_half 0 0).
Proof.
  apply (@createPurchaseWithDetails_writes_no_line env_half 7
           [mkPricedItem 2 10%Q] false (initial_world db_example)
           db_example).
  - reflexivity.
  - reflexivity.
Defined.

Lemma invoice_numbers_coincide_on_same_draw_witness :
  Date_now env_half (clock_reads (initial_world db_example))
  = Date_now env_half (clock_reads (initial_world db_two_clients))
  /\ JsNumber.floor
       (JsNumber.mul
          (Math_random env_half (random_reads (initial_world db_example)))
          1000)
     = JsNumber.floor
         (JsNumber.mul
            (Math_random env_half
                         (random_reads (initial_world db_two_clients)))
            1000).
Proof.
  apply (@invoice_numbers_coincide_on_same_draw env_half
           (initial_world db_example) (initial_world db_two_clients)).
  - apply env_half_unit_double.
  - apply env_half_unit_double.
  - reflexivity.
Defined.

(** ** The history of a client *)

Lemma history_shows_own_lines_witness :
  exists h,
    fst (reply (get_history env_half otro)
               (initial_world db_two_clients_later)) = Data h
    /\ Permutation
         (map entry_line (History.data h))
         (map (detail_line db_two_clients_later)
              (own_details (User.id otro) db_two_clients_later))
    /\ History.total_compras (History.summary h)
       = Z.of_nat (List.length (own (User.id otro) db_two_clients_later))
    /\ History.total_productos (History.summary h)
       = Z.of_nat
           (List.length (own_details (User.id otro) db_two_clients_later)).
Proof.
  apply (@history_shows_own_lines env_half otro
           (initial_world db_two_clients_later)).
  - reflexivity.
  - reflexivity.
  - cbn. constructor; [cbn; intuition discriminate|].
    apply NoDup_two. discriminate.
Defined.

Lemma history_total_exact_witness :
  exists h,
    fst (reply (get_history env_half otro)
               (initial_world db_two_clients_later)) = Data h
    /\ History.total_gastado (History.summary h) = sum_Z [500; 1000].
Proof.
  apply (@history_total_exact env_half otro
           (initial_world db_two_clients_later)).
  - reflexivity.
  - reflexivity.
  - repeat constructor; cbn; lia.
  - cbn. unfold decimal12. lia.
  - cbn. unfold max_lines. lia.
Defined.

(** ** The sales report *)


Lemma sales_units_counted_witness :
  exists report v,
    fst (reply (get_sales env_half every_date every_date administrador
                          None None)
               (initial_world db_one_sale)) = Data report
    /\ In v (Sales.top_productos report)
    /\ let sold := lines_of_product (pa_id (Sales.producto v))
                     (flat_map pv_details (Sales.compras report)) in
       sold <> []
       /\ Sales.cantidad_total v
          = inject_Z (sum_Z (map PurchaseDetail.cantidad sold))
       /\ Sales.veces_vendido v = inject_Z (Z.of_nat (List.length sold))
       /\ Sales.ingresos_total v
          = sum_decimals (map PurchaseDetail.subtotal sold) 0.
Proof.
  eexists. eexists. split; [reflexivity|]. split; [left; reflexivity|].
  apply (@sales_units_counted env_half every_date every_date administrador
           None None (initial_world db_one_sale) _ _ eq_refl
           (or_introl eq_refl)).
  - repeat constructor; cbn; lia.
  - cbn. unfold max_safe. lia.
Defined.

Lemma sales_income_exact_witness :
  exists report v,
    fst (reply (get_sales env_half every_date every_date administrador
                          None None)
               (initial_world db_one_sale)) = Data report
    /\ In v (Sales.top_productos report)
    /\ JsNumber.toFixed2 (Sales.ingresos_total v) = sum_Z [2000].
Proof.
  eexists. eexists. split; [reflexivity|]. split; [left; reflexivity|].
  apply (@sales_income_exact env_half every_date every_date administrador
           None None (initial_world db_one_sale) _ _ eq_refl
           (or_introl eq_refl)).
  - repeat constructor; cbn; lia.
  - cbn. unfold decimal12. lia.
  - cbn. unfold max_lines. lia.
Defined.

Lemma sales_fails_on_dangling_line_witness :
  let answer :=
    fst (reply (get_sales env_half every_date every_date administrador
                          None None)
               (initial_world db_dangling)) in
  (answer = Plain (Next TypeError) \/ exists report, answer = Data report)
  /\ (answer = Plain (Next TypeError)
      <-> exists p d,
            In p (in_range every_date every_date None None db_dangling)
            /\ dangling_line db_dangling p d).
Proof.
  apply (@sales_fails_on_dangling_line env_half every_date every_date
           administrador None None (initial_world db_dangling)).
  - reflexivity.
  - reflexivity.
Defined.

Lemma sales_total_exact_witness :
  exists report,
    fst (reply (get_sales env_half every_date every_date administrador
                          None None)
               (initial_world db_two_clients)) = Data report
    /\ Sales.total_ventas (Sales.resumen report) = sum_Z [2000; 500].
Proof.
  eexists. split; [reflexivity|].
  apply (@sales_total_exact env_half every_date every_date administrador
           None None (initial_world db_two_clients) _ eq_refl).
  - repeat constructor; cbn; lia.
  - cbn. unfold decimal12. lia.
  - cbn. unfold max_lines. lia.
Defined.

Lemma sales_summary_witness :
  let sold := in_range every_date every_date None None db_two_clients in
  exists report,
    fst (reply (get_sales env_half every_date every_date administrador
                          None None)
               (initial_world db_two_clients)) = Data report
    /\ Permutation (map pv_purchase (Sales.compras report)) sold
    /\ descending (map Purchase.fecha_compra
                       (map pv_purchase (Sales.compras report)))
    /\ Sales.total_compras (Sales.resumen report)
       = Z.of_nat (List.length sold)
    /\ (exists buyers,
          NoDup buyers
          /\ (forall u, In u buyers
                        <-> exists p, In p sold /\ Purchase.user_id p = u)
          /\ Sales.clientes_unicos (Sales.resumen report)
             = Z.of_nat (List.length buyers))
    /\ (sold = [] ->
        Sales.total_ventas (Sales.resumen report) = 0
        /\ Sales.promedio_por_compra (Sales.resumen report) = 0
        /\ Sales.top_productos report = []).
Proof.
  apply (@sales_summary env_half every_date every_date administrador
           None None (initial_world db_two_clients)).
  - reflexivity.
  - reflexivity.
  - exact db_two_clients_references.
Defined.
